(** * The conversations store (src/common/stores/chat/store-chats.ts)

    A shallow embedding of the chat store: the conversation, message and
    fragment records, the store actions, the token accounting helpers and the
    persistence hooks, followed by the properties of the store.

    Modelling conventions.
    - Token counts and timestamps are JavaScript numbers holding integers;
      they are [Z].  A number is falsy exactly when it is [0].
    - Identifiers are strings.  A string is falsy exactly when it is empty;
      an optional field is [option], [None] standing for [undefined] or
      [null] (both falsy).
    - The store actions have effects: they read and replace the store state
      ([_get], [_set]), read the clock ([Date.now]), draw identifiers, log to
      the console and abort controllers.  They are written in a state monad
      over [Sys], which holds the store state next to the ambient world.
      The clock and the identifier generators are sequences, of which the
      world counts the elements already used.
    - The collaborators that live in other files (the models store, the
      estimator, the identifier generators, the constructors of
      conversations and of error fragments) are variables of the section.
    - Objects are modelled by value.  Where the source mutates an object it
      was handed (a message whose [tokenCount] is refreshed, a conversation
      being imported), the model returns the updated record, which is what
      the store holds once the action has completed.  Every action builds
      what it stores from the records it is handed, and bringing a count up
      to date is idempotent ([refresh_idempotent]), so an object met twice
      is stored with the same contents either way. *)

From Stdlib Require Import List ZArith String Bool Lia.
Import ListNotations.

Local Open Scope Z_scope.
Local Open Scope string_scope.

(** ** Identifiers *)

Definition DConversationId := string.
Definition DMessageId := string.
Definition DMessageFragmentId := string.
Definition DLLMId := string.
Definition SystemPurposeId := string.

(** An [AbortController] is an opaque handle; aborting it is an event of the
    trace. *)
Definition AbortController := nat.

(** ** JavaScript truthiness *)

Definition truthyZ (n : Z) : bool := negb (n =? 0)%Z.

Definition truthyS (s : string) : bool := negb (String.eqb s "").

Definition truthyOS (o : option string) : bool :=
  match o with
  | Some s => truthyS s
  | None => false
  end.

Definition truthyOB (o : option bool) : bool :=
  match o with
  | Some b => b
  | None => false
  end.

(** [a || b] on numbers. *)
Definition orZ (a b : Z) : Z := if truthyZ a then a else b.

(** [a === b] where [a] may be undefined and [b] is a string. *)
Definition eqOS (a : option string) (b : string) : bool :=
  match a with
  | Some s => String.eqb s b
  | None => false
  end.

(** ** Fragments (chat.fragments) *)

(** The data reference of an image part.  A ['dblob'] reference names its
    asset in [dblobAssetId]; records written by earlier releases carry it
    under the key [dblobId]. *)
Inductive DataRef : Type :=
| DataRefUrl (url : string)
| DataRefDblob (dblobAssetId : option string) (dblobId : option string).

(** The part of a fragment, discriminated by [pt]. *)
Inductive DMessagePart : Type :=
| TextPart (text : string)                 (* pt = 'text' *)
| ImageRefPart (dataRef : DataRef)         (* pt = 'image_ref' *)
| ErrorPart (error : string)               (* pt = 'error' *)
| PlaceholderPart (pText : string)         (* pt = 'ph' *)
| OtherPart (pt : string).

(** The fragment discriminant [ft]. *)
Inductive FragmentType : Type :=
| FtContent
| FtAttachment
| FtOther (ft : string).

Module DMessageFragment.
Record t : Type := mk {
  ft : FragmentType;
  fId : option DMessageFragmentId;
  part : DMessagePart
}.

Definition set_fId (v : option DMessageFragmentId) (f : t) : t :=
  mk (ft f) v (part f).

Definition set_part (v : DMessagePart) (f : t) : t :=
  mk (ft f) (fId f) v.
End DMessageFragment.

Abbreviation DMessageFragment := DMessageFragment.t.

Definition isContentFragment (fragment : DMessageFragment) : bool :=
  match DMessageFragment.ft fragment with
  | FtContent => true
  | _ => false
  end.

Definition isImageRefPart (part : DMessagePart) : bool :=
  match part with
  | ImageRefPart _ => true
  | _ => false
  end.

(** ** Messages (chat.message) *)

Module DMessage.
Record t : Type := mk {
  id : DMessageId;
  role : string;
  fragments : list DMessageFragment;
  pendingIncomplete : option bool;
  typing : option bool;                      (* pre-v4 leftover *)
  tokenCount : Z;
  created : Z;
  updated : option Z
}.

Definition set_id (v : DMessageId) (m : t) : t :=
  mk v (role m) (fragments m) (pendingIncomplete m) (typing m)
     (tokenCount m) (created m) (updated m).

Definition set_fragments (v : list DMessageFragment) (m : t) : t :=
  mk (id m) (role m) v (pendingIncomplete m) (typing m)
     (tokenCount m) (created m) (updated m).

Definition set_pendingIncomplete (v : option bool) (m : t) : t :=
  mk (id m) (role m) (fragments m) v (typing m)
     (tokenCount m) (created m) (updated m).

Definition set_typing (v : option bool) (m : t) : t :=
  mk (id m) (role m) (fragments m) (pendingIncomplete m) v
     (tokenCount m) (created m) (updated m).

Definition set_tokenCount (v : Z) (m : t) : t :=
  mk (id m) (role m) (fragments m) (pendingIncomplete m) (typing m)
     v (created m) (updated m).

Definition set_updated (v : option Z) (m : t) : t :=
  mk (id m) (role m) (fragments m) (pendingIncomplete m) (typing m)
     (tokenCount m) (created m) v.

(** [Partial<DMessage>]: the keys present in a patch.  For the optional
    key [pendingIncomplete] a present key may hold [undefined]. *)
Record patch : Type := mkPatch {
  p_fragments : option (list DMessageFragment);
  p_pendingIncomplete : option (option bool);
  p_tokenCount : option Z;
  p_updated : option (option Z)
}.

Definition emptyPatch : patch := mkPatch None None None None.

Definition or_else {A : Type} (o : option A) (d : A) : A :=
  match o with
  | Some v => v
  | None => d
  end.

(** [{ ...message, ...patch }] *)
Definition merge (m : t) (p : patch) : t :=
  mk (id m) (role m)
     (or_else (p_fragments p) (fragments m))
     (or_else (p_pendingIncomplete p) (pendingIncomplete m))
     (typing m)
     (or_else (p_tokenCount p) (tokenCount m))
     (created m)
     (or_else (p_updated p) (updated m)).
End DMessage.

Abbreviation DMessage := DMessage.t.

(** ** Conversations (chat.conversation) *)

Module DConversation.
Record t : Type := mk {
  id : DConversationId;
  messages : list DMessage;
  systemPurposeId : SystemPurposeId;
  userTitle : option string;
  autoTitle : option string;
  userSymbol : option string;
  tokenCount : Z;
  created : Z;
  updated : option Z;
  abortController : option AbortController   (* None is null *)
}.

Definition set_id (v : DConversationId) (c : t) : t :=
  mk v (messages c) (systemPurposeId c) (userTitle c) (autoTitle c)
     (userSymbol c) (tokenCount c) (created c) (updated c)
     (abortController c).

Definition set_messages (v : list DMessage) (c : t) : t :=
  mk (id c) v (systemPurposeId c) (userTitle c) (autoTitle c)
     (userSymbol c) (tokenCount c) (created c) (updated c)
     (abortController c).

Definition set_tokenCount (v : Z) (c : t) : t :=
  mk (id c) (messages c) (systemPurposeId c) (userTitle c) (autoTitle c)
     (userSymbol c) v (created c) (updated c) (abortController c).

(** [Partial<DConversation>]: the keys present in a patch.  An optional
    key may be present and hold [undefined]. *)
Record patch : Type := mkPatch {
  p_messages : option (list DMessage);
  p_systemPurposeId : option SystemPurposeId;
  p_userTitle : option (option string);
  p_autoTitle : option (option string);
  p_userSymbol : option (option string);
  p_tokenCount : option Z;
  p_updated : option (option Z);
  p_abortController : option (option AbortController)
}.

Definition emptyPatch : patch :=
  mkPatch None None None None None None None None.

(** [{ ...conversation, ...patch }] *)
Definition merge (c : t) (p : patch) : t :=
  mk (id c)
     (DMessage.or_else (p_messages p) (messages c))
     (DMessage.or_else (p_systemPurposeId p) (systemPurposeId c))
     (DMessage.or_else (p_userTitle p) (userTitle c))
     (DMessage.or_else (p_autoTitle p) (autoTitle c))
     (DMessage.or_else (p_userSymbol p) (userSymbol c))
     (DMessage.or_else (p_tokenCount p) (tokenCount c))
     (created c)
     (DMessage.or_else (p_updated p) (updated c))
     (DMessage.or_else (p_abortController p) (abortController c)).

(** The conversation without its [abortController] key: the [rest] of
    [const { abortController, ...rest } = conversation]. *)
Record rest : Type := mkRest {
  r_id : DConversationId;
  r_messages : list DMessage;
  r_systemPurposeId : SystemPurposeId;
  r_userTitle : option string;
  r_autoTitle : option string;
  r_userSymbol : option string;
  r_tokenCount : Z;
  r_created : Z;
  r_updated : option Z
}.

Definition strip (c : t) : rest :=
  mkRest (id c) (messages c) (systemPurposeId c) (userTitle c)
         (autoTitle c) (userSymbol c) (tokenCount c) (created c)
         (updated c).

(** [conversation.abortController = v] on a record read back from
    storage. *)
Definition attach (v : option AbortController) (r : rest) : t :=
  mk (r_id r) (r_messages r) (r_systemPurposeId r) (r_userTitle r)
     (r_autoTitle r) (r_userSymbol r) (r_tokenCount r) (r_created r)
     (r_updated r) v.
End DConversation.

Abbreviation DConversation := DConversation.t.

(** ** The store state and the ambient world *)

Record ChatState : Type := mkChatState {
  conversations : list DConversation
}.

(** The persisted shape of the state: what [partialize] hands to the
    storage and what [onRehydrateStorage] receives back. *)
Record PersistedState : Type := mkPersistedState {
  persisted_conversations : list DConversation.rest
}.

Inductive Event : Type :=
| EvAbort (controller : AbortController)
| EvWarn (message : string)
| EvError (message : string).

(** The world outside the store: how many times the clock was read, how
    many identifiers were drawn, the chat model configured in the models
    store, and the trace of aborts and console output (oldest first). *)
Record World : Type := mkWorld {
  ticks : nat;
  draws : nat;
  chatLLMId : option DLLMId;
  trace : list Event
}.

Record Sys : Type := mkSys {
  chat : ChatState;
  world : World
}.

(** ** The effect monad *)

Definition M (A : Type) : Type := Sys -> A * Sys.

Definition ret {A : Type} (a : A) : M A := fun s => (a, s).

Definition bind {A B : Type} (c : M A) (k : A -> M B) : M B :=
  fun s => let (a, s') := c s in k a s'.

Declare Scope monad_scope.
Delimit Scope monad_scope with monad.
Notation "x <- c ;; k" := (bind c (fun x => k))
  (at level 61, c at next level, right associativity) : monad_scope.
Notation "' p <- c ;; k" := (bind c (fun x => match x with p => k end))
  (at level 61, p pattern, c at next level, right associativity) : monad_scope.
Notation "c ;; k" := (bind c (fun _ => k))
  (at level 61, right associativity) : monad_scope.
Local Open Scope monad_scope.

(** [array.map] with an effectful callback. *)
Fixpoint mapM {A B : Type} (f : A -> M B) (l : list A) : M (list B) :=
  match l with
  | [] => ret []
  | x :: l' => y <- f x ;; ys <- mapM f l' ;; ret (y :: ys)
  end.

(** [array.forEach] with an effectful callback. *)
Fixpoint forEachM {A : Type} (f : A -> M unit) (l : list A) : M unit :=
  match l with
  | [] => ret tt
  | x :: l' => f x ;; forEachM f l'
  end.

(** Lifting an effect on the world alone. *)
Definition liftW {A : Type} (c : World -> A * World) : M A :=
  fun s => let (a, w) := c (world s) in (a, mkSys (chat s) w).

(** Zustand's [_get] and [_set]. *)
Definition _get : M ChatState := fun s => (chat s, s).

Definition _set (st : ChatState) : M unit :=
  fun s => (tt, mkSys st (world s)).

Definition emit (e : Event) : M unit :=
  liftW (fun w =>
    (tt, mkWorld (ticks w) (draws w) (chatLLMId w) (trace w ++ [e]))).

Definition console_warn (message : string) : M unit := emit (EvWarn message).
Definition console_error (message : string) : M unit := emit (EvError message).

(** [abortController?.abort()] *)
Definition abort (controller : option AbortController) : M unit :=
  match controller with
  | Some h => emit (EvAbort h)
  | None => ret tt
  end.

(** [getChatLLMId()] reads the models store. *)
Definition getChatLLMId : M (option DLLMId) :=
  liftW (fun w => (chatLLMId w, w)).

(** ** Array helpers *)

(** [array.findIndex]: the index of the first match, or [-1]. *)
Fixpoint findIndex {A : Type} (p : A -> bool) (l : list A) : Z :=
  match l with
  | [] => -1
  | x :: l' =>
      if p x then 0
      else let i := findIndex p l' in if (i <? 0)%Z then -1 else i + 1
  end.

(** [array.includes] on identifiers. *)
Definition includes (l : list string) (x : string) : bool :=
  existsb (String.eqb x) l.

(** [array.map((x, index) => ...)] *)
Fixpoint mapi_from {A B : Type} (i : Z) (f : A -> Z -> B) (l : list A) : list B :=
  match l with
  | [] => []
  | x :: l' => f x i :: mapi_from (i + 1) f l'
  end.

Definition mapi {A B : Type} (f : A -> Z -> B) (l : list A) : list B :=
  mapi_from 0 f l.

(** ** A small store

    Concrete collaborators and a concrete state, on which the actions can
    be run. *)

Module Sample.

Definition clock (n : nat) : Z := 1700000000000 + Z.of_nat n.

(** The n-th identifier of a scope: a letter, then the scope. *)
Definition uuid_of (scope : string) (n : nat) : string :=
  String (Ascii.ascii_of_nat (97 + n)) ("-" ++ scope).

Definition nanoid_of (scope : string) (n : nat) : string :=
  String (Ascii.ascii_of_nat (65 + n)) ("_" ++ scope).

(** A model descriptor: its context window. *)
Definition DLLM : Type := Z.

Definition findLLMOrThrow (id : DLLMId) : option DLLM :=
  if String.eqb id "model-a" then Some 8192 else None.

(** Ten tokens a fragment. *)
Definition estimateTokensForFragments (fragments : list DMessageFragment)
    (dllm : DLLM) (full : bool) (debugFrom : string) : option Z :=
  Some (10 * Z.of_nat (List.length fragments)).

Definition createDConversation (personaId : option SystemPurposeId)
    (w : World) : DConversation * World :=
  (DConversation.mk (uuid_of "chat-dconversation" (draws w)) []
     (match personaId with Some p => p | None => "Generic" end)
     None None None 0 (clock (ticks w)) (Some (clock (ticks w))) None,
   mkWorld (S (ticks w)) (S (draws w)) (chatLLMId w) (trace w)).

Definition createErrorContentFragment (error : string) (w : World)
    : DMessageFragment * World :=
  (DMessageFragment.mk FtContent (Some (nanoid_of "chat-dfragment" (draws w)))
     (ErrorPart error),
   mkWorld (ticks w) (S (draws w)) (chatLLMId w) (trace w)).

Definition text (fId : option DMessageFragmentId) (t : string)
    : DMessageFragment :=
  DMessageFragment.mk FtContent fId (TextPart t).

(** A message whose cached count, 7, is not what the estimator gives for
    its single fragment. *)
Definition hello : DMessage :=
  DMessage.mk "m1" "user" [text (Some "f1") "hello"] None None 7 10 None.

Definition reply : DMessage :=
  DMessage.mk "m2" "assistant"
    [text (Some "f2") "hi"; text (Some "f3") "there"] None None 20 20
    (Some 21).

(** A message read back from storage: still marked as pending, with a
    fragment that has no identifier, a placeholder and an image that names
    its asset under the former key. *)
Definition stale : DMessage :=
  DMessage.mk "m3" "assistant"
    [text None "partial";
     DMessageFragment.mk FtContent (Some "f5") (PlaceholderPart "Loading");
     DMessageFragment.mk FtContent (Some "")
       (ImageRefPart (DataRefDblob None (Some "asset-1")))]
    (Some true) (Some true) 0 30 None.

(** A conversation whose count is the fold over its two messages, with an
    operation in flight. *)
Definition chatting : DConversation :=
  DConversation.mk "c2" [hello; reply] "Developer" None (Some "Greetings")
    None 38 5 (Some 25) (Some 1%nat).

(** A conversation without messages, with a count of 0. *)
Definition blank : DConversation :=
  DConversation.mk "c1" [] "Generic" None None None 0 1 (Some 1) None.

(** A conversation of five messages. *)
Definition thread : DConversation :=
  DConversation.mk "c5"
    (map (fun id => DMessage.set_id id hello) ["t1"; "t2"; "t3"; "t4"; "t5"])
    "Generic" None None None 58 2 (Some 3) None.

Definition world0 : World := mkWorld 0 0 (Some "model-a") [].

Definition sys0 : Sys := mkSys (mkChatState [chatting; blank]) world0.

End Sample.

(** An update handed to an edit: a patch, or a function from the current
    record to a patch ([typeof update === 'function']). *)
Inductive Update (T P : Type) : Type :=
| Patch (p : P)
| PatchFn (f : T -> M P).

Arguments Patch {T P} p.
Arguments PatchFn {T P} f.

Definition applyUpdate {T P : Type} (update : Update T P) (x : T) : M P :=
  match update with
  | Patch p => ret p
  | PatchFn f => f x
  end.

(** ** The store *)

Section Store.

(** The collaborators of the store, which live outside this file. *)

(** The reading of the clock at its n-th use. *)
Variable clock : nat -> Z.

(** The identifier generators of idUtils: the identifier produced for a
    scope at the n-th draw. *)
Variable uuid_of : string -> nat -> string.
Variable nanoid_of : string -> nat -> string.

(** The models store: the descriptor of a model, and its lookup, which
    throws ([None]) for an unknown identifier. *)
Variable DLLM : Type.
Variable findLLMOrThrow : DLLMId -> option DLLM.

(** The estimator of chat.tokens; [None] stands for an exception. *)
Variable estimateTokensForFragments :
  list DMessageFragment -> DLLM -> bool -> string -> option Z.

(** The constructor of an empty conversation, of chat.conversation.  It
    may read the clock and draw identifiers. *)
Variable createDConversation :
  option SystemPurposeId -> World -> DConversation * World.

(** The constructor of an error fragment, of chat.fragments.  It may draw
    identifiers. *)
Variable createErrorContentFragment :
  string -> World -> DMessageFragment * World.

(** [Date.now()] *)
Definition Date_now : M Z :=
  liftW (fun w =>
    (clock (ticks w), mkWorld (S (ticks w)) (draws w) (chatLLMId w) (trace w))).

Definition draw (gen : string -> nat -> string) (scope : string) : M string :=
  liftW (fun w =>
    (gen scope (draws w), mkWorld (ticks w) (S (draws w)) (chatLLMId w) (trace w))).

Definition agiUuid (scope : string) : M string := draw uuid_of scope.
Definition agiId (scope : string) : M string := draw nanoid_of scope.

(** *** Token accounting *)

(** Count the tokens in a message.  The source stores the count in the
    message and returns it; the model returns the message next to the
    count. *)
Definition updateMessageTokenCount (message : DMessage) (llmId : option DLLMId)
    (forceUpdate : bool) (debugFrom : string) : M (DMessage * Z) :=
  if forceUpdate || negb (truthyZ (DMessage.tokenCount message)) then
    match llmId with
    | Some id =>
        if truthyS id then
          (* try { ... } catch (e) { ... } *)
          match findLLMOrThrow id with
          | Some dllm =>
              match estimateTokensForFragments
                      (DMessage.fragments message) dllm false debugFrom with
              | Some n =>
                  let message := DMessage.set_tokenCount n message in
                  ret (message, DMessage.tokenCount message)
              | None =>
                  console_error
                    ("updateMessageTokenCount: LLM not found for ID " ++ id) ;;
                  let message := DMessage.set_tokenCount 0 message in
                  ret (message, DMessage.tokenCount message)
              end
          | None =>
              console_error
                ("updateMessageTokenCount: LLM not found for ID " ++ id) ;;
              let message := DMessage.set_tokenCount 0 message in
              ret (message, DMessage.tokenCount message)
          end
        else
          (* if there's no LLM, we can't count tokens *)
          ret (DMessage.set_tokenCount 0 message, 0)
    | None =>
        ret (DMessage.set_tokenCount 0 message, 0)
    end
  else
    ret (message, DMessage.tokenCount message).

(** Update a set of messages, using the current chat model.  The reducer
    visits the messages in order; the model collects the updated messages
    next to the sum. *)
Fixpoint updateMessagesTokenCounts_reduce (chatLLMId : option DLLMId)
    (forceUpdate : bool) (debugFrom : string)
    (messages : list DMessage) (done : list DMessage) (sum : Z)
    : M (list DMessage * Z) :=
  match messages with
  | [] => ret (done, sum)
  | message :: rest =>
      '(message', n) <-
        updateMessageTokenCount message chatLLMId forceUpdate debugFrom ;;
      updateMessagesTokenCounts_reduce chatLLMId forceUpdate debugFrom
        rest (done ++ [message']) (4 + n + sum)
  end.

Definition updateMessagesTokenCounts (messages : list DMessage)
    (forceUpdate : bool) (debugFrom : string) : M (list DMessage * Z) :=
  chatLLMId <- getChatLLMId ;;
  '(messages', sum) <-
    updateMessagesTokenCounts_reduce chatLLMId forceUpdate debugFrom
      messages [] 0 ;;
  ret (messages', 3 + sum).

(** [messages.reduce((sum, message) => sum + 4 + message.tokenCount || 0, 3)]:
    the fold over the cached counts.  [||] binds weaker than [+]. *)
Definition reduceTokenCount (messages : list DMessage) : Z :=
  fold_left
    (fun sum message => orZ (sum + 4 + DMessage.tokenCount message) 0)
    messages 3.

(** *** CRUD conversations *)

Definition prependNewConversation (personaId : option SystemPurposeId)
    : M DConversationId :=
  newConversation <- liftW (createDConversation personaId) ;;
  state <- _get ;;
  _set (mkChatState (newConversation :: conversations state)) ;;
  ret (DConversation.id newConversation).

Definition importConversation (conversation : DConversation)
    (preventClash : bool) : M DConversationId :=
  state <- _get ;;
  let conversations := conversations state in
  (* if there's a clash, abort the former conversation, and optionally
     change the ID *)
  let existing :=
    find (fun _c => String.eqb (DConversation.id _c)
                               (DConversation.id conversation))
         conversations in
  conversation <-
    match existing with
    | Some existing =>
        abort (DConversation.abortController existing) ;;
        if preventClash then
          newId <- agiUuid "chat-dconversation" ;;
          console_warn ("Conversation ID clash, changing ID to " ++ newId) ;;
          ret (DConversation.set_id newId conversation)
        else ret conversation
    | None => ret conversation
    end ;;
  '(messages, tokenCount) <-
    updateMessagesTokenCounts (DConversation.messages conversation)
      true "importConversation" ;;
  let conversation :=
    DConversation.set_tokenCount tokenCount
      (DConversation.set_messages messages conversation) in
  _set (mkChatState
          (conversation ::
           filter (fun _c => negb (String.eqb (DConversation.id _c)
                                              (DConversation.id conversation)))
                  conversations)) ;;
  ret (DConversation.id conversation).

(** [newConversations[i].id]; [None] stands for the TypeError of reading
    [id] off [undefined]. *)
Definition id_at (l : list DConversation) (i : Z) : option DConversationId :=
  option_map DConversation.id (nth_error l (Z.to_nat i)).

Definition deleteConversations (conversationIds : list DConversationId)
    (newConversationPersonaId : option SystemPurposeId)
    : M (option DConversationId) :=
  state <- _get ;;
  let conversations := conversations state in
  (* find the index of first conversation to delete *)
  let cIndex :=
    match conversationIds with
    | first :: _ =>
        findIndex (fun _c => String.eqb (DConversation.id _c) first)
                  conversations
    | [] => -1
    end in
  (* abort all pending requests *)
  forEachM
    (fun conversationId =>
       match find (fun _c => String.eqb (DConversation.id _c) conversationId)
                  conversations with
       | Some c => abort (DConversation.abortController c)
       | None => ret tt
       end)
    conversationIds ;;
  (* remove from the list *)
  let newConversations :=
    filter (fun _c => negb (includes conversationIds (DConversation.id _c)))
           conversations in
  (* create a new conversation if there are no more *)
  newConversations <-
    (if (List.length newConversations =? 0)%nat then
       c <- liftW (createDConversation newConversationPersonaId) ;;
       ret (newConversations ++ [c])%list
     else ret newConversations) ;;
  _set (mkChatState newConversations) ;;
  (* return the next conversation Id in line, if valid *)
  ret (id_at newConversations
         (if (0 <=? cIndex)%Z && (cIndex <? Z.of_nat (List.length newConversations))%Z
          then cIndex else 0)).

(** Modelled from the spec: duplicateCConversation belongs to
    chat.conversation, which is not part of the sources at hand.  The spec
    describes its result as a structural duplicate including all messages
    up to and including the given message (or the full conversation when
    none is given).  This is the prefix it keeps: the messages up to and
    including the first one that bears the identifier. *)
Fixpoint upToAndIncluding (lastMessageId : DMessageId) (messages : list DMessage)
    : list DMessage :=
  match messages with
  | [] => []
  | m :: rest =>
      if String.eqb (DMessage.id m) lastMessageId then [m]
      else m :: upToAndIncluding lastMessageId rest
  end.

(** Modelled from the spec: the duplication of a message belongs to
    chat.message, which is not part of the sources at hand.  The spec asks
    for a freshly generated message identifier; the rest of the message is
    carried over. *)
Definition duplicateDMessage (message : DMessage) : M DMessage :=
  newId <- agiUuid "chat-dmessage" ;;
  ret (DMessage.set_id newId message).

(** Modelled from the spec: duplicateCConversation belongs to
    chat.conversation, which is not part of the sources at hand.  The spec
    describes its result as a structural duplicate of the conversation,
    cut after the given message, with freshly generated conversation and
    message identifiers.  The duplicate has no operation in flight, so its
    handle is null. *)
Definition duplicateCConversation (conversation : DConversation)
    (lastMessageId : option DMessageId) : M DConversation :=
  newId <- agiUuid "chat-dconversation" ;;
  messages <-
    mapM duplicateDMessage
      (match lastMessageId with
       | Some mId => upToAndIncluding mId (DConversation.messages conversation)
       | None => DConversation.messages conversation
       end) ;;
  ret (DConversation.mk newId messages
         (DConversation.systemPurposeId conversation)
         (DConversation.userTitle conversation)
         (DConversation.autoTitle conversation)
         (DConversation.userSymbol conversation)
         (DConversation.tokenCount conversation)
         (DConversation.created conversation)
         (DConversation.updated conversation)
         None).

Definition branchConversation (conversationId : DConversationId)
    (messageId : option DMessageId) : M (option DConversationId) :=
  state <- _get ;;
  let conversations := conversations state in
  match find (fun _c => String.eqb (DConversation.id _c) conversationId)
             conversations with
  | None => ret None
  | Some conversation =>
      (* messageId ?? undefined *)
      branched <- duplicateCConversation conversation messageId ;;
      _set (mkChatState (branched :: conversations)) ;;
      ret (Some (DConversation.id branched))
  end.

(** *** Within a conversation *)

Definition _editConversation (conversationId : DConversationId)
    (update : Update DConversation DConversation.patch) : M unit :=
  state <- _get ;;
  conversations <-
    mapM (fun conversation =>
            if String.eqb (DConversation.id conversation) conversationId then
              p <- applyUpdate update conversation ;;
              ret (DConversation.merge conversation p)
            else ret conversation)
         (conversations state) ;;
  _set (mkChatState conversations).

Definition setAbortController (conversationId : DConversationId)
    (abortController : option AbortController) : M unit :=
  _editConversation conversationId (PatchFn (fun _ =>
    ret {| DConversation.p_messages := None;
           DConversation.p_systemPurposeId := None;
           DConversation.p_userTitle := None;
           DConversation.p_autoTitle := None;
           DConversation.p_userSymbol := None;
           DConversation.p_tokenCount := None;
           DConversation.p_updated := None;
           DConversation.p_abortController := Some abortController |})).

Definition abortConversationTemp (conversationId : DConversationId) : M unit :=
  _editConversation conversationId (PatchFn (fun conversation =>
    abort (DConversation.abortController conversation) ;;
    ret {| DConversation.p_messages := None;
           DConversation.p_systemPurposeId := None;
           DConversation.p_userTitle := None;
           DConversation.p_autoTitle := None;
           DConversation.p_userSymbol := None;
           DConversation.p_tokenCount := None;
           DConversation.p_updated := None;
           DConversation.p_abortController := Some None |})).

(** The update function [setMessages] hands to [_editConversation]. *)
Definition setMessages_update (newMessages : list DMessage)
    (conversation : DConversation) : M DConversation.patch :=
  abort (DConversation.abortController conversation) ;;
  '(messages, tokenCount) <-
    updateMessagesTokenCounts newMessages false "setMessages" ;;
  now <- Date_now ;;
  ret {| DConversation.p_messages := Some messages;
         DConversation.p_systemPurposeId := None;
         DConversation.p_userTitle := None;
         DConversation.p_autoTitle :=
           (* !!newMessages.length ? {} : { autoTitle: undefined } *)
           if negb (List.length newMessages =? 0)%nat then None
           else Some None;
         DConversation.p_userSymbol := None;
         DConversation.p_tokenCount := Some tokenCount;
         DConversation.p_updated := Some (Some now);
         DConversation.p_abortController := Some None |}.

Definition setMessages (conversationId : DConversationId)
    (newMessages : list DMessage) : M unit :=
  _editConversation conversationId
    (PatchFn (setMessages_update newMessages)).

(** The update function [appendMessage] hands to [_editConversation]. *)
Definition appendMessage_update (message : DMessage)
    (conversation : DConversation) : M DConversation.patch :=
  appended <-
    (if negb (truthyOB (DMessage.pendingIncomplete message)) then
       '(updated, _) <-
         updateMessagesTokenCounts [message] true "appendMessage" ;;
       ret updated
     else ret [message]) ;;
  let messages := (DConversation.messages conversation ++ appended)%list in
  now <- Date_now ;;
  ret {| DConversation.p_messages := Some messages;
         DConversation.p_systemPurposeId := None;
         DConversation.p_userTitle := None;
         DConversation.p_autoTitle := None;
         DConversation.p_userSymbol := None;
         DConversation.p_tokenCount := Some (reduceTokenCount messages);
         DConversation.p_updated := Some (Some now);
         DConversation.p_abortController := None |}.

Definition appendMessage (conversationId : DConversationId)
    (message : DMessage) : M unit :=
  _editConversation conversationId
    (PatchFn (appendMessage_update message)).

(** The update function [deleteMessage] hands to [_editConversation]. *)
Definition deleteMessage_update (messageId : DMessageId)
    (conversation : DConversation) : M DConversation.patch :=
  let messages :=
    filter (fun message =>
              negb (String.eqb (DMessage.id message) messageId))
           (DConversation.messages conversation) in
  now <- Date_now ;;
  ret {| DConversation.p_messages := Some messages;
         DConversation.p_systemPurposeId := None;
         DConversation.p_userTitle := None;
         DConversation.p_autoTitle := None;
         DConversation.p_userSymbol := None;
         DConversation.p_tokenCount := Some (reduceTokenCount messages);
         DConversation.p_updated := Some (Some now);
         DConversation.p_abortController := None |}.

Definition deleteMessage (conversationId : DConversationId)
    (messageId : DMessageId) : M unit :=
  _editConversation conversationId
    (PatchFn (deleteMessage_update messageId)).

(** The callback of [conversation.messages.map] in [editMessage]. *)
Definition editMessage_map (messageId : DMessageId)
    (update : Update DMessage DMessage.patch)
    (removePendingState touchUpdated : bool) (message : DMessage)
    : M DMessage :=
  if negb (String.eqb (DMessage.id message) messageId) then ret message
  else
    p <- applyUpdate update message ;;
    let updatedMessage := DMessage.merge message p in
    updatedMessage <-
      (if touchUpdated then
         now <- Date_now ;;
         ret (DMessage.set_updated (Some now) updatedMessage)
       else ret updatedMessage) ;;
    let updatedMessage :=
      if removePendingState
      then DMessage.set_pendingIncomplete None updatedMessage
      else updatedMessage in
    if negb (truthyOB (DMessage.pendingIncomplete updatedMessage)) then
      llmId <- getChatLLMId ;;
      '(updatedMessage, _) <-
        updateMessageTokenCount updatedMessage llmId true
          "editMessage(incomplete=false)" ;;
      ret updatedMessage
    else ret updatedMessage.

(** The update function [editMessage] hands to [_editConversation]. *)
Definition editMessage_update (messageId : DMessageId)
    (update : Update DMessage DMessage.patch)
    (removePendingState touchUpdated : bool)
    (conversation : DConversation) : M DConversation.patch :=
  messages <-
    mapM (editMessage_map messageId update removePendingState touchUpdated)
         (DConversation.messages conversation) ;;
  updated <-
    (if touchUpdated then now <- Date_now ;; ret (Some now)
     else ret (DConversation.updated conversation)) ;;
  ret {| DConversation.p_messages := Some messages;
         DConversation.p_systemPurposeId := None;
         DConversation.p_userTitle := None;
         DConversation.p_autoTitle := None;
         DConversation.p_userSymbol := None;
         DConversation.p_tokenCount := Some (reduceTokenCount messages);
         DConversation.p_updated := Some updated;
         DConversation.p_abortController := None |}.

Definition editMessage (conversationId : DConversationId)
    (messageId : DMessageId) (update : Update DMessage DMessage.patch)
    (removePendingState touchUpdated : bool) : M unit :=
  _editConversation conversationId
    (PatchFn (editMessage_update messageId update removePendingState touchUpdated)).

Definition fragmentsPatch (fragments : list DMessageFragment) : DMessage.patch :=
  {| DMessage.p_fragments := Some fragments;
     DMessage.p_pendingIncomplete := None;
     DMessage.p_tokenCount := None;
     DMessage.p_updated := None |}.

Definition appendMessageFragment (conversationId : DConversationId)
    (messageId : DMessageId) (fragment : DMessageFragment)
    (removePendingState touchUpdated : bool) : M unit :=
  editMessage conversationId messageId
    (PatchFn (fun message =>
       ret (fragmentsPatch (DMessage.fragments message ++ [fragment])%list)))
    removePendingState touchUpdated.

Definition deleteMessageFragment (conversationId : DConversationId)
    (messageId : DMessageId) (fragmentId : DMessageFragmentId)
    (removePendingState touchUpdated : bool) : M unit :=
  editMessage conversationId messageId
    (PatchFn (fun message =>
       ret (fragmentsPatch
              (filter (fun f => negb (eqOS (DMessageFragment.fId f) fragmentId))
                      (DMessage.fragments message)))))
    removePendingState touchUpdated.

(** The update function [replaceMessageFragment] hands to [editMessage]. *)
Definition replaceMessageFragment_update (fragmentId : DMessageFragmentId)
    (newFragment : DMessageFragment) (message : DMessage)
    : M DMessage.patch :=
  (* Warn if the fragment is not found *)
  let fragmentIndex :=
    findIndex (fun f => eqOS (DMessageFragment.fId f) fragmentId)
              (DMessage.fragments message) in
  if (fragmentIndex <? 0)%Z then
    console_error
      ("replaceFragment: fragment not found for ID " ++ fragmentId) ;;
    ret DMessage.emptyPatch
  else
    (* Replace the fragment *)
    ret (fragmentsPatch
           (mapi (fun fragment index =>
                    if (index =? fragmentIndex)%Z then newFragment
                    else fragment)
                 (DMessage.fragments message))).

Definition replaceMessageFragment (conversationId : DConversationId)
    (messageId : DMessageId) (fragmentId : DMessageFragmentId)
    (newFragment : DMessageFragment)
    (removePendingState touchUpdated : bool) : M unit :=
  editMessage conversationId messageId
    (PatchFn (replaceMessageFragment_update fragmentId newFragment))
    removePendingState touchUpdated.

Definition setSystemPurposeId (conversationId : DConversationId)
    (personaId : SystemPurposeId) : M unit :=
  _editConversation conversationId (Patch
    {| DConversation.p_messages := None;
       DConversation.p_systemPurposeId := Some personaId;
       DConversation.p_userTitle := None;
       DConversation.p_autoTitle := None;
       DConversation.p_userSymbol := None;
       DConversation.p_tokenCount := None;
       DConversation.p_updated := None;
       DConversation.p_abortController := None |}).

Definition setAutoTitle (conversationId : DConversationId)
    (autoTitle : string) : M unit :=
  _editConversation conversationId (Patch
    {| DConversation.p_messages := None;
       DConversation.p_systemPurposeId := None;
       DConversation.p_userTitle := None;
       DConversation.p_autoTitle := Some (Some autoTitle);
       DConversation.p_userSymbol := None;
       DConversation.p_tokenCount := None;
       DConversation.p_updated := None;
       DConversation.p_abortController := None |}).

Definition setUserTitle (conversationId : DConversationId)
    (userTitle : string) : M unit :=
  _editConversation conversationId (Patch
    {| DConversation.p_messages := None;
       DConversation.p_systemPurposeId := None;
       DConversation.p_userTitle := Some (Some userTitle);
       DConversation.p_autoTitle := None;
       DConversation.p_userSymbol := None;
       DConversation.p_tokenCount := None;
       DConversation.p_updated := None;
       DConversation.p_abortController := None |}).

Definition setUserSymbol (conversationId : DConversationId)
    (userSymbol : option string) : M unit :=
  _editConversation conversationId (Patch
    {| DConversation.p_messages := None;
       DConversation.p_systemPurposeId := None;
       DConversation.p_userTitle := None;
       DConversation.p_autoTitle := None;
       DConversation.p_userSymbol :=
         (* userSymbol || undefined *)
         Some (if truthyOS userSymbol then userSymbol else None);
       DConversation.p_tokenCount := None;
       DConversation.p_updated := None;
       DConversation.p_abortController := None |}).

(** *** Persistence *)

(** Pre-Saving: remove transient properties. *)
Definition partialize (state : ChatState) : PersistedState :=
  mkPersistedState (map DConversation.strip (conversations state)).

(** The body of the loop over the fragments of a message. *)
Definition rehydrate_fragment (fragment : DMessageFragment)
    : M DMessageFragment :=
  (* fixup rename of fragment's dblobId to dblobAssetId *)
  let fragment :=
    match DMessageFragment.part fragment with
    | ImageRefPart (DataRefDblob _ (Some dblobId)) =>
        if isContentFragment fragment
           && isImageRefPart (DMessageFragment.part fragment)
           && truthyS dblobId
        then DMessageFragment.set_part
               (ImageRefPart (DataRefDblob (Some dblobId) None)) fragment
        else fragment
    | _ => fragment
    end in
  (* fixup missing fId *)
  if negb (truthyOS (DMessageFragment.fId fragment)) then
    fId <- agiId "chat-dfragment" ;;
    ret (DMessageFragment.set_fId (Some fId) fragment)
  else ret fragment.

(** The callback replacing the placeholder fragments by error fragments. *)
Definition rehydrate_placeholder (fragment : DMessageFragment)
    : M DMessageFragment :=
  match DMessageFragment.part fragment with
  | PlaceholderPart pText =>
      if isContentFragment fragment
      then liftW (createErrorContentFragment (pText ++ " (did not complete)"))
      else ret fragment
  | _ => ret fragment
  end.

(** The body of the loop over the messages of a conversation. *)
Definition rehydrate_message (message : DMessage) : M DMessage :=
  fragments <- mapM rehydrate_fragment (DMessage.fragments message) ;;
  fragments <- mapM rehydrate_placeholder fragments ;;
  (* cleanup pre-v4 properties *)
  ret (DMessage.set_typing None
         (DMessage.set_pendingIncomplete None
            (DMessage.set_fragments fragments message))).

(** Post-Loading: re-add transient properties and cleanup state.  The
    source repairs the state in place; the model returns the repaired
    state. *)
Definition onRehydrateStorage (state : option PersistedState)
    : M (option ChatState) :=
  match state with
  | None => ret None
  | Some state =>
      conversations <-
        mapM (fun conversation =>
                (* re-add transient properties *)
                let conversation := DConversation.attach None conversation in
                (* fixup messages *)
                messages <-
                  mapM rehydrate_message
                       (DConversation.messages conversation) ;;
                ret (DConversation.set_messages messages conversation))
             (persisted_conversations state) ;;
      ret (Some (mkChatState conversations))
  end.

(** *** Readers of the store *)

(** [useChatStore.getState().conversations.find(...) ?? null], for an
    identifier that is not falsy. *)
Definition getConversation (conversationId : option DConversationId)
    : M (option DConversation) :=
  if truthyOS conversationId then
    state <- _get ;;
    ret (find (fun _c => eqOS conversationId (DConversation.id _c))
              (conversations state))
  else ret None.

Definition isValidConversation (conversationId : option DConversationId)
    : M bool :=
  if truthyOS conversationId then
    found <- getConversation conversationId ;;
    ret (match found with Some _ => true | None => false end)
  else ret false.

(** [getConversation(conversationId)?.systemPurposeId || null] *)
Definition getConversationSystemPurposeId
    (conversationId : option DConversationId) : M (option SystemPurposeId) :=
  found <- getConversation conversationId ;;
  ret (match found with
       | Some c =>
           if truthyS (DConversation.systemPurposeId c)
           then Some (DConversation.systemPurposeId c) else None
       | None => None
       end).

(** The title shown for a conversation, of chat.conversation. *)
Variable conversationTitle : DConversation -> string.

(** What the selector of [useConversation] reads off the state; the three
    actions it passes along are left out. *)
Record ConversationView : Type := mkConversationView {
  title : option string;
  isEmpty : bool;
  isDeveloper : bool;
  conversationIdx : Z;
  hasConversations : bool;
  recycleNewConversationId : option DConversationId
}.

Definition useConversation (conversationId : option DConversationId)
    (state : ChatState) : ConversationView :=
  let conversations := conversations state in
  (* this object will change if any sub-prop changes as well *)
  let conversation :=
    if truthyOS conversationId
    then find (fun _c => eqOS conversationId (DConversation.id _c))
              conversations
    else None in
  mkConversationView
    (option_map conversationTitle conversation)
    (match conversation with
     | Some c => (List.length (DConversation.messages c) =? 0)%nat
     | None => true
     end)
    (match conversation with
     | Some c => String.eqb (DConversation.systemPurposeId c) "Developer"
     | None => false
     end)
    (match conversation with
     | Some c =>
         findIndex (fun _c => String.eqb (DConversation.id _c)
                                         (DConversation.id c))
                   conversations
     | None => -1
     end)
    ((1 <? List.length conversations)%nat
     || match conversations with
        | [c] => negb (List.length (DConversation.messages c) =? 0)%nat
        | _ => false
        end)
    (match conversations with
     | c :: _ =>
         if (List.length (DConversation.messages c) =? 0)%nat
         then Some (DConversation.id c) else None
     | [] => None
     end).

(** *** Migrations *)

(** A conversation as the storage holds it, of whatever version; the
    converter of trade.types from the version 3 shape to the version 4
    shape; and the backup of idbUtils, which tells whether it succeeded. *)
Variable StoredConversation : Type.
Variable convertDConversation_V3_V4 : StoredConversation -> StoredConversation.
Variable backupIdbV3 : string -> string -> World -> bool * World.

(** The state handed to [migrate] may be missing, and so may its
    conversations. *)
Definition migrate (state : option (option (list StoredConversation)))
    (fromVersion : Z) : M (option (option (list StoredConversation))) :=
  (* 3 -> 4: Convert messages to multi-part *)
  match state with
  | Some (Some stored) =>
      if (fromVersion <? 4)%Z && negb (List.length stored =? 0)%nat then
        backedUp <- liftW (backupIdbV3 "app-chats" "app-chats-v3") ;;
        (if backedUp : bool
         then console_warn "Migrated app-chats from v3 to v4"
         else ret tt) ;;
        ret (Some (Some (map convertDConversation_V3_V4 stored)))
      else ret state
  | _ => ret state
  end.

(** ** The vocabulary of the properties *)

(** How the world may change while an action runs: the configured model
    stays, the clock and the generators only advance, the trace only
    grows. *)
Definition evolves (s s' : Sys) : Prop :=
  chatLLMId (world s') = chatLLMId (world s)
  /\ (ticks (world s) <= ticks (world s'))%nat
  /\ (draws (world s) <= draws (world s'))%nat
  /\ exists more, trace (world s') = (trace (world s) ++ more)%list.

(** An action that only writes to the console or aborts controllers. *)
Definition logs_only (s s' : Sys) : Prop :=
  chat s' = chat s
  /\ ticks (world s') = ticks (world s)
  /\ draws (world s') = draws (world s)
  /\ chatLLMId (world s') = chatLLMId (world s)
  /\ exists more, trace (world s') = (trace (world s) ++ more)%list.

(** The sum of the formula [3 + sum over messages of (4 + tokenCount)]. *)
Definition sumTokens (messages : list DMessage) : Z :=
  fold_right (fun m acc => 4 + DMessage.tokenCount m + acc) 0 messages.

(** The count a recomputation stores: the estimate under the given model,
    and [0] when no model is given, when the lookup throws or when the
    estimator throws. *)
Definition recount (llmId : option DLLMId) (debugFrom : string)
    (message : DMessage) : Z :=
  match llmId with
  | Some id =>
      if truthyS id then
        match findLLMOrThrow id with
        | Some dllm =>
            match estimateTokensForFragments
                    (DMessage.fragments message) dllm false debugFrom with
            | Some n => n
            | None => 0
            end
        | None => 0
        end
      else 0
  | None => 0
  end.

(** The message once its count has been brought up to date. *)
Definition refresh (llmId : option DLLMId) (forceUpdate : bool)
    (debugFrom : string) (message : DMessage) : DMessage :=
  if forceUpdate || negb (truthyZ (DMessage.tokenCount message))
  then DMessage.set_tokenCount (recount llmId debugFrom message) message
  else message.

(** A call of [appendMessage] or [deleteMessage] on a conversation. *)
Inductive MessageCall : Type :=
| CallAppend (message : DMessage)
| CallDelete (messageId : DMessageId).

Definition call (conversationId : DConversationId) (k : MessageCall) : M unit :=
  match k with
  | CallAppend message => appendMessage conversationId message
  | CallDelete messageId => deleteMessage conversationId messageId
  end.

(** The duplicates of a list of messages, the first one bearing the
    identifier of the n-th draw. *)
Fixpoint duplicates (n : nat) (messages : list DMessage) : list DMessage :=
  match messages with
  | [] => []
  | m :: rest =>
      DMessage.set_id (uuid_of "chat-dmessage" n) m :: duplicates (S n) rest
  end.

(** The events written since a state are all reports of errors. *)
Definition reports_only (s s' : Sys) : Prop :=
  chat s' = chat s
  /\ ticks (world s') = ticks (world s)
  /\ draws (world s') = draws (world s)
  /\ chatLLMId (world s') = chatLLMId (world s)
  /\ exists more,
       trace (world s') = (trace (world s) ++ more)%list
       /\ Forall (fun e => exists message, e = EvError message) more.

(** The state once some events have been written. *)
Definition traced (events : list Event) (s : Sys) : Sys :=
  mkSys (chat s)
    (mkWorld (ticks (world s)) (draws (world s)) (chatLLMId (world s))
       (trace (world s) ++ events)).

(** The events of [deleteConversations]: for each identifier named, the
    abort of the handle of the first conversation that bears it. *)
Definition aborts_of (conversationIds : list DConversationId)
    (conversations : list DConversation) : list Event :=
  flat_map
    (fun conversationId =>
       match find (fun _c => String.eqb (DConversation.id _c) conversationId)
                  conversations with
       | Some c =>
           match DConversation.abortController c with
           | Some controller => [EvAbort controller]
           | None => []
           end
       | None => []
       end)
    conversationIds.

(** The message that [editMessage] leaves in place of a message bearing
    the identifier: the patch is merged, the stamp (if any) is set, the
    pending mark is removed on request, and the count is derived anew
    unless the message is still pending. *)
Definition edited (llmId : option DLLMId) (p : DMessage.patch)
    (removePendingState : bool) (stamp : option Z) (m : DMessage)
    : DMessage :=
  let m1 := DMessage.merge m p in
  let m2 :=
    match stamp with
    | Some now => DMessage.set_updated (Some now) m1
    | None => m1
    end in
  let m3 :=
    if removePendingState then DMessage.set_pendingIncomplete None m2
    else m2 in
  if negb (truthyOB (DMessage.pendingIncomplete m3))
  then refresh llmId true "editMessage(incomplete=false)" m3
  else m3.

(** The patch of [replaceMessageFragment_update]. *)
Definition replaced (fragmentId : DMessageFragmentId)
    (newFragment : DMessageFragment) (message : DMessage) : DMessage.patch :=
  let fragmentIndex :=
    findIndex (fun f => eqOS (DMessageFragment.fId f) fragmentId)
              (DMessage.fragments message) in
  if (fragmentIndex <? 0)%Z then DMessage.emptyPatch
  else fragmentsPatch
         (mapi (fun fragment index =>
                  if (index =? fragmentIndex)%Z then newFragment
                  else fragment)
               (DMessage.fragments message)).

(** A fragment that [onRehydrateStorage] repairs: one without an
    identifier, a content fragment that is a placeholder, or a content
    fragment whose image names its asset under the former key. *)
Definition needs_repair (fragment : DMessageFragment) : bool :=
  negb (truthyOS (DMessageFragment.fId fragment))
  || (isContentFragment fragment
      && match DMessageFragment.part fragment with
         | PlaceholderPart _ => true
         | ImageRefPart (DataRefDblob _ (Some dblobId)) => truthyS dblobId
         | _ => false
         end).

(** * Properties *)

#[local] Arguments Z.add _ _ : simpl never.
#[local] Arguments Z.mul _ _ : simpl never.
#[local] Arguments String.append _ _ : simpl never.

(** ** Running the monad *)

Lemma bind_run {A B : Type} (c : M A) (k : A -> M B) (s : Sys) :
  bind c k s = k (fst (c s)) (snd (c s)).
Proof. unfold bind. destruct (c s); reflexivity. Qed.

Lemma liftW_run {A : Type} (c : World -> A * World) (s : Sys) :
  liftW c s = (fst (c (world s)), mkSys (chat s) (snd (c (world s)))).
Proof. unfold liftW. destruct (c (world s)); reflexivity. Qed.

(** Running a sequence of binds from the outside in. *)
Ltac run_bind := repeat (rewrite bind_run; cbv beta).

Lemma evolves_refl (s : Sys) : evolves s s.
Proof.
  unfold evolves. repeat split; auto.
  exists []. now rewrite app_nil_r.
Qed.

Lemma evolves_trans (s1 s2 s3 : Sys) :
  evolves s1 s2 -> evolves s2 s3 -> evolves s1 s3.
Proof.
  intros (L1 & T1 & D1 & m1 & E1) (L2 & T2 & D2 & m2 & E2).
  unfold evolves. repeat split; try lia; try congruence.
  exists (m1 ++ m2)%list. now rewrite E2, E1, app_assoc.
Qed.

Lemma evolves_emit (e : Event) (s : Sys) : evolves s (snd (emit e s)).
Proof.
  unfold emit, evolves. rewrite liftW_run. simpl. repeat split; auto.
  now exists [e].
Qed.

Lemma evolves_Date_now (s : Sys) : evolves s (snd (Date_now s)).
Proof.
  unfold Date_now, evolves. rewrite liftW_run. simpl. repeat split; auto.
  exists []. now rewrite app_nil_r.
Qed.

Lemma Date_now_run (s : Sys) :
  fst (Date_now s) = clock (ticks (world s))
  /\ ticks (world (snd (Date_now s))) = S (ticks (world s)).
Proof. unfold Date_now. rewrite liftW_run. simpl. auto. Qed.

Lemma getChatLLMId_run (s : Sys) :
  getChatLLMId s = (chatLLMId (world s), s).
Proof. unfold getChatLLMId. rewrite liftW_run. simpl. now destruct s. Qed.

(** ** Mapping with effects *)

(** A relation between inputs and outputs that may mention the states
    around the call, and is stable when the states are taken further
    apart, holds pointwise after [mapM]. *)
Lemma mapM_Forall2 {A B : Type} (f : A -> M B)
    (R : Sys -> Sys -> A -> B -> Prop) (l : list A) (s0 : Sys) :
  (forall x s, In x l -> evolves s0 s ->
     evolves s (snd (f x s)) /\ R s (snd (f x s)) x (fst (f x s))) ->
  (forall s1 s2 s1' s2' x y,
     evolves s1' s1 -> evolves s2 s2' -> R s1 s2 x y -> R s1' s2' x y) ->
  evolves s0 (snd (mapM f l s0))
  /\ Forall2 (R s0 (snd (mapM f l s0))) l (fst (mapM f l s0)).
Proof.
  intros Hf Hw. revert s0 Hf.
  induction l as [|x l IH]; intros s0 Hf; simpl.
  - split; [apply evolves_refl | constructor].
  - rewrite !bind_run. simpl.
    destruct (Hf x s0 (or_introl eq_refl) (evolves_refl s0)) as [E1 R1].
    destruct (IH (snd (f x s0))) as [E2 R2].
    { intros y s Hy Hs. apply Hf; [now right | eapply evolves_trans; eauto]. }
    split; [eapply evolves_trans; eauto|].
    constructor.
    + eapply Hw; [apply evolves_refl | exact E2 | exact R1].
    + eapply Forall2_impl; [|exact R2].
      intros a b Hab. eapply Hw; [exact E1 | apply evolves_refl | exact Hab].
Qed.

(** The same for a relation that does not mention the states. *)
Lemma mapM_Forall2_pure {A B : Type} (f : A -> M B) (R : A -> B -> Prop)
    (l : list A) (s : Sys) :
  (forall x s, In x l -> R x (fst (f x s))) ->
  Forall2 R l (fst (mapM f l s)).
Proof.
  revert s. induction l as [|x l IH]; intros s Hf; simpl.
  - constructor.
  - rewrite !bind_run. simpl. constructor.
    + apply Hf. now left.
    + apply IH. intros y s' Hy. apply Hf. now right.
Qed.

Lemma mapM_Forall {A B : Type} (f : A -> M B) (P : B -> Prop)
    (l : list A) (s : Sys) :
  (forall x s, P (fst (f x s))) -> Forall P (fst (mapM f l s)).
Proof.
  revert s. induction l as [|x l IH]; intros s Hf; simpl.
  - constructor.
  - rewrite !bind_run. simpl. constructor; [apply Hf | now apply IH].
Qed.

(** ** Array helpers *)

Lemma findIndex_not_found {A : Type} (p : A -> bool) (l : list A) :
  (forall x, In x l -> p x = false) -> (findIndex p l <? 0)%Z = true.
Proof.
  induction l as [|x l IH]; intros H; simpl; [reflexivity|].
  rewrite (H x (or_introl eq_refl)).
  rewrite IH by (intros y Hy; apply H; now right). reflexivity.
Qed.

Lemma filter_all {A : Type} (p : A -> bool) (l : list A) :
  (forall x, In x l -> p x = true) -> filter p l = l.
Proof.
  induction l as [|x l IH]; intros H; simpl; [reflexivity|].
  rewrite (H x (or_introl eq_refl)). f_equal. apply IH.
  intros y Hy. apply H. now right.
Qed.

(** ** The fold over the cached counts *)

Lemma orZ_zero (a : Z) : orZ a 0 = a.
Proof.
  unfold orZ, truthyZ. destruct (a =? 0)%Z eqn:E; simpl; [|reflexivity].
  apply Z.eqb_eq in E. now subst.
Qed.

Lemma reduceTokenCount_from (messages : list DMessage) (a : Z) :
  fold_left
    (fun sum message => orZ (sum + 4 + DMessage.tokenCount message) 0)
    messages a = a + sumTokens messages.
Proof.
  revert a. induction messages as [|m l IH]; intros a; simpl; [lia|].
  rewrite IH, orZ_zero. lia.
Qed.

Lemma reduceTokenCount_sum (messages : list DMessage) :
  reduceTokenCount messages = 3 + sumTokens messages.
Proof. apply reduceTokenCount_from. Qed.

(** ** Token accounting *)

Lemma logs_only_refl (s : Sys) : logs_only s s.
Proof.
  unfold logs_only. repeat split; auto. exists []. now rewrite app_nil_r.
Qed.

Lemma logs_only_trans (s1 s2 s3 : Sys) :
  logs_only s1 s2 -> logs_only s2 s3 -> logs_only s1 s3.
Proof.
  intros (C1 & T1 & D1 & L1 & m1 & E1) (C2 & T2 & D2 & L2 & m2 & E2).
  unfold logs_only. repeat split; try congruence.
  exists (m1 ++ m2)%list. now rewrite E2, E1, app_assoc.
Qed.

Lemma logs_only_evolves (s s' : Sys) : logs_only s s' -> evolves s s'.
Proof.
  intros (C & T & D & L & m & E). unfold evolves.
  repeat split; try lia; auto. now exists m.
Qed.

Lemma logs_only_emit (e : Event) (s : Sys) : logs_only s (snd (emit e s)).
Proof.
  unfold emit, logs_only. rewrite liftW_run. simpl. repeat split; auto.
  now exists [e].
Qed.

Lemma logs_only_abort (h : option AbortController) (s : Sys) :
  logs_only s (snd (abort h s)).
Proof.
  destruct h; simpl; [apply logs_only_emit | apply logs_only_refl].
Qed.

Lemma updateMessageTokenCount_value (message : DMessage)
    (llmId : option DLLMId) (forceUpdate : bool) (debugFrom : string)
    (s : Sys) :
  fst (updateMessageTokenCount message llmId forceUpdate debugFrom s)
  = (refresh llmId forceUpdate debugFrom message,
     DMessage.tokenCount (refresh llmId forceUpdate debugFrom message)).
Proof.
  unfold updateMessageTokenCount, refresh, recount.
  destruct (forceUpdate || negb (truthyZ (DMessage.tokenCount message)));
    [|reflexivity].
  destruct llmId as [id|]; [|reflexivity].
  destruct (truthyS id); [|reflexivity].
  destruct (findLLMOrThrow id) as [dllm|].
  - destruct (estimateTokensForFragments _ dllm false debugFrom);
      [reflexivity|].
    rewrite bind_run. reflexivity.
  - rewrite bind_run. reflexivity.
Qed.

Lemma updateMessageTokenCount_logs (message : DMessage)
    (llmId : option DLLMId) (forceUpdate : bool) (debugFrom : string)
    (s : Sys) :
  logs_only s (snd (updateMessageTokenCount message llmId forceUpdate debugFrom s)).
Proof.
  unfold updateMessageTokenCount.
  destruct (forceUpdate || negb (truthyZ (DMessage.tokenCount message)));
    [|apply logs_only_refl].
  destruct llmId as [id|]; [|apply logs_only_refl].
  destruct (truthyS id); [|apply logs_only_refl].
  destruct (findLLMOrThrow id) as [dllm|].
  - destruct (estimateTokensForFragments _ dllm false debugFrom);
      [apply logs_only_refl|].
    rewrite bind_run. apply logs_only_emit.
  - rewrite bind_run. apply logs_only_emit.
Qed.

Lemma updateMessagesTokenCounts_reduce_value (llmId : option DLLMId)
    (forceUpdate : bool) (debugFrom : string) (messages done : list DMessage)
    (sum : Z) (s : Sys) :
  fst (updateMessagesTokenCounts_reduce llmId forceUpdate debugFrom
         messages done sum s)
  = ((done ++ map (refresh llmId forceUpdate debugFrom) messages)%list,
     sum + sumTokens (map (refresh llmId forceUpdate debugFrom) messages)).
Proof.
  revert done sum s.
  induction messages as [|m l IH]; intros done sum s; simpl.
  - now rewrite app_nil_r, Z.add_0_r.
  - rewrite bind_run, updateMessageTokenCount_value.
    cbn [fst snd]. rewrite IH, <- app_assoc. simpl. f_equal. lia.
Qed.

Lemma updateMessagesTokenCounts_reduce_logs (llmId : option DLLMId)
    (forceUpdate : bool) (debugFrom : string) (messages done : list DMessage)
    (sum : Z) (s : Sys) :
  logs_only s
    (snd (updateMessagesTokenCounts_reduce llmId forceUpdate debugFrom
            messages done sum s)).
Proof.
  revert done sum s.
  induction messages as [|m l IH]; intros done sum s; simpl.
  - apply logs_only_refl.
  - rewrite bind_run, updateMessageTokenCount_value. cbn [fst snd].
    eapply logs_only_trans; [apply updateMessageTokenCount_logs | apply IH].
Qed.

Lemma updateMessagesTokenCounts_value (messages : list DMessage)
    (forceUpdate : bool) (debugFrom : string) (s : Sys) :
  fst (updateMessagesTokenCounts messages forceUpdate debugFrom s)
  = (map (refresh (chatLLMId (world s)) forceUpdate debugFrom) messages,
     3 + sumTokens
           (map (refresh (chatLLMId (world s)) forceUpdate debugFrom) messages)).
Proof.
  unfold updateMessagesTokenCounts.
  rewrite bind_run, getChatLLMId_run. cbn [fst snd].
  rewrite bind_run, updateMessagesTokenCounts_reduce_value. reflexivity.
Qed.

Lemma updateMessagesTokenCounts_logs (messages : list DMessage)
    (forceUpdate : bool) (debugFrom : string) (s : Sys) :
  logs_only s (snd (updateMessagesTokenCounts messages forceUpdate debugFrom s)).
Proof.
  unfold updateMessagesTokenCounts.
  rewrite bind_run, getChatLLMId_run. cbn [fst snd].
  rewrite bind_run, updateMessagesTokenCounts_reduce_value. cbn [fst snd].
  apply updateMessagesTokenCounts_reduce_logs.
Qed.

Lemma refresh_id llmId forceUpdate debugFrom (message : DMessage) :
  DMessage.id (refresh llmId forceUpdate debugFrom message)
  = DMessage.id message.
Proof. unfold refresh. now destruct (_ || _). Qed.

(** Bringing a message up to date twice is bringing it up to date once:
    visiting the same message again changes nothing. *)
Lemma refresh_idempotent llmId forceUpdate debugFrom (message : DMessage) :
  refresh llmId forceUpdate debugFrom
    (refresh llmId forceUpdate debugFrom message)
  = refresh llmId forceUpdate debugFrom message.
Proof.
  unfold refresh.
  destruct (forceUpdate || negb (truthyZ (DMessage.tokenCount message))) eqn:E.
  - cbn [DMessage.tokenCount DMessage.set_tokenCount].
    destruct (forceUpdate || negb (truthyZ (recount llmId debugFrom message)));
      reflexivity.
  - now rewrite E.
Qed.

(** C8.  The accounting rule of a message.  The count returned is the count
    left in the message, and nothing but the count changes.  The count is
    left alone, and the world with it, unless the update is forced or the
    cached count is falsy.  When it is recomputed: without a configured
    model it becomes 0 and nothing is reported; when the lookup of the model
    throws it becomes 0, the failure is written to the console and the call
    returns normally; otherwise it becomes the estimate.  With an estimator
    that returns no negative count, and a cached count that is not negative
    wherever it is reused, the resulting count is not negative. *)
Theorem updateMessageTokenCount_accounting
    (message : DMessage) (llmId : option DLLMId) (forceUpdate : bool)
    (debugFrom : string) (s : Sys)
    (Hestimator : forall fragments dllm full debug n,
        estimateTokensForFragments fragments dllm full debug = Some n ->
        0 <= n)
    (Hcached : forceUpdate = true \/ 0 <= DMessage.tokenCount message) :
  let r := updateMessageTokenCount message llmId forceUpdate debugFrom s in
  let message' := fst (fst r) in
  let n := snd (fst r) in
  let s' := snd r in
  n = DMessage.tokenCount message'
  /\ message' = DMessage.set_tokenCount n message
  /\ chat s' = chat s
  /\ (forceUpdate = false -> DMessage.tokenCount message <> 0 ->
      message' = message /\ s' = s)
  /\ (forceUpdate = true \/ DMessage.tokenCount message = 0 ->
      truthyOS llmId = false -> n = 0 /\ s' = s)
  /\ (forceUpdate = true \/ DMessage.tokenCount message = 0 ->
      forall id, llmId = Some id -> truthyS id = true ->
      findLLMOrThrow id = None ->
      n = 0
      /\ s' = mkSys (chat s)
                (mkWorld (ticks (world s)) (draws (world s))
                   (chatLLMId (world s))
                   (trace (world s) ++
                    [EvError ("updateMessageTokenCount: LLM not found for ID "
                              ++ id)])))
  /\ (forceUpdate = true \/ DMessage.tokenCount message = 0 ->
      forall id dllm k, llmId = Some id -> truthyS id = true ->
      findLLMOrThrow id = Some dllm ->
      estimateTokensForFragments (DMessage.fragments message) dllm false
        debugFrom = Some k ->
      n = k /\ s' = s)
  /\ 0 <= n.
Proof.
  intros r message' n s'.
  assert (Hforce : forceUpdate = true \/ DMessage.tokenCount message = 0 ->
                   forceUpdate || negb (truthyZ (DMessage.tokenCount message))
                   = true).
  { intros [->| ->]; [reflexivity | apply orb_true_r]. }
  assert (Hvalue := updateMessageTokenCount_value message llmId forceUpdate
                      debugFrom s).
  fold r in Hvalue.
  assert (Hm : message' = refresh llmId forceUpdate debugFrom message)
    by (unfold message'; now rewrite Hvalue).
  assert (Hn : n = DMessage.tokenCount message')
    by (unfold n, message'; now rewrite Hvalue).
  split; [exact Hn|].
  split.
  { rewrite Hn, Hm. unfold refresh. destruct (_ || _); now destruct message. }
  split; [apply (updateMessageTokenCount_logs message llmId forceUpdate debugFrom s)|].
  split.
  { intros -> Hnz. unfold message', s', r, updateMessageTokenCount, truthyZ.
    apply Z.eqb_neq in Hnz. rewrite Hnz. simpl. auto. }
  split.
  { intros Hf Hllm. apply Hforce in Hf.
    unfold n, s', r, updateMessageTokenCount. rewrite Hf.
    destruct llmId as [id|]; [|auto].
    simpl in Hllm. rewrite Hllm. auto. }
  split.
  { intros Hf id -> Hid Hfind. apply Hforce in Hf.
    unfold n, s', r, updateMessageTokenCount. rewrite Hf, Hid, Hfind.
    rewrite bind_run. unfold console_error, emit. rewrite liftW_run.
    simpl. auto. }
  split.
  { intros Hf id dllm k -> Hid Hfind Hest. apply Hforce in Hf.
    unfold n, s', r, updateMessageTokenCount. rewrite Hf, Hid, Hfind, Hest.
    simpl. auto. }
  rewrite Hn, Hm. unfold refresh.
  destruct (forceUpdate || negb (truthyZ (DMessage.tokenCount message))) eqn:E.
  - cbn [DMessage.tokenCount DMessage.set_tokenCount]. unfold recount.
    destruct llmId as [id|]; [|lia].
    destruct (truthyS id); [|lia].
    destruct (findLLMOrThrow id) as [dllm|]; [|lia].
    destruct (estimateTokensForFragments _ dllm false debugFrom) eqn:Hest;
      [|lia].
    eapply Hestimator; eauto.
  - destruct Hcached as [-> | Hc]; [discriminate | exact Hc].
Qed.

(** ** Editing a conversation *)

Lemma _editConversation_run (conversationId : DConversationId)
    (update : Update DConversation DConversation.patch) (s : Sys) :
  snd (_editConversation conversationId update s)
  = mkSys
      (mkChatState
         (fst (mapM (fun conversation =>
                       if String.eqb (DConversation.id conversation)
                                     conversationId
                       then p <- applyUpdate update conversation ;;
                            ret (DConversation.merge conversation p)
                       else ret conversation)
                    (conversations (chat s)) s)))
      (world
         (snd (mapM (fun conversation =>
                       if String.eqb (DConversation.id conversation)
                                     conversationId
                       then p <- applyUpdate update conversation ;;
                            ret (DConversation.merge conversation p)
                       else ret conversation)
                    (conversations (chat s)) s))).
Proof.
  unfold _editConversation. rewrite bind_run. unfold _get. cbn [fst snd].
  rewrite bind_run. reflexivity.
Qed.

(** What an edit does to the list: the conversations that do not bear the
    identifier are left as they are, the others are merged with the patch
    of the update. *)
Lemma _editConversation_Forall2 (conversationId : DConversationId)
    (update : Update DConversation DConversation.patch)
    (R : Sys -> Sys -> DConversation -> DConversation -> Prop) (s : Sys) :
  (forall c s1, In c (conversations (chat s)) ->
     DConversation.id c = conversationId -> evolves s s1 ->
     evolves s1 (snd (applyUpdate update c s1))
     /\ R s1 (snd (applyUpdate update c s1)) c
          (DConversation.merge c (fst (applyUpdate update c s1)))) ->
  (forall s1 s2 s1' s2' x y,
     evolves s1' s1 -> evolves s2 s2' -> R s1 s2 x y -> R s1' s2' x y) ->
  evolves s (snd (_editConversation conversationId update s))
  /\ Forall2
       (fun c c' =>
          if String.eqb (DConversation.id c) conversationId
          then R s (snd (_editConversation conversationId update s)) c c'
          else c' = c)
       (conversations (chat s))
       (conversations (chat (snd (_editConversation conversationId update s)))).
Proof.
  intros Hupdate Hwiden. rewrite _editConversation_run. cbn [chat conversations].
  match goal with |- context [mapM ?f _ _] => set (f0 := f) end.
  assert (Hf : forall c s1, In c (conversations (chat s)) -> evolves s s1 ->
            evolves s1 (snd (f0 c s1))
            /\ (if String.eqb (DConversation.id c) conversationId
                then R s1 (snd (f0 c s1)) c (fst (f0 c s1))
                else fst (f0 c s1) = c)).
  { intros c s1 Hin Hs1. unfold f0.
    destruct (String.eqb (DConversation.id c) conversationId) eqn:Hid.
    - apply String.eqb_eq in Hid. rewrite bind_run. cbn [ret fst snd].
      now apply Hupdate.
    - cbn [ret fst snd]. split; [apply evolves_refl | reflexivity]. }
  destruct (mapM_Forall2 f0
              (fun s1 s2 c c' =>
                 if String.eqb (DConversation.id c) conversationId
                 then R s1 s2 c c' else c' = c)
              (conversations (chat s)) s Hf) as [E F].
  { intros s1 s2 s1' s2' c c' E1 E2.
    destruct (String.eqb (DConversation.id c) conversationId); [|auto].
    now apply Hwiden. }
  split.
  - destruct E as (L & T & D & M'). unfold evolves. cbn [world]. auto.
  - eapply Forall2_impl; [|exact F]. intros c c' H. cbv beta in H |- *.
    destruct (String.eqb (DConversation.id c) conversationId); [|exact H].
    eapply Hwiden; [apply evolves_refl | | exact H].
    unfold evolves. cbn [world]. repeat split; auto.
    exists []. now rewrite app_nil_r.
Qed.

(** The same for a relation that does not mention the states. *)
Lemma _editConversation_Forall2_pure (conversationId : DConversationId)
    (update : Update DConversation DConversation.patch)
    (R : DConversation -> DConversation -> Prop) (s : Sys) :
  (forall c s1, In c (conversations (chat s)) ->
     DConversation.id c = conversationId ->
     R c (DConversation.merge c (fst (applyUpdate update c s1)))) ->
  Forall2
    (fun c c' =>
       if String.eqb (DConversation.id c) conversationId
       then R c c' else c' = c)
    (conversations (chat s))
    (conversations (chat (snd (_editConversation conversationId update s)))).
Proof.
  intros Hupdate. rewrite _editConversation_run. cbn [chat conversations].
  apply mapM_Forall2_pure. intros c s1 Hin.
  destruct (String.eqb (DConversation.id c) conversationId) eqn:Hid.
  - apply String.eqb_eq in Hid. rewrite bind_run. cbn [ret fst snd].
    now apply Hupdate.
  - reflexivity.
Qed.

Lemma Forall2_compose {A B C : Type} (R1 : A -> B -> Prop)
    (R2 : B -> C -> Prop) (l1 : list A) (l2 : list B) (l3 : list C) :
  Forall2 R1 l1 l2 -> Forall2 R2 l2 l3 ->
  Forall2 (fun a c => exists b, R1 a b /\ R2 b c) l1 l3.
Proof.
  intros H1. revert l3. induction H1 as [|a b l1 l2 Hab H1 IH]; intros l3 H2.
  - inversion H2. constructor.
  - inversion H2 as [|b' c l2' l3' Hbc H2']; subst.
    constructor; [now exists b | now apply IH].
Qed.

Lemma Forall2_In_r {A B : Type} {R : A -> B -> Prop}
    {l1 : list A} {l2 : list B} {b : B} :
  Forall2 R l1 l2 -> In b l2 -> exists a, In a l1 /\ R a b.
Proof.
  intros H. induction H as [|x y l1 l2 Hxy H IH]; intros Hin.
  - destruct Hin.
  - destruct Hin as [<- | Hin].
    + exists x. split; [now left | exact Hxy].
    + destruct (IH Hin) as (a & Ha & Hab). exists a. split; [now right | exact Hab].
Qed.

Lemma Forall2_impl_In {A B : Type} (R R' : A -> B -> Prop)
    (l1 : list A) (l2 : list B) :
  (forall a b, In a l1 -> R a b -> R' a b) ->
  Forall2 R l1 l2 -> Forall2 R' l1 l2.
Proof.
  intros Himpl H. induction H as [|x y l1 l2 Hxy H IH]; constructor.
  - apply Himpl; [now left | exact Hxy].
  - apply IH. intros a b Ha. apply Himpl. now right.
Qed.

(** The patches of [appendMessage] and [deleteMessage]. *)

Lemma appendMessage_patch (message : DMessage) (c : DConversation) (s1 : Sys) :
  let message' :=
    if negb (truthyOB (DMessage.pendingIncomplete message))
    then refresh (chatLLMId (world s1)) true "appendMessage" message
    else message in
  DConversation.merge c (fst (appendMessage_update message c s1))
  = DConversation.mk (DConversation.id c)
      (DConversation.messages c ++ [message'])
      (DConversation.systemPurposeId c) (DConversation.userTitle c)
      (DConversation.autoTitle c) (DConversation.userSymbol c)
      (reduceTokenCount (DConversation.messages c ++ [message']))
      (DConversation.created c)
      (Some (clock (ticks (world s1))))
      (DConversation.abortController c)
  /\ evolves s1 (snd (appendMessage_update message c s1))
  /\ ticks (world (snd (appendMessage_update message c s1)))
     = S (ticks (world s1)).
Proof.
  intros message'. unfold appendMessage_update, message'.
  destruct (negb (truthyOB (DMessage.pendingIncomplete message))).
  - run_bind. rewrite updateMessagesTokenCounts_value. cbv iota beta.
    run_bind. cbn [fst snd ret map].
    assert (L := updateMessagesTokenCounts_logs [message] true
                   "appendMessage" s1).
    set (s2 := snd (updateMessagesTokenCounts [message] true
                      "appendMessage" s1)) in *.
    destruct (Date_now_run s2) as [N T]. rewrite N.
    pose proof L as (_ & T' & _).
    rewrite T'. split; [reflexivity | split].
    + eapply evolves_trans;
        [apply logs_only_evolves; exact L | apply evolves_Date_now].
    + now rewrite T, T'.
  - run_bind. cbn [ret fst snd]. destruct (Date_now_run s1) as [N T].
    rewrite N. split; [reflexivity | split];
      [apply evolves_Date_now | exact T].
Qed.

Lemma deleteMessage_patch (messageId : DMessageId) (c : DConversation)
    (s1 : Sys) :
  let kept :=
    filter (fun message => negb (String.eqb (DMessage.id message) messageId))
           (DConversation.messages c) in
  DConversation.merge c (fst (deleteMessage_update messageId c s1))
  = DConversation.mk (DConversation.id c) kept
      (DConversation.systemPurposeId c) (DConversation.userTitle c)
      (DConversation.autoTitle c) (DConversation.userSymbol c)
      (reduceTokenCount kept)
      (DConversation.created c)
      (Some (clock (ticks (world s1))))
      (DConversation.abortController c)
  /\ evolves s1 (snd (deleteMessage_update messageId c s1))
  /\ ticks (world (snd (deleteMessage_update messageId c s1)))
     = S (ticks (world s1)).
Proof.
  intros kept. unfold deleteMessage_update, kept.
  run_bind. destruct (Date_now_run s1) as [N T].
  cbn [ret fst snd]. rewrite N. split; [reflexivity | split];
    [apply evolves_Date_now | exact T].
Qed.

(** ** Appending and deleting messages *)

Lemma forEachM_app {A : Type} (f : A -> M unit) (l1 l2 : list A) (s : Sys) :
  snd (forEachM f (l1 ++ l2) s) = snd (forEachM f l2 (snd (forEachM f l1 s))).
Proof.
  revert s. induction l1 as [|x l IH]; intros s; simpl; [reflexivity|].
  run_bind. apply IH.
Qed.

(** C2.  The fold invariant.  Whatever the store and the world, and
    whatever calls of appendMessage and deleteMessage came before on the
    conversation, immediately after one more such call every conversation
    bearing the identifier has a tokenCount of 3 plus the sum over its
    messages of 4 plus the message's tokenCount. *)
Theorem appendMessage_deleteMessage_fold_invariant
    (conversationId : DConversationId) (before : list MessageCall)
    (k : MessageCall) (s : Sys) :
  Forall
    (fun c =>
       DConversation.id c = conversationId ->
       DConversation.tokenCount c = 3 + sumTokens (DConversation.messages c))
    (conversations
       (chat (snd (forEachM (call conversationId) (before ++ [k]) s)))).
Proof.
  rewrite forEachM_app. set (s0 := snd (forEachM _ before s)).
  cbn [forEachM]. run_bind. cbn [ret snd].
  assert (H : Forall2
            (fun c c' =>
               if String.eqb (DConversation.id c) conversationId
               then DConversation.id c' = conversationId
                    /\ DConversation.tokenCount c'
                       = reduceTokenCount (DConversation.messages c')
               else c' = c)
            (conversations (chat s0))
            (conversations (chat (snd (call conversationId k s0))))).
  { destruct k as [message | messageId]; cbn [call];
      apply _editConversation_Forall2_pure; intros c s1 Hin Hid;
      cbn [applyUpdate].
    - destruct (appendMessage_patch message c s1) as [-> _].
      cbn [DConversation.id DConversation.tokenCount DConversation.messages].
      auto.
    - destruct (deleteMessage_patch messageId c s1) as [-> _].
      cbn [DConversation.id DConversation.tokenCount DConversation.messages].
      auto. }
  apply Forall_forall. intros c' Hin' Hid'.
  destruct (Forall2_In_r H Hin') as (c & Hin & Hc).
  destruct (String.eqb (DConversation.id c) conversationId) eqn:E.
  - destruct Hc as [_ ->]. apply reduceTokenCount_sum.
  - subst c'. apply String.eqb_neq in E. contradiction.
Qed.

(** C10.  Deleting a message that the conversation does not hold.  Every
    conversation bearing the identifier keeps its message list, and all its
    other fields but two: its [updated] stamp becomes a reading of the clock
    taken during the call, and its tokenCount becomes the fold over the
    cached counts of its messages, 3 plus the sum of 4 plus each count.  The
    other conversations are left as they are. *)
Theorem deleteMessage_unknown_message
    (conversationId : DConversationId) (messageId : DMessageId) (s : Sys)
    (Hunknown : forall c m,
        In c (conversations (chat s)) ->
        DConversation.id c = conversationId ->
        In m (DConversation.messages c) ->
        DMessage.id m <> messageId) :
  let s' := snd (deleteMessage conversationId messageId s) in
  Forall2
    (fun c c' =>
       if String.eqb (DConversation.id c) conversationId
       then
         exists t,
           (ticks (world s) <= t < ticks (world s'))%nat
           /\ c' = DConversation.mk (DConversation.id c)
                     (DConversation.messages c)
                     (DConversation.systemPurposeId c)
                     (DConversation.userTitle c)
                     (DConversation.autoTitle c)
                     (DConversation.userSymbol c)
                     (reduceTokenCount (DConversation.messages c))
                     (DConversation.created c)
                     (Some (clock t))
                     (DConversation.abortController c)
           /\ DConversation.tokenCount c'
              = 3 + sumTokens (DConversation.messages c)
       else c' = c)
    (conversations (chat s)) (conversations (chat s')).
Proof.
  intros s'. unfold s', deleteMessage.
  apply (_editConversation_Forall2 conversationId _
           (fun s1 s2 c c' =>
              exists t,
                (ticks (world s1) <= t < ticks (world s2))%nat
                /\ c' = DConversation.mk (DConversation.id c)
                          (DConversation.messages c)
                          (DConversation.systemPurposeId c)
                          (DConversation.userTitle c)
                          (DConversation.autoTitle c)
                          (DConversation.userSymbol c)
                          (reduceTokenCount (DConversation.messages c))
                          (DConversation.created c)
                          (Some (clock t))
                          (DConversation.abortController c)
                /\ DConversation.tokenCount c'
                   = 3 + sumTokens (DConversation.messages c))).
  - intros c s1 Hin Hid Hs1. cbn [applyUpdate].
    destruct (deleteMessage_patch messageId c s1) as (Hc & He & Ht).
    split; [exact He|].
    exists (ticks (world s1)). rewrite Ht, Hc.
    rewrite filter_all.
    + split; [lia|]. split; [reflexivity|].
      cbn [DConversation.tokenCount]. apply reduceTokenCount_sum.
    + intros m Hm. apply negb_true_iff, String.eqb_neq. eauto.
  - intros s1 s2 s1' s2' c c' (_ & T1 & _) (_ & T2 & _) (t & Ht & Hc).
    exists t. split; [lia | exact Hc].
Qed.

(** C3, as the store has it.  Appending a message whose identifier the
    conversation does not hold yet, then deleting it by that identifier,
    gives back the message list.  The tokenCount that results is the fold
    over the cached counts of these messages, 3 plus the sum of 4 plus each
    count: it is the count the conversation had before exactly when that
    count was the value of the fold.  The other conversations are left as
    they are. *)
Theorem appendMessage_then_deleteMessage
    (conversationId : DConversationId) (message : DMessage) (s : Sys)
    (Hfresh : forall c m,
        In c (conversations (chat s)) ->
        DConversation.id c = conversationId ->
        In m (DConversation.messages c) ->
        DMessage.id m <> DMessage.id message) :
  let s' :=
    snd (deleteMessage conversationId (DMessage.id message)
           (snd (appendMessage conversationId message s))) in
  Forall2
    (fun c c' =>
       if String.eqb (DConversation.id c) conversationId
       then
         DConversation.messages c' = DConversation.messages c
         /\ DConversation.tokenCount c'
            = 3 + sumTokens (DConversation.messages c)
         /\ (DConversation.tokenCount c' = DConversation.tokenCount c
             <-> DConversation.tokenCount c
                 = 3 + sumTokens (DConversation.messages c))
       else c' = c)
    (conversations (chat s)) (conversations (chat s')).
Proof.
  intros s'. unfold s'. set (s1 := snd (appendMessage conversationId message s)).
  assert (H1 : Forall2
            (fun c c1 =>
               if String.eqb (DConversation.id c) conversationId
               then DConversation.id c1 = DConversation.id c
                    /\ exists message',
                         DMessage.id message' = DMessage.id message
                         /\ DConversation.messages c1
                            = (DConversation.messages c ++ [message'])%list
               else c1 = c)
            (conversations (chat s)) (conversations (chat s1))).
  { apply _editConversation_Forall2_pure. intros c s0 Hin Hid.
    cbn [applyUpdate].
    destruct (appendMessage_patch message c s0) as [-> _].
    cbn [DConversation.id DConversation.messages]. split; [reflexivity|].
    eexists. split; [|reflexivity].
    destruct (negb _); [apply refresh_id | reflexivity]. }
  assert (H2 : Forall2
            (fun c1 c' =>
               if String.eqb (DConversation.id c1) conversationId
               then
                 DConversation.messages c'
                 = filter (fun m => negb (String.eqb (DMessage.id m)
                                                     (DMessage.id message)))
                          (DConversation.messages c1)
                 /\ DConversation.tokenCount c'
                    = reduceTokenCount (DConversation.messages c')
               else c' = c1)
            (conversations (chat s1))
            (conversations
               (chat (snd (deleteMessage conversationId
                             (DMessage.id message) s1))))).
  { apply _editConversation_Forall2_pure. intros c s0 Hin Hid.
    cbn [applyUpdate].
    destruct (deleteMessage_patch (DMessage.id message) c s0) as [-> _].
    cbn [DConversation.tokenCount DConversation.messages]. auto. }
  assert (H := Forall2_compose _ _ _ _ _ H1 H2).
  eapply Forall2_impl_In; [|exact H].
  cbv beta. intros c c' Hin (c1 & Hc1 & Hc').
  destruct (String.eqb (DConversation.id c) conversationId) eqn:E.
  - destruct Hc1 as (Hid1 & message' & Hm & Hmsgs).
    rewrite Hid1, E in Hc'. destruct Hc' as [Hkept Hcount].
    apply String.eqb_eq in E.
    assert (K : DConversation.messages c' = DConversation.messages c).
    { rewrite Hkept, Hmsgs, filter_app. cbn [filter].
      rewrite Hm, String.eqb_refl. cbn [negb]. rewrite app_nil_r.
      apply filter_all. intros m Hin'.
      apply negb_true_iff, String.eqb_neq. eauto. }
    split; [exact K|].
    assert (C : DConversation.tokenCount c'
                = 3 + sumTokens (DConversation.messages c))
      by (now rewrite Hcount, K, reduceTokenCount_sum).
    split; [exact C|]. rewrite C. split; intros; lia.
  - subst c1. rewrite E in Hc'. exact Hc'.
Qed.

(** ** Replacing the messages *)

Lemma Forall2_map_right {A B : Type} (R : A -> B -> Prop) (f : A -> B)
    (l : list A) :
  (forall a, R a (f a)) -> Forall2 R l (map f l).
Proof. intros H. induction l; simpl; constructor; auto. Qed.

Lemma setMessages_patch (newMessages : list DMessage) (c : DConversation)
    (s1 : Sys) :
  let messages' :=
    map (refresh (chatLLMId (world s1)) false "setMessages") newMessages in
  DConversation.merge c (fst (setMessages_update newMessages c s1))
  = DConversation.mk (DConversation.id c) messages'
      (DConversation.systemPurposeId c) (DConversation.userTitle c)
      (if negb (List.length newMessages =? 0)%nat
       then DConversation.autoTitle c else None)
      (DConversation.userSymbol c)
      (3 + sumTokens messages')
      (DConversation.created c)
      (Some (clock (ticks (world s1))))
      None
  /\ evolves s1 (snd (setMessages_update newMessages c s1))
  /\ ticks (world (snd (setMessages_update newMessages c s1)))
     = S (ticks (world s1)).
Proof.
  intros messages'. unfold setMessages_update, messages'. run_bind.
  assert (La := logs_only_abort (DConversation.abortController c) s1).
  set (s2 := snd (abort (DConversation.abortController c) s1)) in *.
  rewrite updateMessagesTokenCounts_value. cbv iota beta. run_bind.
  assert (Lu := updateMessagesTokenCounts_logs newMessages false
                  "setMessages" s2).
  set (s3 := snd (updateMessagesTokenCounts newMessages false
                    "setMessages" s2)) in *.
  destruct (Date_now_run s3) as [N T]. cbn [ret fst snd]. rewrite N.
  pose proof (logs_only_trans _ _ _ La Lu) as L.
  pose proof L as (_ & T' & _). pose proof La as (_ & _ & _ & Llm & _).
  rewrite T', Llm. split; [|split].
  - unfold DConversation.merge. cbn [DMessage.or_else
      DConversation.p_messages DConversation.p_systemPurposeId
      DConversation.p_userTitle DConversation.p_autoTitle
      DConversation.p_userSymbol DConversation.p_tokenCount
      DConversation.p_updated DConversation.p_abortController].
    destruct (negb (List.length newMessages =? 0)%nat); reflexivity.
  - eapply evolves_trans;
      [apply logs_only_evolves; exact L | apply evolves_Date_now].
  - now rewrite T, T'.
Qed.

(** C1, as the store has it.  setMessages gives every conversation bearing
    the identifier the new list, brought up to date without forcing: a
    message whose cached count is not 0 is taken as it is, and only a
    message whose cached count is 0 has its count derived anew (the estimate
    under the configured model, or 0).  The tokenCount of the conversation
    is 3 plus the sum over these messages of 4 plus the message's count.
    The automatic title is cleared when the list is empty, the handle is
    cleared, and [updated] is a reading of the clock taken during the
    call.  The other conversations are left as they are. *)
Theorem setMessages_token_counts
    (conversationId : DConversationId) (newMessages : list DMessage)
    (s : Sys) :
  let s' := snd (setMessages conversationId newMessages s) in
  let llmId := chatLLMId (world s) in
  Forall2
    (fun c c' =>
       if String.eqb (DConversation.id c) conversationId
       then
         Forall2
           (fun m m' =>
              (DMessage.tokenCount m <> 0 -> m' = m)
              /\ (DMessage.tokenCount m = 0 ->
                  m' = DMessage.set_tokenCount
                         (recount llmId "setMessages" m) m))
           newMessages (DConversation.messages c')
         /\ DConversation.tokenCount c'
            = 3 + sumTokens (DConversation.messages c')
         /\ exists t,
              (ticks (world s) <= t < ticks (world s'))%nat
              /\ c' = DConversation.mk (DConversation.id c)
                        (DConversation.messages c')
                        (DConversation.systemPurposeId c)
                        (DConversation.userTitle c)
                        (if negb (List.length newMessages =? 0)%nat
                         then DConversation.autoTitle c else None)
                        (DConversation.userSymbol c)
                        (DConversation.tokenCount c')
                        (DConversation.created c)
                        (Some (clock t))
                        None
       else c' = c)
    (conversations (chat s)) (conversations (chat s')).
Proof.
  intros s' llmId. unfold s', setMessages.
  apply (_editConversation_Forall2 conversationId _
           (fun s1 s2 c c' =>
              Forall2
                (fun m m' =>
                   (DMessage.tokenCount m <> 0 -> m' = m)
                   /\ (DMessage.tokenCount m = 0 ->
                       m' = DMessage.set_tokenCount
                              (recount llmId "setMessages" m) m))
                newMessages (DConversation.messages c')
              /\ DConversation.tokenCount c'
                 = 3 + sumTokens (DConversation.messages c')
              /\ exists t,
                   (ticks (world s1) <= t < ticks (world s2))%nat
                   /\ c' = DConversation.mk (DConversation.id c)
                             (DConversation.messages c')
                             (DConversation.systemPurposeId c)
                             (DConversation.userTitle c)
                             (if negb (List.length newMessages =? 0)%nat
                              then DConversation.autoTitle c else None)
                             (DConversation.userSymbol c)
                             (DConversation.tokenCount c')
                             (DConversation.created c)
                             (Some (clock t))
                             None)).
  - intros c s1 Hin Hid (Hllm & _). cbn [applyUpdate].
    destruct (setMessages_patch newMessages c s1) as (Hc & He & Ht).
    split; [exact He|]. rewrite Hc, Ht, Hllm. fold llmId.
    cbn [DConversation.messages DConversation.tokenCount].
    split; [|split; [reflexivity|]].
    + apply Forall2_map_right. intros m. unfold refresh, truthyZ.
      cbn [orb]. destruct (DMessage.tokenCount m =? 0)%Z eqn:E; cbn [negb].
      * apply Z.eqb_eq in E. split; [intros; contradiction | reflexivity].
      * apply Z.eqb_neq in E. split; [reflexivity | intros; contradiction].
    + exists (ticks (world s1)). split; [lia | reflexivity].
  - intros s1 s2 s1' s2' c c' (_ & T1 & _) (_ & T2 & _) (Hm & Hc & t & Ht & Hr).
    split; [exact Hm|]. split; [exact Hc|].
    exists t. split; [lia | exact Hr].
Qed.

(** ** Deleting conversations *)

Lemma forEachM_logs {A : Type} (f : A -> M unit) (l : list A) (s : Sys) :
  (forall x s1, logs_only s1 (snd (f x s1))) ->
  logs_only s (snd (forEachM f l s)).
Proof.
  intros Hf. revert s. induction l as [|x l IH]; intros s; simpl.
  - apply logs_only_refl.
  - run_bind. eapply logs_only_trans; [apply Hf | apply IH].
Qed.

(** C4.  After deleteConversations the list is not empty: it is the list
    of the conversations that were not named, when there is one, and
    otherwise a single conversation made by createDConversation with the
    persona handed in.  The identifier returned is that of a conversation
    of the new list. *)
Theorem deleteConversations_never_empty
    (conversationIds : list DConversationId)
    (newConversationPersonaId : option SystemPurposeId) (s : Sys) :
  let r := deleteConversations conversationIds newConversationPersonaId s in
  let remaining :=
    filter (fun _c => negb (includes conversationIds (DConversation.id _c)))
           (conversations (chat s)) in
  (exists first others,
      conversations (chat (snd r)) = first :: others)
  /\ (remaining <> [] -> conversations (chat (snd r)) = remaining)
  /\ (remaining = [] ->
      exists w,
        logs_only s (mkSys (chat s) w)
        /\ conversations (chat (snd r))
           = [fst (createDConversation newConversationPersonaId w)])
  /\ (exists c,
        In c (conversations (chat (snd r)))
        /\ fst r = Some (DConversation.id c)).
Proof.
  intros r remaining. unfold r, deleteConversations. run_bind.
  unfold _get. cbn [fst snd]. run_bind.
  match goal with |- context [forEachM ?f conversationIds s] =>
    set (aborts := f) end.
  assert (L : logs_only s (snd (forEachM aborts conversationIds s))).
  { apply forEachM_logs. intros x s1. unfold aborts.
    destruct (find _ _); [apply logs_only_abort | apply logs_only_refl]. }
  set (s1 := snd (forEachM aborts conversationIds s)) in *.
  fold remaining.
  set (cIndex := match conversationIds with
                 | [] => -1
                 | first :: _ => findIndex _ (conversations (chat s))
                 end).
  assert (Hat : forall l : list DConversation, l <> [] ->
            exists c, In c l
              /\ id_at l (if (0 <=? cIndex)%Z
                             && (cIndex <? Z.of_nat (List.length l))%Z
                          then cIndex else 0)
                 = Some (DConversation.id c)).
  { intros l Hl. unfold id_at.
    destruct ((0 <=? cIndex)%Z && (cIndex <? Z.of_nat (List.length l))%Z) eqn:E.
    - apply andb_true_iff in E. destruct E as [E1 E2].
      apply Z.leb_le in E1. apply Z.ltb_lt in E2.
      destruct (nth_error l (Z.to_nat cIndex)) as [c|] eqn:N.
      + exists c. split; [eapply nth_error_In; eauto | reflexivity].
      + apply nth_error_None in N. lia.
    - destruct l as [|c l]; [contradiction|].
      exists c. split; [now left | reflexivity]. }
  destruct remaining as [|c0 rest] eqn:Hrem.
  - cbn [List.length Nat.eqb app]. run_bind. rewrite liftW_run.
    cbn [ret fst snd _set chat conversations].
    split; [eauto|]. split; [intros H; contradiction|].
    split.
    + intros _. exists (world s1). split; [|reflexivity].
      destruct L as (C & T & D & Llm & m & E). unfold logs_only.
      cbn [chat world]. repeat split; auto. now exists m.
    + apply Hat. discriminate.
  - cbn [List.length Nat.eqb]. run_bind.
    cbn [ret fst snd _set chat conversations].
    split; [eauto|]. split; [reflexivity|].
    split; [intros H; discriminate|].
    apply Hat. discriminate.
Qed.

(** ** Replacing a fragment *)

Lemma merge_emptyPatch (m : DMessage) : DMessage.merge m DMessage.emptyPatch = m.
Proof. now destruct m. Qed.

Lemma refresh_frame llmId forceUpdate debugFrom (m : DMessage) :
  DMessage.fragments (refresh llmId forceUpdate debugFrom m)
  = DMessage.fragments m
  /\ DMessage.updated (refresh llmId forceUpdate debugFrom m)
     = DMessage.updated m.
Proof. unfold refresh. destruct (_ || _); auto. Qed.

(** What the callback of [editMessage] does to a message when the update
    is that of [replaceMessageFragment] and the fragment is not found. *)
Lemma editMessage_map_not_found (messageId : DMessageId)
    (fragmentId : DMessageFragmentId) (newFragment : DMessageFragment)
    (removePendingState touchUpdated : bool) (m : DMessage) (s1 : Sys) :
  (DMessage.id m = messageId ->
   forall f, In f (DMessage.fragments m) ->
             eqOS (DMessageFragment.fId f) fragmentId = false) ->
  let r :=
    editMessage_map messageId
      (PatchFn (replaceMessageFragment_update fragmentId newFragment))
      removePendingState touchUpdated m s1 in
  evolves s1 (snd r)
  /\ (if String.eqb (DMessage.id m) messageId
      then
        DMessage.fragments (fst r) = DMessage.fragments m
        /\ DMessage.id (fst r) = DMessage.id m
        /\ (if touchUpdated
            then exists t,
                   (ticks (world s1) <= t < ticks (world (snd r)))%nat
                   /\ DMessage.updated (fst r) = Some (clock t)
            else DMessage.updated (fst r) = DMessage.updated m)
      else fst r = m).
Proof.
  intros Hmissing r. unfold r, editMessage_map.
  destruct (String.eqb (DMessage.id m) messageId) eqn:Hid; cbn [negb].
  2: { cbn [ret fst snd]. split; [apply evolves_refl | reflexivity]. }
  apply String.eqb_eq in Hid. specialize (Hmissing Hid).
  run_bind. cbn [applyUpdate].
  assert (Hupd : replaceMessageFragment_update fragmentId newFragment m s1
                 = (DMessage.emptyPatch,
                    snd (emit (EvError
                                 ("replaceFragment: fragment not found for ID "
                                  ++ fragmentId)) s1))).
  { unfold replaceMessageFragment_update.
    rewrite (findIndex_not_found _ _ Hmissing). run_bind. reflexivity. }
  rewrite Hupd. cbn [fst snd].
  assert (L0 := logs_only_emit
                  (EvError ("replaceFragment: fragment not found for ID "
                            ++ fragmentId)) s1).
  set (s2 := snd (emit _ s1)) in *.
  rewrite merge_emptyPatch.
  set (stamp := if touchUpdated
                then (now <- Date_now ;; ret (DMessage.set_updated (Some now) m))
                else ret m).
  assert (Hstamp :
            evolves s2 (snd (stamp s2))
            /\ DMessage.fragments (fst (stamp s2)) = DMessage.fragments m
            /\ DMessage.id (fst (stamp s2)) = DMessage.id m
            /\ (if touchUpdated
                then ticks (world (snd (stamp s2))) = S (ticks (world s2))
                     /\ DMessage.updated (fst (stamp s2))
                        = Some (clock (ticks (world s2)))
                else DMessage.updated (fst (stamp s2)) = DMessage.updated m)).
  { unfold stamp. destruct touchUpdated.
    - run_bind. destruct (Date_now_run s2) as [N T]. cbn [ret fst snd].
      rewrite N. cbn [DMessage.fragments DMessage.id DMessage.updated
                      DMessage.set_updated].
      split; [apply evolves_Date_now | auto].
    - cbn [ret fst snd]. split; [apply evolves_refl | auto]. }
  destruct Hstamp as (E3 & F3 & I3 & U3).
  set (m3 := fst (stamp s2)) in *. set (s3 := snd (stamp s2)) in *.
  set (m4 := if removePendingState
             then DMessage.set_pendingIncomplete None m3 else m3).
  assert (H4 : DMessage.fragments m4 = DMessage.fragments m
               /\ DMessage.id m4 = DMessage.id m
               /\ DMessage.updated m4 = DMessage.updated m3).
  { unfold m4. destruct removePendingState; auto. }
  destruct H4 as (F4 & I4 & U4).
  assert (Hfinal :
            forall rr : DMessage * Sys,
              evolves s3 (snd rr) ->
              ticks (world (snd rr)) = ticks (world s3) ->
              DMessage.fragments (fst rr) = DMessage.fragments m4 ->
              DMessage.id (fst rr) = DMessage.id m4 ->
              DMessage.updated (fst rr) = DMessage.updated m4 ->
              evolves s1 (snd rr)
              /\ DMessage.fragments (fst rr) = DMessage.fragments m
              /\ DMessage.id (fst rr) = DMessage.id m
              /\ (if touchUpdated
                  then exists t,
                         (ticks (world s1) <= t < ticks (world (snd rr)))%nat
                         /\ DMessage.updated (fst rr) = Some (clock t)
                  else DMessage.updated (fst rr) = DMessage.updated m)).
  { intros rr Er Tr Fr Ir Ur.
    pose proof L0 as (_ & T0 & _).
    split.
    { eapply evolves_trans; [apply logs_only_evolves; exact L0|].
      eapply evolves_trans; [exact E3 | exact Er]. }
    split; [congruence|]. split; [congruence|].
    destruct touchUpdated.
    - destruct U3 as [T3 U3]. exists (ticks (world s2)).
      split; [lia | congruence].
    - congruence. }
  destruct (negb (truthyOB (DMessage.pendingIncomplete m4))).
  - run_bind. rewrite getChatLLMId_run. cbn [fst snd].
    rewrite updateMessageTokenCount_value. cbv iota beta. cbn [ret fst snd].
    assert (Lu := updateMessageTokenCount_logs m4 (chatLLMId (world s3)) true
                    "editMessage(incomplete=false)" s3).
    destruct (refresh_frame (chatLLMId (world s3)) true
                "editMessage(incomplete=false)" m4) as [Fr Ur].
    apply (Hfinal (_, _)); cbn [fst snd];
      [apply logs_only_evolves; exact Lu
      | now destruct Lu as (_ & T & _)
      | exact Fr | reflexivity | exact Ur].
  - apply (Hfinal (m4, s3)); cbn [fst snd]; auto using evolves_refl.
Qed.

Lemma editMessage_patch (messageId : DMessageId)
    (update : Update DMessage DMessage.patch)
    (removePendingState touchUpdated : bool) (c : DConversation) (s1 : Sys) :
  let mapped :=
    mapM (editMessage_map messageId update removePendingState touchUpdated)
         (DConversation.messages c) s1 in
  DConversation.messages
    (DConversation.merge c
       (fst (editMessage_update messageId update removePendingState
               touchUpdated c s1)))
  = fst mapped
  /\ evolves (snd mapped)
       (snd (editMessage_update messageId update removePendingState
               touchUpdated c s1)).
Proof.
  intros mapped. unfold editMessage_update. run_bind. fold mapped.
  destruct touchUpdated.
  - run_bind. cbn [ret fst snd]. split; [reflexivity|].
    apply evolves_Date_now.
  - cbn [ret fst snd]. split; [reflexivity | apply evolves_refl].
Qed.

Lemma eqOS_false (a : option string) (b : string) :
  a <> Some b -> eqOS a b = false.
Proof.
  intros H. destruct a as [x|]; [|reflexivity]. simpl.
  apply String.eqb_neq. congruence.
Qed.

(** C5.  replaceMessageFragment with a fragment identifier that the
    message does not hold.  In every conversation bearing the conversation
    identifier, every message bearing the message identifier keeps its
    fragment list as it is; its [updated] stamp is left as it is when
    touchUpdated is false, and is a reading of the clock taken during the
    call when touchUpdated is true.  The other messages and the other
    conversations are left as they are. *)
Theorem replaceMessageFragment_unknown_fragment
    (conversationId : DConversationId) (messageId : DMessageId)
    (fragmentId : DMessageFragmentId) (newFragment : DMessageFragment)
    (removePendingState touchUpdated : bool) (s : Sys)
    (Hmissing : forall c m f,
        In c (conversations (chat s)) ->
        DConversation.id c = conversationId ->
        In m (DConversation.messages c) ->
        DMessage.id m = messageId ->
        In f (DMessage.fragments m) ->
        DMessageFragment.fId f <> Some fragmentId) :
  let s' :=
    snd (replaceMessageFragment conversationId messageId fragmentId
           newFragment removePendingState touchUpdated s) in
  Forall2
    (fun c c' =>
       if String.eqb (DConversation.id c) conversationId
       then
         Forall2
           (fun m m' =>
              if String.eqb (DMessage.id m) messageId
              then
                DMessage.fragments m' = DMessage.fragments m
                /\ DMessage.id m' = DMessage.id m
                /\ (if touchUpdated
                    then exists t,
                           (ticks (world s) <= t < ticks (world s'))%nat
                           /\ DMessage.updated m' = Some (clock t)
                    else DMessage.updated m' = DMessage.updated m)
              else m' = m)
           (DConversation.messages c) (DConversation.messages c')
       else c' = c)
    (conversations (chat s)) (conversations (chat s')).
Proof.
  intros s'. unfold s', replaceMessageFragment, editMessage.
  set (Rm := fun (s1 s2 : Sys) (m m' : DMessage) =>
               if String.eqb (DMessage.id m) messageId
               then
                 DMessage.fragments m' = DMessage.fragments m
                 /\ DMessage.id m' = DMessage.id m
                 /\ (if touchUpdated
                     then exists t,
                            (ticks (world s1) <= t < ticks (world s2))%nat
                            /\ DMessage.updated m' = Some (clock t)
                     else DMessage.updated m' = DMessage.updated m)
               else m' = m).
  assert (Hwiden : forall s1 s2 s1' s2' m m',
             evolves s1' s1 -> evolves s2 s2' ->
             Rm s1 s2 m m' -> Rm s1' s2' m m').
  { intros s1 s2 s1' s2' m m' (_ & T1 & _) (_ & T2 & _). unfold Rm.
    destruct (String.eqb (DMessage.id m) messageId); [|auto].
    intros (F & I & U). split; [exact F|]. split; [exact I|].
    destruct touchUpdated; [|exact U].
    destruct U as (t & Ht & U). exists t. split; [lia | exact U]. }
  apply (_editConversation_Forall2 conversationId _
           (fun s1 s2 c c' =>
              Forall2 (Rm s1 s2)
                (DConversation.messages c) (DConversation.messages c'))).
  - intros c s1 Hin Hid Hs1. cbn [applyUpdate].
    destruct (editMessage_patch messageId
                (PatchFn (replaceMessageFragment_update fragmentId newFragment))
                removePendingState touchUpdated c s1) as [Hmsgs Hafter].
    destruct (mapM_Forall2
                (editMessage_map messageId
                   (PatchFn (replaceMessageFragment_update fragmentId
                               newFragment))
                   removePendingState touchUpdated)
                Rm (DConversation.messages c) s1) as [Hmapped HR].
    { intros m s2 Hm Hs2.
      apply (editMessage_map_not_found messageId fragmentId newFragment
               removePendingState touchUpdated m s2).
      intros Hmid f Hf. apply eqOS_false. eauto. }
    { exact Hwiden. }
    split; [eapply evolves_trans; eauto|].
    rewrite Hmsgs. eapply Forall2_impl; [|exact HR].
    intros m m'. apply Hwiden; [apply evolves_refl | exact Hafter].
  - intros s1 s2 s1' s2' c c' E1 E2 H.
    eapply Forall2_impl; [|exact H]. intros m m'. now apply Hwiden.
Qed.

(** ** Branching *)

Lemma mapM_duplicateDMessage (messages : list DMessage) (s : Sys) :
  fst (mapM duplicateDMessage messages s)
  = duplicates (draws (world s)) messages
  /\ chat (snd (mapM duplicateDMessage messages s)) = chat s.
Proof.
  revert s. induction messages as [|m l IH]; intros s; simpl.
  - auto.
  - assert (Hd : duplicateDMessage m s
                 = (DMessage.set_id (uuid_of "chat-dmessage" (draws (world s))) m,
                    mkSys (chat s)
                      (mkWorld (ticks (world s)) (S (draws (world s)))
                         (chatLLMId (world s)) (trace (world s))))).
    { unfold duplicateDMessage, agiUuid, draw. run_bind.
      rewrite liftW_run. reflexivity. }
    run_bind. rewrite Hd. cbn [ret fst snd].
    match goal with |- context [mapM duplicateDMessage l ?s1] =>
      destruct (IH s1) as [-> ->] end.
    cbn [world draws chat]. auto.
Qed.

Lemma duplicates_content (n : nat) (messages : list DMessage) :
  Forall2 (fun m m' => m' = DMessage.set_id (DMessage.id m') m)
    messages (duplicates n messages).
Proof.
  revert n. induction messages as [|m l IH]; intros n; simpl; constructor;
    [reflexivity | apply IH].
Qed.

Lemma duplicates_ids (n : nat) (messages : list DMessage) :
  map DMessage.id (duplicates n messages)
  = map (uuid_of "chat-dmessage") (seq n (List.length messages)).
Proof.
  revert n. induction messages as [|m l IH]; intros n; simpl;
    [reflexivity | now rewrite IH].
Qed.

Lemma upToAndIncluding_found (mId : DMessageId)
    (earlier later : list DMessage) (m : DMessage) :
  DMessage.id m = mId ->
  (forall x, In x earlier -> DMessage.id x <> mId) ->
  upToAndIncluding mId (earlier ++ m :: later) = (earlier ++ [m])%list.
Proof.
  intros Hm. induction earlier as [|x l IH]; intros Hl; simpl.
  - now rewrite Hm, String.eqb_refl.
  - destruct (String.eqb (DMessage.id x) mId) eqn:E.
    + apply String.eqb_eq in E. exfalso. apply (Hl x); [now left | exact E].
    + f_equal. apply IH. intros y Hy. apply Hl. now right.
Qed.

(** C6.  branchConversation returns null exactly when no conversation
    bears the identifier, and then changes nothing.  Otherwise, for the
    conversation found, the new list is the old one with the branch put in
    front of it, and the identifier of the branch is returned.  The branch
    bears a newly drawn identifier; its messages are those of the source up
    to and including the first one bearing the message identifier (all of
    them when none is given), each with a newly drawn identifier and
    otherwise as it was. *)
Theorem branchConversation_branches
    (conversationId : DConversationId) (messageId : option DMessageId)
    (s : Sys) :
  let r := branchConversation conversationId messageId s in
  (fst r = None <->
   forall c, In c (conversations (chat s)) ->
             DConversation.id c <> conversationId)
  /\ (fst r = None -> snd r = s)
  /\ (forall c,
        find (fun _c => String.eqb (DConversation.id _c) conversationId)
             (conversations (chat s)) = Some c ->
        let kept :=
          match messageId with
          | Some mId => upToAndIncluding mId (DConversation.messages c)
          | None => DConversation.messages c
          end in
        exists branched,
          conversations (chat (snd r)) = branched :: conversations (chat s)
          /\ fst r = Some (DConversation.id branched)
          /\ DConversation.id branched
             = uuid_of "chat-dconversation" (draws (world s))
          /\ Forall2 (fun m m' => m' = DMessage.set_id (DMessage.id m') m)
               kept (DConversation.messages branched)
          /\ map DMessage.id (DConversation.messages branched)
             = map (uuid_of "chat-dmessage")
                   (seq (S (draws (world s))) (List.length kept))
          /\ (forall mId earlier m later,
                messageId = Some mId ->
                DConversation.messages c = (earlier ++ m :: later)%list ->
                DMessage.id m = mId ->
                (forall x, In x earlier -> DMessage.id x <> mId) ->
                kept = (earlier ++ [m])%list)).
Proof.
  intros r. unfold r, branchConversation. run_bind. unfold _get.
  cbn [fst snd].
  destruct (find _ (conversations (chat s))) as [c|] eqn:Hfind.
  - run_bind. cbn [ret fst snd _set]. split.
    { split; [discriminate|]. intros Hnone. exfalso.
      destruct (find_some _ _ Hfind) as [Hin Hid].
      apply String.eqb_eq in Hid. exact (Hnone c Hin Hid). }
    split; [discriminate|].
    intros c0 [= <-].
    set (kept := match messageId with
                 | Some mId => upToAndIncluding mId (DConversation.messages c)
                 | None => DConversation.messages c
                 end).
    unfold duplicateCConversation. run_bind.
    assert (Hu : agiUuid "chat-dconversation" s
                 = (uuid_of "chat-dconversation" (draws (world s)),
                    mkSys (chat s)
                      (mkWorld (ticks (world s)) (S (draws (world s)))
                         (chatLLMId (world s)) (trace (world s))))).
    { unfold agiUuid, draw. rewrite liftW_run. reflexivity. }
    rewrite Hu. cbn [ret fst snd]. fold kept.
    match goal with |- context [mapM duplicateDMessage kept ?s1] =>
      destruct (mapM_duplicateDMessage kept s1) as [Hd Hc]; rewrite Hd end.
    cbn [world draws chat conversations DConversation.id
         DConversation.messages].
    eexists. split; [reflexivity|]. split; [reflexivity|].
    cbn [DConversation.id DConversation.messages].
    split; [reflexivity|]. split; [apply duplicates_content|].
    split; [apply duplicates_ids|].
    intros mId earlier m later -> Hmsgs Hm Hearlier. unfold kept.
    rewrite Hmsgs. now apply upToAndIncluding_found.
  - cbn [ret fst snd]. split.
    { split; [|reflexivity]. intros _ c Hin Hid.
      apply (find_none _ _ Hfind) in Hin.
      apply String.eqb_neq in Hin. contradiction. }
    split; [reflexivity|]. intros c0 H. discriminate.
Qed.

(** ** Importing *)

(** C7.  Importing a conversation whose identifier is already borne by a
    conversation of the store.  The handle of that conversation, when it
    has one, is aborted.  With preventClash the incoming conversation takes
    a newly drawn identifier (and a warning is written), otherwise it keeps
    its own.  The count of each of its messages is derived anew whatever was
    cached (the estimate under the configured model, or 0), and its
    tokenCount is 3 plus the sum of 4 plus each count.  The new list is the
    incoming conversation followed by the conversations of the old list that
    do not bear its final identifier, and that identifier is returned. *)
Theorem importConversation_clash
    (conversation : DConversation) (preventClash : bool) (s : Sys)
    (existing : DConversation)
    (Hclash :
       find (fun _c => String.eqb (DConversation.id _c)
                                  (DConversation.id conversation))
            (conversations (chat s)) = Some existing) :
  let r := importConversation conversation preventClash s in
  let newId :=
    if preventClash
    then uuid_of "chat-dconversation" (draws (world s))
    else DConversation.id conversation in
  let messages' :=
    map (fun m =>
           DMessage.set_tokenCount
             (recount (chatLLMId (world s)) "importConversation" m) m)
        (DConversation.messages conversation) in
  fst r = newId
  /\ conversations (chat (snd r))
     = DConversation.mk newId messages'
         (DConversation.systemPurposeId conversation)
         (DConversation.userTitle conversation)
         (DConversation.autoTitle conversation)
         (DConversation.userSymbol conversation)
         (3 + sumTokens messages')
         (DConversation.created conversation)
         (DConversation.updated conversation)
         (DConversation.abortController conversation)
       :: filter (fun _c => negb (String.eqb (DConversation.id _c) newId))
                 (conversations (chat s))
  /\ exists more,
       trace (world (snd r))
       = (trace (world s)
          ++ match DConversation.abortController existing with
             | Some controller => [EvAbort controller]
             | None => []
             end
          ++ (if preventClash
              then [EvWarn ("Conversation ID clash, changing ID to " ++ newId)]
              else [])
          ++ more)%list.
Proof.
  intros r newId messages'. unfold r, importConversation. run_bind.
  unfold _get. cbn [fst snd]. rewrite Hclash. run_bind.
  set (s1 := snd (abort (DConversation.abortController existing) s)).
  assert (H1 : chat s1 = chat s /\ ticks (world s1) = ticks (world s)
               /\ draws (world s1) = draws (world s)
               /\ chatLLMId (world s1) = chatLLMId (world s)
               /\ trace (world s1)
                  = (trace (world s)
                     ++ match DConversation.abortController existing with
                        | Some controller => [EvAbort controller]
                        | None => []
                        end)%list).
  { unfold s1, abort. destruct (DConversation.abortController existing).
    - unfold emit. rewrite liftW_run. cbn. auto.
    - cbn [ret snd]. rewrite app_nil_r. auto. }
  destruct H1 as (_ & _ & D1 & L1 & T1).
  set (renamed :=
         if preventClash
         then (newId0 <- agiUuid "chat-dconversation" ;;
               console_warn ("Conversation ID clash, changing ID to " ++ newId0) ;;
               ret (DConversation.set_id newId0 conversation))
         else ret conversation).
  assert (H2 : fst (renamed s1) = DConversation.set_id newId conversation
               /\ chatLLMId (world (snd (renamed s1))) = chatLLMId (world s)
               /\ trace (world (snd (renamed s1)))
                  = (trace (world s1)
                     ++ (if preventClash
                         then [EvWarn ("Conversation ID clash, changing ID to "
                                       ++ newId)]
                         else []))%list).
  { unfold renamed, newId. destruct preventClash.
    - run_bind. unfold agiUuid, draw, console_warn, emit.
      rewrite !liftW_run. cbn [ret fst snd world trace chatLLMId draws].
      rewrite D1. auto.
    - cbn [ret fst snd]. rewrite app_nil_r. split; [|auto].
      now destruct conversation. }
  destruct H2 as (V2 & L2 & T2).
  set (s2 := snd (renamed s1)) in *. rewrite V2.
  cbn [DConversation.messages DConversation.set_id].
  rewrite updateMessagesTokenCounts_value. cbv iota beta.
  assert (L3 := updateMessagesTokenCounts_logs
                  (DConversation.messages conversation) true
                  "importConversation" s2).
  set (s3 := snd (updateMessagesTokenCounts _ true "importConversation" s2))
    in *.
  run_bind. cbn [ret fst snd _set chat conversations world].
  rewrite L2. fold messages'.
  split; [reflexivity|]. split; [reflexivity|].
  destruct L3 as (_ & _ & _ & _ & more & T3). exists more.
  rewrite T3, T2, T1, <- !app_assoc. reflexivity.
Qed.

(** ** Persistence *)

Lemma rehydrate_fragment_fId (fragment : DMessageFragment) (s : Sys) :
  (forall scope n, nanoid_of scope n <> "") ->
  exists fId,
    DMessageFragment.fId (fst (rehydrate_fragment fragment s)) = Some fId
    /\ fId <> "".
Proof.
  intros Hids. unfold rehydrate_fragment.
  match goal with |- context [truthyOS (DMessageFragment.fId ?f)] =>
    set (fixed := f) end.
  destruct (DMessageFragment.fId fixed) as [fId|] eqn:E; cbn [truthyOS].
  - unfold truthyS. destruct (String.eqb fId "") eqn:E'; cbn [negb].
    + run_bind. unfold agiId, draw. rewrite liftW_run. cbn [ret fst snd].
      eexists. split; [reflexivity | apply Hids].
    + cbn [ret fst]. exists fId. split; [exact E|].
      now apply String.eqb_neq.
  - cbn [negb]. run_bind. unfold agiId, draw. rewrite liftW_run.
    cbn [ret fst snd]. eexists. split; [reflexivity | apply Hids].
Qed.

Lemma rehydrate_placeholder_fId (fragment : DMessageFragment) (s : Sys) :
  (forall error w,
     exists fId,
       DMessageFragment.fId (fst (createErrorContentFragment error w))
       = Some fId /\ fId <> "") ->
  (exists fId, DMessageFragment.fId fragment = Some fId /\ fId <> "") ->
  exists fId,
    DMessageFragment.fId (fst (rehydrate_placeholder fragment s)) = Some fId
    /\ fId <> "".
Proof.
  intros Herror Hf. unfold rehydrate_placeholder.
  destruct (DMessageFragment.part fragment); try exact Hf.
  destruct (isContentFragment fragment); [|exact Hf].
  rewrite liftW_run. cbn [fst]. apply Herror.
Qed.

Lemma mapM_Forall_in {A B : Type} (f : A -> M B) (P : A -> Prop)
    (Q : B -> Prop) (l : list A) (s : Sys) :
  (forall x s, P x -> Q (fst (f x s))) ->
  Forall P l -> Forall Q (fst (mapM f l s)).
Proof.
  intros Hf H. revert s. induction H as [|x l Hx H IH]; intros s; simpl.
  - constructor.
  - run_bind. cbn [ret fst]. constructor; [now apply Hf | apply IH].
Qed.

Lemma rehydrate_fragment_clean (fragment : DMessageFragment) (s : Sys) :
  needs_repair fragment = false ->
  rehydrate_fragment fragment s = (fragment, s).
Proof.
  unfold needs_repair, rehydrate_fragment. intros H.
  apply orb_false_iff in H. destruct H as [Hid Hpart].
  apply negb_false_iff in Hid.
  destruct (DMessageFragment.part fragment) as [t|[u|a [d|]]|e|pt|o] eqn:P;
    try (rewrite Hid; reflexivity).
  rewrite andb_comm in Hpart. cbn [isImageRefPart].
  rewrite andb_true_r, andb_comm, Hpart. now rewrite Hid.
Qed.

Lemma rehydrate_placeholder_clean (fragment : DMessageFragment) (s : Sys) :
  needs_repair fragment = false ->
  rehydrate_placeholder fragment s = (fragment, s).
Proof.
  unfold needs_repair, rehydrate_placeholder. intros H.
  apply orb_false_iff in H. destruct H as [_ Hpart].
  destruct (DMessageFragment.part fragment); try reflexivity.
  rewrite andb_true_r in Hpart. now rewrite Hpart.
Qed.

(** The conversations saved are those of the store, one for one. *)
Lemma Forall2_partialize (R : DConversation.rest -> DConversation -> Prop)
    (state : ChatState) (loaded : list DConversation) :
  Forall2 R (persisted_conversations (partialize state)) loaded ->
  Forall2 (fun c c' => R (DConversation.strip c) c')
          (conversations state) loaded.
Proof.
  unfold partialize. cbn [persisted_conversations].
  generalize (conversations state) as stored. intros stored. revert loaded.
  induction stored as [|c stored IH]; intros loaded H; inversion H; subst.
  - constructor.
  - constructor; [assumption | now apply IH].
Qed.

(** C9.  Saving then loading.  With an identifier generator that never
    returns the empty string, and a constructor of error fragments that
    gives them an identifier that is not empty, partialize followed by
    onRehydrateStorage yields a state that holds the conversations of the
    store, one for one and in their order.  Every conversation has a null
    handle and is otherwise as it was but for its messages; it has its
    messages, one for one, each without its pending and typing marks and
    otherwise as it was but for its fragments; and each message has its
    fragments, one for one: every fragment has an identifier that is not
    empty, and a fragment that was in no need of repair is as it was. *)
Theorem partialize_onRehydrateStorage
    (state : ChatState) (s : Sys)
    (Hids : forall scope n, nanoid_of scope n <> "")
    (Herror : forall error w,
        exists fId,
          DMessageFragment.fId (fst (createErrorContentFragment error w))
          = Some fId /\ fId <> "") :
  exists state',
    fst (onRehydrateStorage (Some (partialize state)) s) = Some state'
    /\ Forall2
         (fun c c' =>
            DConversation.abortController c' = None
            /\ DConversation.set_messages (DConversation.messages c) c'
               = DConversation.attach None (DConversation.strip c)
            /\ Forall2
                 (fun m m' =>
                    DMessage.set_fragments (DMessage.fragments m) m'
                    = DMessage.set_typing None
                        (DMessage.set_pendingIncomplete None m)
                    /\ Forall2
                         (fun f f' =>
                            (exists fId,
                               DMessageFragment.fId f' = Some fId
                               /\ fId <> "")
                            /\ (needs_repair f = false -> f' = f))
                         (DMessage.fragments m) (DMessage.fragments m'))
                 (DConversation.messages c) (DConversation.messages c'))
         (conversations state) (conversations state').
Proof.
  unfold onRehydrateStorage. run_bind. cbn [ret fst].
  eexists. split; [reflexivity|]. cbn [conversations].
  refine (Forall2_partialize
            (fun r c' =>
               DConversation.abortController c' = None
               /\ DConversation.set_messages (DConversation.r_messages r) c'
                  = DConversation.attach None r
               /\ Forall2
                    (fun m m' =>
                       DMessage.set_fragments (DMessage.fragments m) m'
                       = DMessage.set_typing None
                           (DMessage.set_pendingIncomplete None m)
                       /\ Forall2
                            (fun f f' =>
                               (exists fId,
                                  DMessageFragment.fId f' = Some fId
                                  /\ fId <> "")
                               /\ (needs_repair f = false -> f' = f))
                            (DMessage.fragments m) (DMessage.fragments m'))
                    (DConversation.r_messages r) (DConversation.messages c'))
            state _ _).
  apply mapM_Forall2_pure. intros r s1 _. run_bind. cbn [ret fst].
  cbn [DConversation.abortController DConversation.messages
       DConversation.set_messages DConversation.attach DConversation.strip
       DConversation.r_messages DConversation.id
       DConversation.systemPurposeId DConversation.userTitle
       DConversation.autoTitle DConversation.userSymbol
       DConversation.tokenCount DConversation.created DConversation.updated
       DConversation.r_id DConversation.r_systemPurposeId
       DConversation.r_userTitle DConversation.r_autoTitle
       DConversation.r_userSymbol DConversation.r_tokenCount
       DConversation.r_created DConversation.r_updated].
  split; [reflexivity|]. split; [reflexivity|].
  apply mapM_Forall2_pure. intros m s2 _. unfold rehydrate_message.
  run_bind. cbn [ret fst]. split; [now destruct m|].
  cbn [DMessage.fragments DMessage.set_typing DMessage.set_pendingIncomplete
       DMessage.set_fragments].
  match goal with
  | |- Forall2 _ _ (fst (mapM rehydrate_placeholder ?fixed ?s3)) =>
      assert (H2 : Forall2
                     (fun f1 f' =>
                        ((exists fId,
                            DMessageFragment.fId f1 = Some fId /\ fId <> "")
                         -> exists fId,
                              DMessageFragment.fId f' = Some fId
                              /\ fId <> "")
                        /\ (needs_repair f1 = false -> f' = f1))
                     fixed (fst (mapM rehydrate_placeholder fixed s3)))
  end.
  { apply mapM_Forall2_pure. intros f1 s3 _. split.
    - intros Hf. now apply rehydrate_placeholder_fId.
    - intros Hclean. now rewrite rehydrate_placeholder_clean. }
  assert (H1 : Forall2
                 (fun f f1 =>
                    (exists fId,
                       DMessageFragment.fId f1 = Some fId /\ fId <> "")
                    /\ (needs_repair f = false -> f1 = f))
                 (DMessage.fragments m)
                 (fst (mapM rehydrate_fragment (DMessage.fragments m) s2))).
  { apply mapM_Forall2_pure. intros f s3 _. split.
    - now apply rehydrate_fragment_fId.
    - intros Hclean. now rewrite rehydrate_fragment_clean. }
  eapply Forall2_impl; [|exact (Forall2_compose _ _ _ _ _ H1 H2)].
  cbv beta. intros f f' (f1 & (Hid1 & Hsame1) & (Hid2 & Hsame2)).
  split; [now apply Hid2|].
  intros Hclean. specialize (Hsame1 Hclean). subst f1. now apply Hsame2.
Qed.

(** * Further properties of the store *)

(** ** Mapping with effects, exactly *)

Lemma Sys_eta (s : Sys) :
  mkSys (mkChatState (conversations (chat s))) (world s) = s.
Proof. destruct s as [[cs] w]. reflexivity. Qed.

Lemma traced_nil (s : Sys) : traced [] s = s.
Proof.
  unfold traced. rewrite app_nil_r. destruct s as [st [t d l tr]].
  reflexivity.
Qed.

Lemma traced_traced (e1 e2 : list Event) (s : Sys) :
  traced e2 (traced e1 s) = traced (e1 ++ e2) s.
Proof. unfold traced. cbn. now rewrite app_assoc. Qed.

Lemma emit_traced (e : Event) (s : Sys) : emit e s = (tt, traced [e] s).
Proof. unfold emit. rewrite liftW_run. reflexivity. Qed.

Lemma abort_traced (h : option AbortController) (s : Sys) :
  abort h s
  = (tt, traced (match h with Some c => [EvAbort c] | None => [] end) s).
Proof.
  destruct h; cbn [abort]; [apply emit_traced | now rewrite traced_nil].
Qed.

Lemma flat_map_nil {A B : Type} (l : list A) :
  flat_map (fun _ : A => @nil B) l = [].
Proof. induction l; auto. Qed.

Lemma flat_map_if_nil {A B : Type} (p : A -> bool) (l : list A) :
  flat_map (fun x => if p x then @nil B else []) l = [].
Proof. induction l as [|x l IH]; simpl; [|destruct (p x)]; auto. Qed.

(** A callback whose value does not depend on the state and which only
    writes events. *)
Lemma mapM_traced {A B : Type} (f : A -> M B) (g : A -> B)
    (events : A -> list Event) (l : list A) (s : Sys) :
  (forall x s1, In x l -> f x s1 = (g x, traced (events x) s1)) ->
  mapM f l s = (map g l, traced (flat_map events l) s).
Proof.
  revert s. induction l as [|x l IH]; intros s Hf; simpl.
  - now rewrite traced_nil.
  - run_bind. rewrite (Hf x s (or_introl eq_refl)). cbn [fst snd].
    rewrite IH by (intros y s1 Hy; apply Hf; now right).
    cbn [ret fst snd]. now rewrite traced_traced.
Qed.

Lemma forEachM_traced {A : Type} (f : A -> M unit)
    (events : A -> list Event) (l : list A) (s : Sys) :
  (forall x s1, In x l -> f x s1 = (tt, traced (events x) s1)) ->
  forEachM f l s = (tt, traced (flat_map events l) s).
Proof.
  revert s. induction l as [|x l IH]; intros s Hf; simpl.
  - now rewrite traced_nil.
  - run_bind. rewrite (Hf x s (or_introl eq_refl)). cbn [snd].
    rewrite IH by (intros y s1 Hy; apply Hf; now right).
    now rewrite traced_traced.
Qed.

Lemma _editConversation_traced (conversationId : DConversationId)
    (update : Update DConversation DConversation.patch)
    (p : DConversation -> DConversation.patch)
    (events : DConversation -> list Event) (s : Sys) :
  (forall c s1, In c (conversations (chat s)) ->
     DConversation.id c = conversationId ->
     applyUpdate update c s1 = (p c, traced (events c) s1)) ->
  snd (_editConversation conversationId update s)
  = mkSys
      (mkChatState
         (map (fun c =>
                 if String.eqb (DConversation.id c) conversationId
                 then DConversation.merge c (p c) else c)
              (conversations (chat s))))
      (world
         (traced
            (flat_map
               (fun c =>
                  if String.eqb (DConversation.id c) conversationId
                  then events c else [])
               (conversations (chat s)))
            s)).
Proof.
  intros Hupdate. rewrite _editConversation_run.
  rewrite (mapM_traced _
             (fun c => if String.eqb (DConversation.id c) conversationId
                       then DConversation.merge c (p c) else c)
             (fun c => if String.eqb (DConversation.id c) conversationId
                       then events c else [])).
  - reflexivity.
  - intros c s1 Hin.
    destruct (String.eqb (DConversation.id c) conversationId) eqn:E.
    + apply String.eqb_eq in E. run_bind. rewrite (Hupdate c s1 Hin E).
      reflexivity.
    + now rewrite traced_nil.
Qed.

(** ** Editing a conversation that is not there *)

(** X1.  An edit of a conversation that the store does not hold does
    nothing at all: the update is not run, so the list, the clock, the
    generators and the trace are as they were.  This is what every action
    within a conversation does when handed an unknown identifier. *)
Theorem editConversation_unknown_conversation
    (conversationId : DConversationId)
    (update : Update DConversation DConversation.patch) (s : Sys)
    (Hunknown : forall c,
        In c (conversations (chat s)) ->
        DConversation.id c <> conversationId) :
  _editConversation conversationId update s = (tt, s).
Proof.
  assert (H : snd (_editConversation conversationId update s) = s).
  { rewrite _editConversation_run.
    rewrite (mapM_traced _ (fun c => c) (fun _ => [])).
    - cbn [fst snd]. rewrite map_id.
      rewrite flat_map_nil, traced_nil. apply Sys_eta.
    - intros c s1 Hin.
      destruct (String.eqb (DConversation.id c) conversationId) eqn:E.
      + apply String.eqb_eq in E. now apply Hunknown in Hin.
      + now rewrite traced_nil. }
  destruct (_editConversation conversationId update s) as [[] s'].
  cbn [snd] in H. now subst.
Qed.

(** ** Reading the store *)

Lemma getConversation_run (conversationId : DConversationId) (s : Sys) :
  conversationId <> "" ->
  getConversation (Some conversationId) s
  = (find (fun _c => String.eqb conversationId (DConversation.id _c))
          (conversations (chat s)), s).
Proof.
  intros H. unfold getConversation. cbn [truthyOS]. unfold truthyS.
  apply String.eqb_neq in H. rewrite H. cbn [negb]. run_bind. reflexivity.
Qed.

(** X2.  prependNewConversation puts the conversation that
    createDConversation makes in front of the list and returns its
    identifier, and changes the world only as createDConversation does.
    When that identifier is not empty, getConversation on it finds the new
    conversation (before any older conversation bearing the same
    identifier) and isValidConversation holds of it. *)
Theorem prependNewConversation_then_getConversation
    (personaId : option SystemPurposeId) (s : Sys) :
  let made := createDConversation personaId (world s) in
  let r := prependNewConversation personaId s in
  fst r = DConversation.id (fst made)
  /\ conversations (chat (snd r)) = fst made :: conversations (chat s)
  /\ world (snd r) = snd made
  /\ (DConversation.id (fst made) <> "" ->
      getConversation (Some (fst r)) (snd r) = (Some (fst made), snd r)
      /\ isValidConversation (Some (fst r)) (snd r) = (true, snd r)).
Proof.
  intros made r. unfold r, prependNewConversation. run_bind.
  rewrite liftW_run. fold made. cbn [fst snd _get _set ret chat world
                                      conversations].
  split; [reflexivity|]. split; [reflexivity|]. split; [reflexivity|].
  intros Hid.
  assert (G : getConversation (Some (DConversation.id (fst made)))
                (mkSys (mkChatState (fst made :: conversations (chat s)))
                   (snd made))
              = (Some (fst made),
                 mkSys (mkChatState (fst made :: conversations (chat s)))
                   (snd made))).
  { rewrite getConversation_run by exact Hid.
    cbn [chat conversations find]. now rewrite String.eqb_refl. }
  split; [exact G|].
  unfold isValidConversation. cbn [truthyOS]. unfold truthyS.
  apply String.eqb_neq in Hid. rewrite Hid. cbn [negb]. run_bind.
  rewrite G. reflexivity.
Qed.

(** ** Importing, in general *)

Lemma reports_only_refl (s : Sys) : reports_only s s.
Proof.
  unfold reports_only. repeat split; auto. exists [].
  split; [now rewrite app_nil_r | constructor].
Qed.

Lemma reports_only_trans (s1 s2 s3 : Sys) :
  reports_only s1 s2 -> reports_only s2 s3 -> reports_only s1 s3.
Proof.
  intros (C1 & T1 & D1 & L1 & m1 & E1 & F1) (C2 & T2 & D2 & L2 & m2 & E2 & F2).
  unfold reports_only. repeat split; try congruence.
  exists (m1 ++ m2)%list. split; [now rewrite E2, E1, app_assoc|].
  apply Forall_app. auto.
Qed.

Lemma reports_only_error (message : string) (s : Sys) :
  reports_only s (snd (console_error message s)).
Proof.
  unfold console_error. rewrite emit_traced. unfold reports_only, traced.
  cbn. repeat split; auto. exists [EvError message].
  split; [reflexivity|]. constructor; [now exists message | constructor].
Qed.

Lemma updateMessageTokenCount_reports (message : DMessage)
    (llmId : option DLLMId) (forceUpdate : bool) (debugFrom : string)
    (s : Sys) :
  reports_only s
    (snd (updateMessageTokenCount message llmId forceUpdate debugFrom s)).
Proof.
  unfold updateMessageTokenCount.
  destruct (forceUpdate || negb (truthyZ (DMessage.tokenCount message)));
    [|apply reports_only_refl].
  destruct llmId as [id|]; [|apply reports_only_refl].
  destruct (truthyS id); [|apply reports_only_refl].
  destruct (findLLMOrThrow id) as [dllm|].
  - destruct (estimateTokensForFragments _ dllm false debugFrom);
      [apply reports_only_refl|].
    rewrite bind_run. apply reports_only_error.
  - rewrite bind_run. apply reports_only_error.
Qed.

Lemma updateMessagesTokenCounts_reduce_reports (llmId : option DLLMId)
    (forceUpdate : bool) (debugFrom : string) (messages done : list DMessage)
    (sum : Z) (s : Sys) :
  reports_only s
    (snd (updateMessagesTokenCounts_reduce llmId forceUpdate debugFrom
            messages done sum s)).
Proof.
  revert done sum s.
  induction messages as [|m l IH]; intros done sum s; simpl.
  - apply reports_only_refl.
  - rewrite bind_run, updateMessageTokenCount_value. cbn [fst snd].
    eapply reports_only_trans;
      [apply updateMessageTokenCount_reports | apply IH].
Qed.

Lemma updateMessagesTokenCounts_reports (messages : list DMessage)
    (forceUpdate : bool) (debugFrom : string) (s : Sys) :
  reports_only s
    (snd (updateMessagesTokenCounts messages forceUpdate debugFrom s)).
Proof.
  unfold updateMessagesTokenCounts.
  rewrite bind_run, getChatLLMId_run. cbn [fst snd].
  rewrite bind_run, updateMessagesTokenCounts_reduce_value. cbn [fst snd].
  apply updateMessagesTokenCounts_reduce_reports.
Qed.

(** What importConversation leaves in the store, whether or not the
    identifier clashes. *)
Lemma importConversation_result (conversation : DConversation)
    (preventClash : bool) (s : Sys) :
  let r := importConversation conversation preventClash s in
  let clash :=
    find (fun _c => String.eqb (DConversation.id _c)
                               (DConversation.id conversation))
         (conversations (chat s)) in
  let newId :=
    match clash with
    | Some _ =>
        if preventClash
        then uuid_of "chat-dconversation" (draws (world s))
        else DConversation.id conversation
    | None => DConversation.id conversation
    end in
  let messages' :=
    map (fun m =>
           DMessage.set_tokenCount
             (recount (chatLLMId (world s)) "importConversation" m) m)
        (DConversation.messages conversation) in
  fst r = newId
  /\ conversations (chat (snd r))
     = DConversation.mk newId messages'
         (DConversation.systemPurposeId conversation)
         (DConversation.userTitle conversation)
         (DConversation.autoTitle conversation)
         (DConversation.userSymbol conversation)
         (3 + sumTokens messages')
         (DConversation.created conversation)
         (DConversation.updated conversation)
         (DConversation.abortController conversation)
       :: filter (fun _c => negb (String.eqb (DConversation.id _c) newId))
                 (conversations (chat s))
  /\ (clash = None ->
      reports_only s (mkSys (chat s) (world (snd r)))).
Proof.
  intros r clash newId messages'.
  unfold r, importConversation. run_bind. unfold _get. cbn [fst snd].
  fold clash. unfold newId.
  set (renamed :=
         match clash with
         | Some existing =>
             abort (DConversation.abortController existing) ;;
             (if preventClash
              then (newId0 <- agiUuid "chat-dconversation" ;;
                    console_warn
                      ("Conversation ID clash, changing ID to " ++ newId0) ;;
                    ret (DConversation.set_id newId0 conversation))
              else ret conversation)
         | None => ret conversation
         end).
  assert (H : fst (renamed s)
              = DConversation.set_id
                  match clash with
                  | Some _ =>
                      if preventClash
                      then uuid_of "chat-dconversation" (draws (world s))
                      else DConversation.id conversation
                  | None => DConversation.id conversation
                  end conversation
              /\ chatLLMId (world (snd (renamed s))) = chatLLMId (world s)
              /\ (clash = None -> snd (renamed s) = s)).
  { unfold renamed. destruct clash as [existing|].
    - run_bind. rewrite abort_traced. cbn [snd].
      destruct preventClash.
      + run_bind. unfold agiUuid, draw, console_warn.
        rewrite liftW_run, emit_traced. cbn. split; [reflexivity|].
        split; [reflexivity | discriminate].
      + cbn [ret fst snd]. split; [now destruct conversation|].
        split; [reflexivity | discriminate].
    - cbn [ret fst snd]. split; [now destruct conversation|]. auto. }
  destruct H as (V & L & N). rewrite V.
  cbn [DConversation.messages DConversation.set_id].
  rewrite updateMessagesTokenCounts_value. cbv iota beta.
  assert (R := updateMessagesTokenCounts_reports
                 (DConversation.messages conversation) true
                 "importConversation" (snd (renamed s))).
  run_bind. cbn [ret fst snd _set chat conversations world].
  rewrite L. fold messages'.
  split; [reflexivity|]. split; [reflexivity|].
  intros Hnone. rewrite (N Hnone) in R |- *.
  destruct R as (_ & T & D & Llm & more & E & F).
  unfold reports_only. cbn [chat world].
  split; [reflexivity|]. split; [exact T|]. split; [exact D|].
  split; [exact Llm|]. exists more. split; assumption.
Qed.

(** X3.  Importing a conversation whose identifier no conversation of the
    store bears.  Whatever preventClash says, the conversation keeps its
    identifier, which is returned, and is put in front of the old list,
    which is kept whole.  The count of each of its messages is derived
    anew, and its tokenCount is 3 plus the sum of 4 plus each count.  No
    identifier is drawn, the clock is not read, nothing is aborted and no
    warning is written: the only events are reports of errors. *)
Theorem importConversation_without_clash
    (conversation : DConversation) (preventClash : bool) (s : Sys)
    (Hnew : forall c,
        In c (conversations (chat s)) ->
        DConversation.id c <> DConversation.id conversation) :
  let r := importConversation conversation preventClash s in
  let messages' :=
    map (fun m =>
           DMessage.set_tokenCount
             (recount (chatLLMId (world s)) "importConversation" m) m)
        (DConversation.messages conversation) in
  fst r = DConversation.id conversation
  /\ conversations (chat (snd r))
     = DConversation.mk (DConversation.id conversation) messages'
         (DConversation.systemPurposeId conversation)
         (DConversation.userTitle conversation)
         (DConversation.autoTitle conversation)
         (DConversation.userSymbol conversation)
         (3 + sumTokens messages')
         (DConversation.created conversation)
         (DConversation.updated conversation)
         (DConversation.abortController conversation)
       :: conversations (chat s)
  /\ reports_only s (mkSys (chat s) (world (snd r))).
Proof.
  intros r messages'.
  assert (Hfind : find (fun _c => String.eqb (DConversation.id _c)
                                             (DConversation.id conversation))
                       (conversations (chat s)) = None).
  { destruct (find _ _) as [c|] eqn:E; [|reflexivity].
    destruct (find_some _ _ E) as [Hin Hid].
    apply String.eqb_eq in Hid. now apply Hnew in Hin. }
  destruct (importConversation_result conversation preventClash s)
    as (Hid & Hlist & Hworld).
  rewrite Hfind in Hid, Hlist, Hworld.
  split; [exact Hid|]. split; [|now apply Hworld].
  unfold r. rewrite Hlist. fold messages'. f_equal.
  apply filter_all. intros c Hin. apply negb_true_iff, String.eqb_neq.
  now apply Hnew.
Qed.

Lemma filter_keeps_identifiers_distinct (keep : DConversation -> bool) :
  forall conversations : list DConversation,
    NoDup (map DConversation.id conversations) ->
    NoDup (map DConversation.id (filter keep conversations)).
Proof.
  intros conversations. induction conversations as [|c rest IH].
  - intros _. constructor.
  - cbn [map filter]. intros Hall. apply NoDup_cons_iff in Hall.
    destruct Hall as [Hhead Hrest]. specialize (IH Hrest).
    destruct (keep c); [|exact IH].
    cbn [map]. apply NoDup_cons; [|exact IH].
    rewrite in_map_iff. intros (c' & Hid & Hin).
    apply filter_In in Hin. apply Hhead.
    rewrite <- Hid. apply in_map. exact (proj1 Hin).
Qed.

(** X4.  importConversation keeps the identifiers of the store distinct:
    when no two conversations bear the same identifier before the call, no
    two do after it, whether the identifier clashed or not and whether it
    was changed or not.  The conversation returned by getConversation for
    the identifier that importConversation returns, when that identifier is
    not empty, is the imported one, first in the list. *)
Theorem importConversation_keeps_identifiers_distinct
    (conversation : DConversation) (preventClash : bool) (s : Sys)
    (Hdistinct : NoDup (map DConversation.id (conversations (chat s)))) :
  let r := importConversation conversation preventClash s in
  NoDup (map DConversation.id (conversations (chat (snd r))))
  /\ (exists imported others,
        conversations (chat (snd r)) = imported :: others
        /\ DConversation.id imported = fst r
        /\ (fst r <> "" ->
            fst (getConversation (Some (fst r)) (snd r)) = Some imported)).
Proof.
  intros r.
  destruct (importConversation_result conversation preventClash s)
    as (Hid & Hlist & _).
  fold r in Hid, Hlist. rewrite Hlist. cbn [map DConversation.id]. split.
  - constructor; [|now apply filter_keeps_identifiers_distinct].
    intros Hin. apply in_map_iff in Hin. destruct Hin as (c & Hc & Hin).
    apply filter_In in Hin. destruct Hin as [_ Hne].
    apply negb_true_iff, String.eqb_neq in Hne. contradiction.
  - eexists. eexists. split; [reflexivity|].
    cbn [DConversation.id]. split; [now rewrite Hid|].
    intros Hne. rewrite getConversation_run by exact Hne.
    cbn [fst]. rewrite Hlist. cbn [find DConversation.id].
    rewrite Hid, String.eqb_refl. reflexivity.
Qed.

(** ** Deleting conversations, exactly *)

Lemma deleteConversations_run (conversationIds : list DConversationId)
    (newConversationPersonaId : option SystemPurposeId) (s : Sys) :
  let cs := conversations (chat s) in
  let cIndex :=
    match conversationIds with
    | first :: _ =>
        findIndex (fun _c => String.eqb (DConversation.id _c) first) cs
    | [] => -1
    end in
  let s1 := traced (aborts_of conversationIds cs) s in
  let remaining :=
    filter (fun _c => negb (includes conversationIds (DConversation.id _c)))
           cs in
  let made := createDConversation newConversationPersonaId (world s1) in
  let pick (l : list DConversation) :=
    id_at l (if (0 <=? cIndex)%Z && (cIndex <? Z.of_nat (List.length l))%Z
             then cIndex else 0) in
  deleteConversations conversationIds newConversationPersonaId s
  = match remaining with
    | [] => (pick [fst made], mkSys (mkChatState [fst made]) (snd made))
    | _ :: _ => (pick remaining, mkSys (mkChatState remaining) (world s1))
    end.
Proof.
  intros cs cIndex s1 remaining made pick.
  unfold deleteConversations. run_bind. unfold _get. cbn [fst snd].
  fold cs. fold cIndex. fold remaining.
  rewrite (forEachM_traced _
             (fun conversationId =>
                match find (fun _c => String.eqb (DConversation.id _c)
                                                 conversationId) cs with
                | Some c =>
                    match DConversation.abortController c with
                    | Some controller => [EvAbort controller]
                    | None => []
                    end
                | None => []
                end)).
  2: { intros x s2 _. destruct (find _ cs) as [c|].
       - apply abort_traced.
       - now rewrite traced_nil. }
  cbn [fst snd]. fold (aborts_of conversationIds cs). fold s1.
  destruct remaining as [|c0 rest].
  - cbn [List.length Nat.eqb app]. run_bind. rewrite liftW_run. fold made.
    reflexivity.
  - cbn [List.length Nat.eqb]. run_bind. reflexivity.
Qed.

Lemma findIndex_found {A : Type} (p : A -> bool) (before after : list A)
    (x : A) :
  (forall y, In y before -> p y = false) -> p x = true ->
  findIndex p (before ++ x :: after) = Z.of_nat (List.length before).
Proof.
  intros Hb Hx. induction before as [|y l IH]; simpl.
  - now rewrite Hx.
  - rewrite (Hb y (or_introl eq_refl)).
    rewrite IH by (intros z Hz; apply Hb; now right).
    destruct (Z.of_nat (List.length l) <? 0)%Z eqn:E.
    + apply Z.ltb_lt in E. lia.
    + lia.
Qed.

Lemma findIndex_none {A : Type} (p : A -> bool) (l : list A) :
  (forall y, In y l -> p y = false) -> findIndex p l = -1.
Proof.
  intros H. induction l as [|y l IH]; simpl; [reflexivity|].
  rewrite (H y (or_introl eq_refl)).
  rewrite IH by (intros z Hz; apply H; now right). reflexivity.
Qed.

Lemma filter_none {A : Type} (p : A -> bool) (l : list A) :
  (forall x, In x l -> p x = false) -> filter p l = [].
Proof.
  induction l as [|x l IH]; intros H; simpl; [reflexivity|].
  rewrite (H x (or_introl eq_refl)). apply IH.
  intros y Hy. apply H. now right.
Qed.

Lemma includes_In (l : list string) (x : string) :
  includes l x = true <-> In x l.
Proof.
  unfold includes. rewrite existsb_exists. split.
  - intros (y & Hy & E). apply String.eqb_eq in E. now subst.
  - intros H. exists x. split; [exact H | apply String.eqb_refl].
Qed.

Lemma includes_not_In (l : list string) (x : string) :
  ~ In x l -> includes l x = false.
Proof.
  intros H. destruct (includes l x) eqn:E; [|reflexivity].
  apply includes_In in E. contradiction.
Qed.

(** X5.  Deleting one conversation, when no other conversation bears its
    identifier.  The list that results is the old one without it, as long
    as another conversation is left.  The identifier returned is that of
    the conversation that came next in the list; when the conversation
    deleted was the last of the list, it is that of the first conversation
    of the list, not that of the one before it. *)
Theorem deleteConversations_next_in_line
    (before after : list DConversation) (c : DConversation)
    (newConversationPersonaId : option SystemPurposeId) (s : Sys)
    (Hstore : conversations (chat s) = (before ++ c :: after)%list)
    (Hothers : forall x,
        In x (before ++ after) -> DConversation.id x <> DConversation.id c) :
  let r :=
    deleteConversations [DConversation.id c] newConversationPersonaId s in
  (forall x others, (before ++ after)%list = x :: others ->
     conversations (chat (snd r)) = (before ++ after)%list)
  /\ (forall next others,
        after = next :: others -> fst r = Some (DConversation.id next))
  /\ (forall first others,
        after = [] -> before = first :: others ->
        fst r = Some (DConversation.id first)).
Proof.
  intros r. unfold r. rewrite deleteConversations_run. rewrite Hstore.
  assert (Hidx : findIndex (fun _c => String.eqb (DConversation.id _c)
                                                 (DConversation.id c))
                           (before ++ c :: after)
                 = Z.of_nat (List.length before)).
  { apply findIndex_found; [|apply String.eqb_refl].
    intros y Hy. apply String.eqb_neq, Hothers, in_or_app. now left. }
  assert (Hrem : filter (fun _c => negb (includes [DConversation.id c]
                                           (DConversation.id _c)))
                        (before ++ c :: after)
                 = (before ++ after)%list).
  { rewrite filter_app. cbn [filter includes existsb].
    rewrite String.eqb_refl. cbn [orb negb].
    rewrite !filter_all; [reflexivity| |].
    - intros y Hy. cbn [includes existsb]. rewrite orb_false_r.
      apply negb_true_iff, String.eqb_neq. apply Hothers, in_or_app.
      now right.
    - intros y Hy. cbn [includes existsb]. rewrite orb_false_r.
      apply negb_true_iff, String.eqb_neq. apply Hothers, in_or_app.
      now left. }
  rewrite Hidx, Hrem.
  split; [|split].
  - intros x others E. rewrite E. cbn [snd chat conversations]. reflexivity.
  - intros next others ->.
    destruct (before ++ next :: others)%list as [|y l] eqn:E.
    { destruct before; discriminate. }
    rewrite <- E. cbn [fst]. unfold id_at.
    assert (Hlen : (Z.of_nat (List.length before)
                    <? Z.of_nat (List.length (before ++ next :: others)))%Z
                   = true).
    { apply Z.ltb_lt. rewrite length_app. cbn [List.length]. lia. }
    rewrite Hlen.
    replace (0 <=? Z.of_nat (List.length before))%Z with true
      by (symmetry; apply Z.leb_le; lia).
    cbn [andb]. rewrite Nat2Z.id.
    rewrite nth_error_app2 by lia. rewrite Nat.sub_diag. reflexivity.
  - intros first others -> ->. rewrite app_nil_r. cbn [fst]. unfold id_at.
    rewrite Z.ltb_irrefl, andb_false_r. reflexivity.
Qed.

(** X6.  Deleting conversations, when at least one conversation is not
    named.  The list that results holds the conversations that are not
    named, in their order, so that getConversation finds none of the
    identifiers named any more.  The world changes by the aborts alone: a
    handle is aborted exactly when it is the handle of the first
    conversation bearing one of the identifiers named. *)
Theorem deleteConversations_removes_the_named
    (conversationIds : list DConversationId)
    (newConversationPersonaId : option SystemPurposeId) (s : Sys)
    (kept : DConversation)
    (Hkept : In kept (conversations (chat s)))
    (Hnot_named : ~ In (DConversation.id kept) conversationIds) :
  let r :=
    deleteConversations conversationIds newConversationPersonaId s in
  conversations (chat (snd r))
  = filter (fun _c => negb (includes conversationIds (DConversation.id _c)))
           (conversations (chat s))
  /\ (forall conversationId,
        In conversationId conversationIds ->
        fst (getConversation (Some conversationId) (snd r)) = None)
  /\ world (snd r)
     = world (traced (aborts_of conversationIds (conversations (chat s))) s)
  /\ (forall controller,
        In (EvAbort controller)
           (aborts_of conversationIds (conversations (chat s)))
        <-> exists conversationId c,
              In conversationId conversationIds
              /\ find (fun _c => String.eqb (DConversation.id _c)
                                            conversationId)
                      (conversations (chat s)) = Some c
              /\ DConversation.abortController c = Some controller).
Proof.
  intros r. unfold r. rewrite deleteConversations_run.
  assert (Hin : In kept
            (filter (fun _c => negb (includes conversationIds
                                       (DConversation.id _c)))
                    (conversations (chat s)))).
  { apply filter_In. split; [exact Hkept|]. apply negb_true_iff.
    now apply includes_not_In. }
  destruct (filter _ (conversations (chat s))) as [|c0 rest] eqn:Hrem;
    [destruct Hin|].
  cbn [snd chat conversations world]. split; [reflexivity|].
  split; [|split; [reflexivity|]].
  - intros conversationId Hnamed. unfold getConversation.
    destruct (truthyOS (Some conversationId)); [|reflexivity].
    run_bind. cbn [_get ret fst snd chat conversations].
    destruct (find _ (c0 :: rest)) as [c|] eqn:E; [|reflexivity].
    destruct (find_some _ _ E) as [Hc Hid]. rewrite <- Hrem in Hc.
    apply filter_In in Hc. destruct Hc as [_ Hc].
    apply negb_true_iff in Hc. cbn [eqOS] in Hid.
    apply String.eqb_eq in Hid. subst conversationId.
    assert (includes conversationIds (DConversation.id c) = true)
      by now apply includes_In.
    congruence.
  - intros controller. unfold aborts_of. rewrite in_flat_map. split.
    + intros (conversationId & Hnamed & Hev).
      destruct (find _ (conversations (chat s))) as [c|] eqn:E;
        [|destruct Hev].
      destruct (DConversation.abortController c) as [h|] eqn:Eh;
        [|destruct Hev].
      destruct Hev as [[= <-]|[]]. exists conversationId, c. auto.
    + intros (conversationId & c & Hnamed & E & Eh).
      exists conversationId. split; [exact Hnamed|].
      rewrite E, Eh. now left.
Qed.

(** X7.  Deleting conversations when no conversation bears any of the
    identifiers named (in particular when none is named), in a store that
    holds a conversation: nothing changes, nothing is aborted, and the
    identifier returned is that of the first conversation. *)
Theorem deleteConversations_none_borne
    (conversationIds : list DConversationId)
    (newConversationPersonaId : option SystemPurposeId) (s : Sys)
    (first : DConversation) (others : list DConversation)
    (Hstore : conversations (chat s) = first :: others)
    (Hnone : forall c,
        In c (conversations (chat s)) ->
        ~ In (DConversation.id c) conversationIds) :
  deleteConversations conversationIds newConversationPersonaId s
  = (Some (DConversation.id first), s).
Proof.
  rewrite deleteConversations_run.
  assert (Hfind : forall conversationId,
             In conversationId conversationIds ->
             find (fun _c => String.eqb (DConversation.id _c) conversationId)
                  (conversations (chat s)) = None).
  { intros conversationId Hnamed.
    destruct (find _ _) as [c|] eqn:E; [|reflexivity].
    destruct (find_some _ _ E) as [Hc Hid]. apply String.eqb_eq in Hid.
    subst conversationId. now apply Hnone in Hc. }
  assert (Haborts : aborts_of conversationIds (conversations (chat s)) = []).
  { unfold aborts_of. induction conversationIds as [|x l IH];
      [reflexivity|].
    cbn [flat_map]. rewrite Hfind by now left. cbn [app].
    apply IH.
    - intros c Hc Hin. apply (Hnone c Hc). now right.
    - intros y Hy. apply Hfind. now right. }
  rewrite Haborts, traced_nil.
  rewrite filter_all.
  2: { intros c Hc. apply negb_true_iff, includes_not_In.
       now apply Hnone. }
  assert (Hidx : match conversationIds with
                 | [] => -1
                 | x :: _ =>
                     findIndex (fun _c => String.eqb (DConversation.id _c) x)
                               (conversations (chat s))
                 end = -1).
  { destruct conversationIds as [|x l]; [reflexivity|].
    apply findIndex_none. intros c Hc. apply String.eqb_neq.
    intros E. apply (Hnone c Hc). left. now symmetry. }
  rewrite Hidx, Hstore. cbn [andb Z.leb Z.compare id_at nth_error Z.to_nat
                             option_map].
  f_equal. rewrite <- Hstore. apply Sys_eta.
Qed.

(** ** Handles, personas and symbols *)

Lemma find_map_same_id (g : DConversation -> DConversation)
    (conversationId : DConversationId) (l : list DConversation) :
  (forall c, DConversation.id (g c) = DConversation.id c) ->
  find (fun _c => String.eqb conversationId (DConversation.id _c)) (map g l)
  = option_map g
      (find (fun _c => String.eqb conversationId (DConversation.id _c)) l).
Proof.
  intros Hg. induction l as [|c l IH]; simpl; [reflexivity|].
  rewrite Hg. destruct (String.eqb conversationId (DConversation.id c));
    [reflexivity | exact IH].
Qed.

(** X8.  Storing a handle and then aborting the conversation.  Every
    conversation bearing the identifier ends with a null handle and is
    otherwise as it was, the others are as they were, and the events are
    one abort of the handle stored for each conversation bearing the
    identifier: the handle that was replaced by setAbortController is not
    aborted.  The clock is not read and no identifier is drawn. *)
Theorem setAbortController_then_abortConversationTemp
    (conversationId : DConversationId) (controller : AbortController)
    (s : Sys) :
  let s' :=
    snd (abortConversationTemp conversationId
           (snd (setAbortController conversationId (Some controller) s))) in
  conversations (chat s')
  = map (fun c =>
           if String.eqb (DConversation.id c) conversationId
           then DConversation.mk (DConversation.id c)
                  (DConversation.messages c)
                  (DConversation.systemPurposeId c)
                  (DConversation.userTitle c) (DConversation.autoTitle c)
                  (DConversation.userSymbol c) (DConversation.tokenCount c)
                  (DConversation.created c) (DConversation.updated c) None
           else c)
        (conversations (chat s))
  /\ world s'
     = world
         (traced
            (flat_map
               (fun c =>
                  if String.eqb (DConversation.id c) conversationId
                  then [EvAbort controller] else [])
               (conversations (chat s)))
            s).
Proof.
  intros s'.
  assert (H1 : snd (setAbortController conversationId (Some controller) s)
               = mkSys
                   (mkChatState
                      (map (fun c =>
                              if String.eqb (DConversation.id c) conversationId
                              then DConversation.merge c
                                     (DConversation.mkPatch None None None
                                        None None None None
                                        (Some (Some controller)))
                              else c)
                           (conversations (chat s))))
                   (world s)).
  { unfold setAbortController.
    rewrite (_editConversation_traced conversationId _
               (fun _ => DConversation.mkPatch None None None None None None
                           None (Some (Some controller)))
               (fun _ => [])).
    - now rewrite flat_map_if_nil, traced_nil.
    - intros c s1 _ _. cbn [applyUpdate ret]. now rewrite traced_nil. }
  unfold s'. rewrite H1. set (s1 := mkSys _ (world s)).
  unfold abortConversationTemp.
  rewrite (_editConversation_traced conversationId _
             (fun _ => DConversation.mkPatch None None None None None None
                         None (Some None))
             (fun c => match DConversation.abortController c with
                       | Some h => [EvAbort h]
                       | None => []
                       end)).
  2: { intros c s2 _ _. cbn [applyUpdate]. run_bind.
       rewrite abort_traced. reflexivity. }
  unfold s1. cbn [chat conversations world traced]. split.
  - rewrite map_map. apply map_ext. intros c.
    destruct (String.eqb (DConversation.id c) conversationId) eqn:E.
    + cbn [DConversation.merge DConversation.id DMessage.or_else
           DConversation.p_messages DConversation.p_systemPurposeId
           DConversation.p_userTitle DConversation.p_autoTitle
           DConversation.p_userSymbol DConversation.p_tokenCount
           DConversation.p_updated DConversation.p_abortController].
      rewrite E. reflexivity.
    + now rewrite E.
  - f_equal. f_equal. rewrite flat_map_concat_map, map_map.
    rewrite <- flat_map_concat_map. apply flat_map_ext. intros c.
    destruct (String.eqb (DConversation.id c) conversationId) eqn:E.
    + cbn [DConversation.merge DConversation.id]. rewrite E. reflexivity.
    + now rewrite E.
Qed.

(** X9.  Setting the persona of a conversation and reading it back.  When
    the identifier and the persona are not empty and some conversation
    bears the identifier, getConversationSystemPurposeId after
    setSystemPurposeId returns the persona that was set; the world is not
    touched by either. *)
Theorem setSystemPurposeId_then_getConversationSystemPurposeId
    (conversationId : DConversationId) (personaId : SystemPurposeId)
    (s : Sys) (c : DConversation)
    (Hid : conversationId <> "")
    (Hpersona : personaId <> "")
    (Hthere : In c (conversations (chat s)))
    (Hbears : DConversation.id c = conversationId) :
  let s' := snd (setSystemPurposeId conversationId personaId s) in
  getConversationSystemPurposeId (Some conversationId) s'
  = (Some personaId, s')
  /\ world s' = world s.
Proof.
  intros s'. unfold s', setSystemPurposeId.
  rewrite (_editConversation_traced conversationId _
             (fun _ => DConversation.mkPatch None (Some personaId) None None
                         None None None None)
             (fun _ => [])).
  2: { intros c0 s1 _ _. cbn [applyUpdate ret]. now rewrite traced_nil. }
  rewrite flat_map_if_nil, traced_nil. split; [|reflexivity].
  unfold getConversationSystemPurposeId. run_bind.
  rewrite getConversation_run by exact Hid. cbn [fst snd chat conversations].
  rewrite find_map_same_id
    by (intros c0; destruct (String.eqb _ _); reflexivity).
  destruct (find _ (conversations (chat s))) as [c1|] eqn:E.
  - destruct (find_some _ _ E) as [_ E1]. apply String.eqb_eq in E1.
    cbn [option_map]. rewrite <- E1, String.eqb_refl.
    cbn [DConversation.merge DConversation.systemPurposeId DMessage.or_else
         DConversation.p_systemPurposeId].
    unfold truthyS. apply String.eqb_neq in Hpersona. rewrite Hpersona.
    reflexivity.
  - exfalso. apply (find_none _ _ E) in Hthere.
    rewrite Hbears, String.eqb_refl in Hthere. discriminate.
Qed.

(** X10.  setUserSymbol stores a symbol that is not empty and unsets the
    symbol when handed null or the empty string.  Nothing else changes in
    the conversations bearing the identifier (their [updated] stamp
    included), the others are as they were, and the world is not
    touched. *)
Theorem setUserSymbol_normalises
    (conversationId : DConversationId) (userSymbol : option string)
    (s : Sys) :
  let s' := snd (setUserSymbol conversationId userSymbol s) in
  let stored :=
    match userSymbol with
    | Some symbol => if String.eqb symbol "" then None else Some symbol
    | None => None
    end in
  conversations (chat s')
  = map (fun c =>
           if String.eqb (DConversation.id c) conversationId
           then DConversation.mk (DConversation.id c)
                  (DConversation.messages c)
                  (DConversation.systemPurposeId c)
                  (DConversation.userTitle c) (DConversation.autoTitle c)
                  stored (DConversation.tokenCount c)
                  (DConversation.created c) (DConversation.updated c)
                  (DConversation.abortController c)
           else c)
        (conversations (chat s))
  /\ world s' = world s.
Proof.
  intros s' stored. unfold s', setUserSymbol.
  rewrite (_editConversation_traced conversationId _
             (fun _ => DConversation.mkPatch None None None None
                         (Some (if truthyOS userSymbol then userSymbol
                                else None))
                         None None None)
             (fun _ => [])).
  2: { intros c0 s1 _ _. cbn [applyUpdate ret]. now rewrite traced_nil. }
  rewrite flat_map_if_nil, traced_nil. split; [|reflexivity].
  cbn [chat conversations]. apply map_ext. intros c.
  destruct (String.eqb (DConversation.id c) conversationId); [|reflexivity].
  unfold stored, DConversation.merge.
  cbn [DMessage.or_else DConversation.p_messages
       DConversation.p_systemPurposeId DConversation.p_userTitle
       DConversation.p_autoTitle DConversation.p_userSymbol
       DConversation.p_tokenCount DConversation.p_updated
       DConversation.p_abortController].
  destruct userSymbol as [symbol|]; cbn [truthyOS]; [|reflexivity].
  unfold truthyS. destruct (String.eqb symbol ""); reflexivity.
Qed.

(** ** Editing a message *)

(** What the callback of [editMessage] does to a message, for an update
    whose patch [f m] does not depend on the state and which only writes to
    the console. *)
Lemma editMessage_map_edited (messageId : DMessageId)
    (update : Update DMessage DMessage.patch)
    (f : DMessage -> DMessage.patch)
    (removePendingState touchUpdated : bool) (m : DMessage) (s1 : Sys) :
  (forall m0 s0, fst (applyUpdate update m0 s0) = f m0
                 /\ logs_only s0 (snd (applyUpdate update m0 s0))) ->
  let r :=
    editMessage_map messageId update removePendingState touchUpdated m s1 in
  evolves s1 (snd r)
  /\ (if String.eqb (DMessage.id m) messageId
      then
        exists stamp,
          fst r = edited (chatLLMId (world s1)) (f m) removePendingState
                    stamp m
          /\ (if touchUpdated
              then exists t,
                     (ticks (world s1) <= t < ticks (world (snd r)))%nat
                     /\ stamp = Some (clock t)
              else stamp = None)
      else fst r = m).
Proof.
  intros Hu r. unfold r, editMessage_map.
  destruct (String.eqb (DMessage.id m) messageId) eqn:Hid; cbn [negb].
  2: { cbn [ret fst snd]. split; [apply evolves_refl | reflexivity]. }
  run_bind. destruct (Hu m s1) as [Hf L0]. rewrite Hf.
  set (s2 := snd (applyUpdate update m s1)) in *.
  pose proof L0 as (_ & T0 & _ & Llm0 & _).
  set (stamped := if touchUpdated
                  then (now <- Date_now ;;
                        ret (DMessage.set_updated (Some now)
                               (DMessage.merge m (f m))))
                  else ret (DMessage.merge m (f m))).
  assert (Hstamp :
            exists stamp,
              fst (stamped s2)
              = match stamp with
                | Some now =>
                    DMessage.set_updated (Some now) (DMessage.merge m (f m))
                | None => DMessage.merge m (f m)
                end
              /\ logs_only s1
                   (mkSys (chat (snd (stamped s2)))
                      (mkWorld (ticks (world s1))
                         (draws (world (snd (stamped s2))))
                         (chatLLMId (world (snd (stamped s2))))
                         (trace (world (snd (stamped s2))))))
              /\ (if touchUpdated
                  then ticks (world (snd (stamped s2))) = S (ticks (world s1))
                       /\ stamp = Some (clock (ticks (world s1)))
                  else ticks (world (snd (stamped s2))) = ticks (world s1)
                       /\ stamp = None)).
  { unfold stamped. destruct touchUpdated.
    - run_bind. unfold Date_now. rewrite liftW_run. cbn [ret fst snd].
      exists (Some (clock (ticks (world s2)))). rewrite T0.
      split; [reflexivity|]. split; [|auto].
      destruct L0 as (C & _ & D & Llm & more & E).
      unfold logs_only. cbn [chat world ticks draws chatLLMId trace].
      repeat split; auto. now exists more.
    - cbn [ret fst snd]. exists None. split; [reflexivity|].
      split; [|auto].
      destruct L0 as (C & T & D & Llm & more & E).
      unfold logs_only. cbn [chat world ticks draws chatLLMId trace].
      repeat split; auto. now exists more. }
  destruct Hstamp as (stamp & V3 & L3 & T3).
  set (m3 := fst (stamped s2)) in *. set (s3 := snd (stamped s2)) in *.
  assert (Llm3 : chatLLMId (world s3) = chatLLMId (world s1))
    by (destruct L3 as (_ & _ & _ & H & _); exact H).
  assert (E3 : evolves s1 s3).
  { destruct L3 as (_ & _ & D & Llm & more & E). cbn in D, Llm, E.
    unfold evolves. repeat split; auto; try lia.
    - destruct touchUpdated; destruct T3 as [T3 _]; lia.
    - now exists more. }
  set (m4 := if removePendingState
             then DMessage.set_pendingIncomplete None m3 else m3).
  assert (Hedited : forall final : Sys,
             ticks (world final) = ticks (world s3) ->
             exists stamp0,
               (if negb (truthyOB (DMessage.pendingIncomplete m4))
                then refresh (chatLLMId (world s1)) true
                       "editMessage(incomplete=false)" m4
                else m4)
               = edited (chatLLMId (world s1)) (f m) removePendingState
                   stamp0 m
               /\ (if touchUpdated
                   then exists t,
                          (ticks (world s1) <= t < ticks (world final))%nat
                          /\ stamp0 = Some (clock t)
                   else stamp0 = None)).
  { intros final Tf. exists stamp. split.
    - unfold edited. rewrite <- V3. reflexivity.
    - destruct touchUpdated; destruct T3 as [T3 ->]; [|reflexivity].
      exists (ticks (world s1)). split; [lia | reflexivity]. }
  destruct (negb (truthyOB (DMessage.pendingIncomplete m4))).
  - run_bind. rewrite getChatLLMId_run. cbn [fst snd].
    rewrite updateMessageTokenCount_value. cbv iota beta. cbn [ret fst snd].
    assert (Lu := updateMessageTokenCount_logs m4 (chatLLMId (world s3)) true
                    "editMessage(incomplete=false)" s3).
    set (s4 := snd (updateMessageTokenCount m4 (chatLLMId (world s3)) true
                      "editMessage(incomplete=false)" s3)) in *.
    pose proof Lu as (_ & T4 & _).
    split; [eapply evolves_trans;
              [exact E3 | apply logs_only_evolves; exact Lu]|].
    rewrite Llm3. apply Hedited. exact T4.
  - cbn [ret fst snd]. split; [exact E3|]. now apply Hedited.
Qed.

(** The same for every message of every conversation of the store. *)
Lemma editMessage_edited (conversationId : DConversationId)
    (messageId : DMessageId) (update : Update DMessage DMessage.patch)
    (f : DMessage -> DMessage.patch)
    (removePendingState touchUpdated : bool) (s : Sys) :
  (forall m0 s0, fst (applyUpdate update m0 s0) = f m0
                 /\ logs_only s0 (snd (applyUpdate update m0 s0))) ->
  let s' :=
    snd (editMessage conversationId messageId update removePendingState
           touchUpdated s) in
  Forall2
    (fun c c' =>
       if String.eqb (DConversation.id c) conversationId
       then
         DConversation.id c' = DConversation.id c
         /\ DConversation.tokenCount c'
            = reduceTokenCount (DConversation.messages c')
         /\ Forall2
              (fun m m' =>
                 if String.eqb (DMessage.id m) messageId
                 then
                   exists stamp,
                     m' = edited (chatLLMId (world s)) (f m)
                            removePendingState stamp m
                     /\ (if touchUpdated
                         then exists t,
                                (ticks (world s) <= t < ticks (world s'))%nat
                                /\ stamp = Some (clock t)
                         else stamp = None)
                 else m' = m)
              (DConversation.messages c) (DConversation.messages c')
       else c' = c)
    (conversations (chat s)) (conversations (chat s')).
Proof.
  intros Hu s'. unfold s', editMessage.
  set (Rm := fun (s1 s2 : Sys) (m m' : DMessage) =>
               if String.eqb (DMessage.id m) messageId
               then
                 exists stamp,
                   m' = edited (chatLLMId (world s)) (f m)
                          removePendingState stamp m
                   /\ (if touchUpdated
                       then exists t,
                              (ticks (world s1) <= t < ticks (world s2))%nat
                              /\ stamp = Some (clock t)
                       else stamp = None)
               else m' = m).
  assert (Hwiden : forall s1 s2 s1' s2' m m',
             evolves s1' s1 -> evolves s2 s2' ->
             Rm s1 s2 m m' -> Rm s1' s2' m m').
  { intros s1 s2 s1' s2' m m' (_ & T1 & _) (_ & T2 & _). unfold Rm.
    destruct (String.eqb (DMessage.id m) messageId); [|auto].
    intros (stamp & Hm & Hs). exists stamp. split; [exact Hm|].
    destruct touchUpdated; [|exact Hs].
    destruct Hs as (t & Ht & Hs). exists t. split; [lia | exact Hs]. }
  apply (_editConversation_Forall2 conversationId _
           (fun s1 s2 c c' =>
              DConversation.id c' = DConversation.id c
              /\ DConversation.tokenCount c'
                 = reduceTokenCount (DConversation.messages c')
              /\ Forall2 (Rm s1 s2)
                   (DConversation.messages c) (DConversation.messages c'))).
  - intros c s1 Hin Hid Hs1. cbn [applyUpdate].
    destruct (editMessage_patch messageId update removePendingState
                touchUpdated c s1) as [Hmsgs Hafter].
    destruct (mapM_Forall2
                (editMessage_map messageId update removePendingState
                   touchUpdated)
                Rm (DConversation.messages c) s1) as [Hmapped HR].
    { intros m s2 Hm Hs2.
      destruct (editMessage_map_edited messageId update f removePendingState
                  touchUpdated m s2 Hu) as [He Hr].
      split; [exact He|]. unfold Rm.
      destruct (String.eqb (DMessage.id m) messageId); [|exact Hr].
      destruct Hr as (stamp & Hr & Hst). exists stamp.
      split; [|exact Hst].
      rewrite Hr. f_equal.
      destruct Hs1 as (L1 & _). destruct Hs2 as (L2 & _). congruence. }
    { exact Hwiden. }
    split; [eapply evolves_trans; eauto|].
    split; [reflexivity|]. split.
    + unfold editMessage_update. run_bind.
      destruct touchUpdated; run_bind; reflexivity.
    + rewrite Hmsgs. eapply Forall2_impl; [|exact HR].
      intros m m'. apply Hwiden; [apply evolves_refl | exact Hafter].
  - intros s1 s2 s1' s2' c c' E1 E2 (Hi & Hc & H).
    split; [exact Hi|]. split; [exact Hc|].
    eapply Forall2_impl; [|exact H]. intros m m'. now apply Hwiden.
Qed.

Lemma edited_fields (llmId : option DLLMId) (p : DMessage.patch)
    (removePendingState : bool) (stamp : option Z) (m : DMessage) :
  let m' := edited llmId p removePendingState stamp m in
  DMessage.id m' = DMessage.id m
  /\ DMessage.fragments m' = DMessage.fragments (DMessage.merge m p)
  /\ DMessage.pendingIncomplete m'
     = (if removePendingState then None
        else DMessage.pendingIncomplete (DMessage.merge m p))
  /\ DMessage.tokenCount m'
     = (if truthyOB (DMessage.pendingIncomplete m')
        then DMessage.tokenCount (DMessage.merge m p)
        else recount llmId "editMessage(incomplete=false)" m').
Proof.
  unfold edited.
  assert (Hid : DMessage.id (DMessage.merge m p) = DMessage.id m)
    by reflexivity.
  remember (DMessage.merge m p) as m1 eqn:Hm1. clear Hm1.
  destruct stamp, removePendingState; cbn;
    try (destruct (truthyOB (DMessage.pendingIncomplete m1)) eqn:E; cbn);
    rewrite ?E; auto.
Qed.

(** Where [editMessage] leaves the fragments, for an update as above. *)
Lemma editMessage_fragments (conversationId : DConversationId)
    (messageId : DMessageId) (update : Update DMessage DMessage.patch)
    (f : DMessage -> DMessage.patch)
    (removePendingState touchUpdated : bool) (s : Sys) :
  (forall m0 s0, fst (applyUpdate update m0 s0) = f m0
                 /\ logs_only s0 (snd (applyUpdate update m0 s0))) ->
  Forall2
    (fun c c' =>
       DConversation.id c' = DConversation.id c
       /\ if String.eqb (DConversation.id c) conversationId
          then
            Forall2
              (fun m m' =>
                 DMessage.id m' = DMessage.id m
                 /\ if String.eqb (DMessage.id m) messageId
                    then DMessage.fragments m'
                         = DMessage.fragments (DMessage.merge m (f m))
                    else m' = m)
              (DConversation.messages c) (DConversation.messages c')
          else c' = c)
    (conversations (chat s))
    (conversations
       (chat (snd (editMessage conversationId messageId update
                     removePendingState touchUpdated s)))).
Proof.
  intros Hu.
  eapply Forall2_impl;
    [|exact (editMessage_edited conversationId messageId update f
               removePendingState touchUpdated s Hu)].
  cbv beta. intros c c'.
  destruct (String.eqb (DConversation.id c) conversationId);
    [|intros ->; auto].
  intros (Hid & _ & Hm). split; [exact Hid|].
  eapply Forall2_impl; [|exact Hm]. cbv beta. intros m m'.
  destruct (String.eqb (DMessage.id m) messageId); [|intros ->; auto].
  intros (stamp & -> & _).
  destruct (edited_fields (chatLLMId (world s)) (f m) removePendingState
              stamp m) as (Hi & Hf & _).
  auto.
Qed.

(** X11.  The fold invariant after an edit of a message.  Whatever the
    update and the flags, after editMessage every conversation bearing the
    identifier has a tokenCount of 3 plus the sum over its messages of 4
    plus the message's tokenCount.  appendMessageFragment,
    deleteMessageFragment and replaceMessageFragment are calls of
    editMessage, so the same holds after them. *)
Theorem editMessage_fold_invariant
    (conversationId : DConversationId) (messageId : DMessageId)
    (update : Update DMessage DMessage.patch)
    (removePendingState touchUpdated : bool) (s : Sys) :
  Forall
    (fun c =>
       DConversation.id c = conversationId ->
       DConversation.tokenCount c = 3 + sumTokens (DConversation.messages c))
    (conversations
       (chat (snd (editMessage conversationId messageId update
                     removePendingState touchUpdated s)))).
Proof.
  assert (H : Forall2
            (fun c c' =>
               if String.eqb (DConversation.id c) conversationId
               then DConversation.id c' = conversationId
                    /\ DConversation.tokenCount c'
                       = reduceTokenCount (DConversation.messages c')
               else c' = c)
            (conversations (chat s))
            (conversations
               (chat (snd (editMessage conversationId messageId update
                             removePendingState touchUpdated s))))).
  { unfold editMessage. apply _editConversation_Forall2_pure.
    intros c s1 Hin Hid. cbn [applyUpdate]. unfold editMessage_update.
    run_bind. destruct touchUpdated; run_bind; cbn [ret fst]; auto. }
  apply Forall_forall. intros c' Hin' Hid'.
  destruct (Forall2_In_r H Hin') as (c & Hin & Hc).
  destruct (String.eqb (DConversation.id c) conversationId) eqn:E.
  - destruct Hc as [_ ->]. apply reduceTokenCount_sum.
  - subst c'. apply String.eqb_neq in E. contradiction.
Qed.

(** X12.  The pending mark and the count of an edited message, for an
    update whose patch does not depend on the state and which only writes
    to the console.  In every conversation bearing the conversation
    identifier, a message bearing the message identifier ends with the
    fragments of the patched message; its pending mark is removed when
    removePendingState is set and is that of the patched message
    otherwise; and its count is derived anew from its fragments (the
    estimate under the configured model, or 0) unless it is still pending,
    in which case the count of the patched message is kept. *)
Theorem editMessage_pending_and_count
    (conversationId : DConversationId) (messageId : DMessageId)
    (update : Update DMessage DMessage.patch)
    (f : DMessage -> DMessage.patch)
    (removePendingState touchUpdated : bool) (s : Sys)
    (Hupdate : forall m0 s0,
        fst (applyUpdate update m0 s0) = f m0
        /\ logs_only s0 (snd (applyUpdate update m0 s0))) :
  Forall2
    (fun c c' =>
       if String.eqb (DConversation.id c) conversationId
       then
         Forall2
           (fun m m' =>
              if String.eqb (DMessage.id m) messageId
              then
                DMessage.fragments m'
                = DMessage.fragments (DMessage.merge m (f m))
                /\ DMessage.pendingIncomplete m'
                   = (if removePendingState then None
                      else DMessage.pendingIncomplete
                             (DMessage.merge m (f m)))
                /\ DMessage.tokenCount m'
                   = (if truthyOB (DMessage.pendingIncomplete m')
                      then DMessage.tokenCount (DMessage.merge m (f m))
                      else recount (chatLLMId (world s))
                             "editMessage(incomplete=false)" m')
              else m' = m)
           (DConversation.messages c) (DConversation.messages c')
       else c' = c)
    (conversations (chat s))
    (conversations
       (chat (snd (editMessage conversationId messageId update
                     removePendingState touchUpdated s)))).
Proof.
  eapply Forall2_impl;
    [|exact (editMessage_edited conversationId messageId update f
               removePendingState touchUpdated s Hupdate)].
  cbv beta. intros c c'.
  destruct (String.eqb (DConversation.id c) conversationId); [|auto].
  intros (_ & _ & Hm). eapply Forall2_impl; [|exact Hm].
  cbv beta. intros m m'.
  destruct (String.eqb (DMessage.id m) messageId); [|auto].
  intros (stamp & -> & _).
  destruct (edited_fields (chatLLMId (world s)) (f m) removePendingState
              stamp m) as (_ & Hf & Hp & Hc).
  auto.
Qed.

(** ** Appending, deleting and replacing fragments *)

Lemma eqOS_true_iff (a : option string) (b : string) :
  eqOS a b = true <-> a = Some b.
Proof.
  destruct a as [x|]; simpl; [|split; discriminate].
  rewrite String.eqb_eq. split; congruence.
Qed.

Lemma pure_update_logs (f : DMessage -> DMessage.patch) :
  forall m0 s0,
    fst (applyUpdate (PatchFn (fun message => ret (f message))) m0 s0) = f m0
    /\ logs_only s0
         (snd (applyUpdate (PatchFn (fun message => ret (f message))) m0 s0)).
Proof. intros m0 s0. cbn. split; [reflexivity | apply logs_only_refl]. Qed.

(** X13.  Appending a fragment to a message and deleting it again.  When
    the fragment bears an identifier that no fragment of the message
    bears, appendMessageFragment followed by deleteMessageFragment with
    that identifier gives every message bearing the message identifier, in
    every conversation bearing the conversation identifier, the fragments
    it had, whatever the flags of the two calls.  The other messages and
    the other conversations are as they were. *)
Theorem appendMessageFragment_then_deleteMessageFragment
    (conversationId : DConversationId) (messageId : DMessageId)
    (fragment : DMessageFragment) (fragmentId : DMessageFragmentId)
    (removePendingState1 touchUpdated1 : bool)
    (removePendingState2 touchUpdated2 : bool) (s : Sys)
    (Hbears : DMessageFragment.fId fragment = Some fragmentId)
    (Hfresh : forall c m f,
        In c (conversations (chat s)) ->
        DConversation.id c = conversationId ->
        In m (DConversation.messages c) ->
        DMessage.id m = messageId ->
        In f (DMessage.fragments m) ->
        DMessageFragment.fId f <> Some fragmentId) :
  let s' :=
    snd (deleteMessageFragment conversationId messageId fragmentId
           removePendingState2 touchUpdated2
           (snd (appendMessageFragment conversationId messageId fragment
                   removePendingState1 touchUpdated1 s))) in
  Forall2
    (fun c c' =>
       if String.eqb (DConversation.id c) conversationId
       then
         Forall2
           (fun m m' =>
              if String.eqb (DMessage.id m) messageId
              then DMessage.fragments m' = DMessage.fragments m
                   /\ DMessage.id m' = DMessage.id m
              else m' = m)
           (DConversation.messages c) (DConversation.messages c')
       else c' = c)
    (conversations (chat s)) (conversations (chat s')).
Proof.
  intros s'. unfold s', appendMessageFragment, deleteMessageFragment.
  set (fa := fun message : DMessage =>
               fragmentsPatch (DMessage.fragments message ++ [fragment])).
  set (fd := fun message : DMessage =>
               fragmentsPatch
                 (filter (fun f => negb (eqOS (DMessageFragment.fId f)
                                              fragmentId))
                         (DMessage.fragments message))).
  set (s1 := snd (editMessage conversationId messageId
                    (PatchFn (fun message => ret (fa message)))
                    removePendingState1 touchUpdated1 s)).
  assert (H1 := editMessage_fragments conversationId messageId _ fa
                  removePendingState1 touchUpdated1 s (pure_update_logs fa)).
  assert (H2 := editMessage_fragments conversationId messageId _ fd
                  removePendingState2 touchUpdated2 s1 (pure_update_logs fd)).
  fold s1 in H1.
  assert (H := Forall2_compose _ _ _ _ _ H1 H2).
  eapply Forall2_impl_In; [|exact H].
  cbv beta. intros c c' Hin (c1 & (Hid1 & Hc1) & (Hid2 & Hc2)).
  rewrite Hid1 in Hc2.
  destruct (String.eqb (DConversation.id c) conversationId) eqn:E;
    [|congruence].
  apply String.eqb_eq in E.
  assert (Hm := Forall2_compose _ _ _ _ _ Hc1 Hc2).
  eapply Forall2_impl_In; [|exact Hm].
  cbv beta. intros m m' Hmin (m1 & (Hi1 & Hm1) & (Hi2 & Hm2)).
  rewrite Hi1 in Hm2.
  destruct (String.eqb (DMessage.id m) messageId) eqn:Em; [|congruence].
  apply String.eqb_eq in Em. split; [|congruence].
  rewrite Hm2. unfold fd. cbn [DMessage.merge DMessage.fragments
    DMessage.or_else DMessage.p_fragments fragmentsPatch].
  rewrite Hm1. unfold fa. cbn [DMessage.merge DMessage.fragments
    DMessage.or_else DMessage.p_fragments fragmentsPatch].
  rewrite filter_app. cbn [filter].
  replace (eqOS (DMessageFragment.fId fragment) fragmentId) with true
    by (symmetry; now apply eqOS_true_iff).
  cbn [negb]. rewrite app_nil_r. apply filter_all.
  intros f Hf. apply negb_true_iff, eqOS_false. eauto.
Qed.

Lemma mapi_from_replace {A : Type} (new : A) (before after : list A)
    (old : A) (i0 : Z) :
  mapi_from i0
    (fun x index =>
       if (index =? i0 + Z.of_nat (List.length before))%Z then new else x)
    (before ++ old :: after)
  = (before ++ new :: after)%list.
Proof.
  revert i0. induction before as [|y l IH]; intros i0.
  - cbn [app List.length mapi_from Z.of_nat]. rewrite Z.add_0_r, Z.eqb_refl.
    f_equal.
    assert (Hj : forall k, (i0 < k)%Z ->
              mapi_from k (fun (x : A) index =>
                             if (index =? i0)%Z then new else x) after
              = after).
    { induction after as [|z t IHt]; intros k Hk; [reflexivity|].
      cbn [mapi_from]. replace (k =? i0)%Z with false
        by (symmetry; apply Z.eqb_neq; lia).
      f_equal. apply IHt. lia. }
    apply Hj. lia.
  - cbn [app List.length mapi_from].
    replace (i0 =? i0 + Z.of_nat (S (List.length l)))%Z with false
      by (symmetry; apply Z.eqb_neq; lia).
    f_equal.
    replace (i0 + Z.of_nat (S (List.length l)))
      with (i0 + 1 + Z.of_nat (List.length l)) by lia.
    apply IH.
Qed.

Lemma replaceMessageFragment_update_logs (fragmentId : DMessageFragmentId)
    (newFragment : DMessageFragment) :
  forall m0 s0,
    fst (applyUpdate
           (PatchFn (replaceMessageFragment_update fragmentId newFragment))
           m0 s0)
    = replaced fragmentId newFragment m0
    /\ logs_only s0
         (snd (applyUpdate
                 (PatchFn (replaceMessageFragment_update fragmentId
                             newFragment))
                 m0 s0)).
Proof.
  intros m0 s0. cbn [applyUpdate].
  unfold replaceMessageFragment_update, replaced.
  destruct (findIndex _ (DMessage.fragments m0) <? 0)%Z.
  - run_bind. cbn [ret fst snd]. split; [reflexivity|].
    apply logs_only_emit.
  - cbn [ret fst snd]. split; [reflexivity | apply logs_only_refl].
Qed.

(** X14.  replaceMessageFragment replaces one fragment: the first that
    bears the identifier.  In every conversation bearing the conversation
    identifier, a message bearing the message identifier whose fragments
    are some fragments not bearing the fragment identifier, then one that
    bears it, then any others (bearing it or not), ends with the same
    fragments but for that one, which is the new fragment as handed in.
    The other messages and the other conversations are as they were. *)
Theorem replaceMessageFragment_replaces_the_first
    (conversationId : DConversationId) (messageId : DMessageId)
    (fragmentId : DMessageFragmentId) (newFragment : DMessageFragment)
    (removePendingState touchUpdated : bool) (s : Sys) :
  Forall2
    (fun c c' =>
       if String.eqb (DConversation.id c) conversationId
       then
         Forall2
           (fun m m' =>
              if String.eqb (DMessage.id m) messageId
              then
                forall before old after,
                  DMessage.fragments m = (before ++ old :: after)%list ->
                  DMessageFragment.fId old = Some fragmentId ->
                  (forall x, In x before ->
                             DMessageFragment.fId x <> Some fragmentId) ->
                  DMessage.fragments m'
                  = (before ++ newFragment :: after)%list
              else m' = m)
           (DConversation.messages c) (DConversation.messages c')
       else c' = c)
    (conversations (chat s))
    (conversations
       (chat (snd (replaceMessageFragment conversationId messageId
                     fragmentId newFragment removePendingState touchUpdated
                     s)))).
Proof.
  unfold replaceMessageFragment.
  eapply Forall2_impl;
    [|exact (editMessage_fragments conversationId messageId _
               (replaced fragmentId newFragment)
               removePendingState touchUpdated s
               (replaceMessageFragment_update_logs fragmentId newFragment))].
  cbv beta. intros c c' (_ & Hc).
  destruct (String.eqb (DConversation.id c) conversationId); [|exact Hc].
  eapply Forall2_impl; [|exact Hc]. cbv beta. intros m m' (_ & Hm).
  destruct (String.eqb (DMessage.id m) messageId); [|exact Hm].
  intros before old after Hfr Hold Hbefore. rewrite Hm.
  unfold replaced. rewrite Hfr.
  rewrite (findIndex_found _ before after old).
  - replace (Z.of_nat (List.length before) <? 0)%Z with false
      by (symmetry; apply Z.ltb_ge; lia).
    cbn [DMessage.merge DMessage.fragments DMessage.or_else
         DMessage.p_fragments fragmentsPatch].
    unfold mapi.
    apply (mapi_from_replace newFragment before after old 0).
  - intros y Hy. apply eqOS_false. now apply Hbefore.
  - now apply eqOS_true_iff.
Qed.

(** X15.  deleteMessageFragment deletes every fragment that bears the
    identifier, not only the first.  In every conversation bearing the
    conversation identifier, a message bearing the message identifier ends
    with its fragments that do not bear the fragment identifier, in their
    order: a fragment is in the message afterwards exactly when it was
    there before and does not bear the identifier.  With an identifier that
    no fragment bears, the fragments are as they were.  The other messages
    and the other conversations are as they were. *)
Theorem deleteMessageFragment_deletes_every_bearer
    (conversationId : DConversationId) (messageId : DMessageId)
    (fragmentId : DMessageFragmentId)
    (removePendingState touchUpdated : bool) (s : Sys) :
  Forall2
    (fun c c' =>
       if String.eqb (DConversation.id c) conversationId
       then
         Forall2
           (fun m m' =>
              if String.eqb (DMessage.id m) messageId
              then
                DMessage.fragments m'
                = filter (fun f => negb (eqOS (DMessageFragment.fId f)
                                              fragmentId))
                         (DMessage.fragments m)
                /\ (forall f,
                      In f (DMessage.fragments m')
                      <-> In f (DMessage.fragments m)
                          /\ DMessageFragment.fId f <> Some fragmentId)
                /\ ((forall f, In f (DMessage.fragments m) ->
                               DMessageFragment.fId f <> Some fragmentId) ->
                    DMessage.fragments m' = DMessage.fragments m)
              else m' = m)
           (DConversation.messages c) (DConversation.messages c')
       else c' = c)
    (conversations (chat s))
    (conversations
       (chat (snd (deleteMessageFragment conversationId messageId
                     fragmentId removePendingState touchUpdated s)))).
Proof.
  unfold deleteMessageFragment.
  set (fd := fun message : DMessage =>
               fragmentsPatch
                 (filter (fun f => negb (eqOS (DMessageFragment.fId f)
                                              fragmentId))
                         (DMessage.fragments message))).
  eapply Forall2_impl;
    [|exact (editMessage_fragments conversationId messageId _ fd
               removePendingState touchUpdated s (pure_update_logs fd))].
  cbv beta. intros c c' (_ & Hc).
  destruct (String.eqb (DConversation.id c) conversationId); [|exact Hc].
  eapply Forall2_impl; [|exact Hc]. cbv beta. intros m m' (_ & Hm).
  destruct (String.eqb (DMessage.id m) messageId); [|exact Hm].
  assert (Hf : DMessage.fragments m'
               = filter (fun f => negb (eqOS (DMessageFragment.fId f)
                                             fragmentId))
                        (DMessage.fragments m)) by exact Hm.
  split; [exact Hf|]. split.
  - intros f. rewrite Hf, filter_In, negb_true_iff.
    split; intros [Hin Hb]; (split; [exact Hin|]).
    + intros E. apply eqOS_true_iff in E. congruence.
    + now apply eqOS_false.
  - intros Hnone. rewrite Hf. apply filter_all. intros f Hin.
    apply negb_true_iff, eqOS_false. now apply Hnone.
Qed.

(** ** Loading, in general *)

Lemma mapM_same_length {A B : Type} (f : A -> M B) (l : list A) (s : Sys) :
  List.length (fst (mapM f l s)) = List.length l.
Proof.
  revert s. induction l as [|x l IH]; intros s; simpl; [reflexivity|].
  run_bind. cbn [ret fst List.length]. now rewrite IH.
Qed.

(** X16.  What loading never changes.  Whatever the state read back and
    whatever the generator and the constructor of error fragments do,
    onRehydrateStorage returns as many conversations, each with a null
    handle and otherwise as stored but for its messages; each conversation
    has as many messages, each with its pending and typing marks removed
    and otherwise as stored but for its fragments (its cached count is not
    derived anew); and each message has as many fragments. *)
Theorem onRehydrateStorage_keeps_the_shape
    (state : PersistedState) (s : Sys) :
  exists state',
    fst (onRehydrateStorage (Some state) s) = Some state'
    /\ Forall2
         (fun r c =>
            DConversation.abortController c = None
            /\ DConversation.strip
                 (DConversation.set_messages (DConversation.r_messages r) c)
               = r
            /\ Forall2
                 (fun m m' =>
                    DMessage.set_fragments (DMessage.fragments m) m'
                    = DMessage.set_typing None
                        (DMessage.set_pendingIncomplete None m)
                    /\ List.length (DMessage.fragments m')
                       = List.length (DMessage.fragments m))
                 (DConversation.r_messages r) (DConversation.messages c))
         (persisted_conversations state) (conversations state').
Proof.
  unfold onRehydrateStorage. run_bind. cbn [ret fst].
  eexists. split; [reflexivity|]. cbn [conversations].
  apply mapM_Forall2_pure. intros r s1 _. run_bind. cbn [ret fst].
  split; [reflexivity|]. split; [now destruct r|].
  cbn [DConversation.messages DConversation.set_messages
       DConversation.attach].
  apply mapM_Forall2_pure. intros m s2 _. unfold rehydrate_message.
  run_bind. cbn [ret fst]. split; [now destruct m|].
  cbn [DMessage.fragments DMessage.set_typing DMessage.set_pendingIncomplete
       DMessage.set_fragments].
  now rewrite !mapM_same_length.
Qed.

Lemma mapM_unchanged {A : Type} (f : A -> M A) (l : list A) (s : Sys) :
  (forall x s1, In x l -> f x s1 = (x, s1)) -> mapM f l s = (l, s).
Proof.
  intros Hf. rewrite (mapM_traced f (fun x => x) (fun _ => [])).
  - now rewrite map_id, flat_map_nil, traced_nil.
  - intros x s1 Hx. rewrite traced_nil. now apply Hf.
Qed.

(** X17.  Saving then loading a state in which nothing is to be repaired.
    When no message is marked as pending or typing and no fragment lacks
    an identifier, is a placeholder or names its asset under the former
    key, partialize followed by onRehydrateStorage gives back the
    conversations as they were, with null handles, and does not touch the
    world: no identifier is drawn. *)
Theorem partialize_onRehydrateStorage_nothing_to_repair
    (state : ChatState) (s : Sys)
    (Hclean : forall c m,
        In c (conversations state) ->
        In m (DConversation.messages c) ->
        DMessage.pendingIncomplete m = None
        /\ DMessage.typing m = None
        /\ forall f, In f (DMessage.fragments m) -> needs_repair f = false) :
  onRehydrateStorage (Some (partialize state)) s
  = (Some (mkChatState
             (map (fun c => DConversation.attach None (DConversation.strip c))
                  (conversations state))),
     s).
Proof.
  unfold onRehydrateStorage, partialize. cbn [persisted_conversations].
  run_bind.
  rewrite (mapM_traced _ (DConversation.attach None) (fun _ => [])).
  - rewrite flat_map_nil, traced_nil, map_map. cbn [ret fst snd].
    reflexivity.
  - intros r s1 Hr. rewrite traced_nil.
    apply in_map_iff in Hr. destruct Hr as (c & <- & Hc).
    run_bind.
    cbn [DConversation.messages DConversation.attach DConversation.strip
         DConversation.r_messages].
    rewrite (mapM_unchanged rehydrate_message).
    + reflexivity.
    + intros m s2 Hm. destruct (Hclean c m Hc Hm) as (Hp & Ht & Hf).
      unfold rehydrate_message. run_bind.
      rewrite (mapM_unchanged rehydrate_fragment)
        by (intros f s3 Hin; apply rehydrate_fragment_clean; auto).
      cbn [fst snd].
      rewrite (mapM_unchanged rehydrate_placeholder)
        by (intros f s3 Hin; apply rehydrate_placeholder_clean; auto).
      cbn [ret fst snd]. f_equal.
      destruct m. cbn in Hp, Ht. now subst.
Qed.

(** ** The selector of useConversation *)

Lemma find_findIndex {A : Type} (p : A -> bool) (l : list A) (x : A) :
  find p l = Some x ->
  exists i, findIndex p l = Z.of_nat i /\ nth_error l i = Some x.
Proof.
  induction l as [|y l IH]; simpl; [discriminate|].
  destruct (p y).
  - intros [= ->]. exists 0%nat. auto.
  - intros H. destruct (IH H) as (i & Hi & Hn). exists (S i).
    rewrite Hi. split; [|exact Hn].
    destruct (Z.of_nat i <? 0)%Z eqn:E; [apply Z.ltb_lt in E|]; lia.
Qed.

Lemma findIndex_ext {A : Type} (p q : A -> bool) (l : list A) :
  (forall x, p x = q x) -> findIndex p l = findIndex q l.
Proof.
  intros H. induction l as [|y l IH]; simpl; [reflexivity|].
  now rewrite H, IH.
Qed.

(** X18.  What the selector of useConversation reports.  For an
    identifier that is not empty and that a conversation bears, the title
    is that of the first conversation bearing it and the index reported is
    the place of that very conversation in the list.  For a null or empty
    identifier, or one that no conversation bears, there is no title, the
    conversation counts as empty and not as a developer's, and the index is
    -1.  When hasConversations is false and the store holds a conversation,
    that conversation is the only one, it has no messages, and its
    identifier is the one offered for recycling; and an identifier is
    offered for recycling only if it is that of the first conversation,
    which then has no messages. *)
Theorem useConversation_reports
    (conversationId : option DConversationId) (state : ChatState) :
  let v := useConversation conversationId state in
  let found :=
    find (fun _c => eqOS conversationId (DConversation.id _c))
         (conversations state) in
  (forall c,
     truthyOS conversationId = true -> found = Some c ->
     title v = Some (conversationTitle c)
     /\ (isEmpty v = true <-> DConversation.messages c = [])
     /\ exists i,
          conversationIdx v = Z.of_nat i
          /\ nth_error (conversations state) i = Some c)
  /\ (truthyOS conversationId = false \/ found = None ->
      title v = None /\ isEmpty v = true /\ isDeveloper v = false
      /\ conversationIdx v = -1)
  /\ (forall c others,
        hasConversations v = false -> conversations state = c :: others ->
        others = [] /\ DConversation.messages c = []
        /\ recycleNewConversationId v = Some (DConversation.id c))
  /\ (forall recycled,
        recycleNewConversationId v = Some recycled ->
        exists c others,
          conversations state = c :: others
          /\ DConversation.id c = recycled
          /\ DConversation.messages c = []).
Proof.
  intros v found. unfold v, useConversation.
  cbn [title isEmpty isDeveloper conversationIdx hasConversations
       recycleNewConversationId].
  fold found. split; [|split; [|split]].
  - intros c Ht Hf. rewrite Ht, Hf. cbn [option_map].
    split; [reflexivity|]. split.
    + destruct (DConversation.messages c); cbn; split; congruence.
    + destruct (find_findIndex _ _ _ Hf) as (i & Hi & Hn).
      exists i. split; [|exact Hn]. rewrite <- Hi.
      apply findIndex_ext. intros x.
      destruct (find_some _ _ Hf) as [_ Hc].
      destruct conversationId as [cid|]; [|discriminate].
      cbn [eqOS] in *. apply String.eqb_eq in Hc. rewrite <- Hc.
      apply String.eqb_sym.
  - intros [Ht | Hf].
    + rewrite Ht. auto.
    + rewrite Hf. destruct (truthyOS conversationId); auto.
  - intros c others Hh Hs. rewrite Hs in Hh |- *.
    destruct others as [|c2 others].
    + cbn in Hh.
      destruct (DConversation.messages c) as [|m l] eqn:E;
        [|discriminate]. cbn. auto.
    + cbn in Hh. discriminate.
  - intros recycled Hr.
    destruct (conversations state) as [|c others]; [discriminate|].
    destruct (DConversation.messages c) as [|m l] eqn:E;
      cbn in Hr; [|discriminate].
    injection Hr as <-. exists c, others. auto.
Qed.

(** ** The two folds *)

Lemma refresh_again (llmId : option DLLMId) (forceUpdate : bool)
    (debugFrom : string) (m : DMessage) :
  refresh llmId false debugFrom (refresh llmId forceUpdate debugFrom m)
  = refresh llmId forceUpdate debugFrom m.
Proof.
  unfold refresh at 2 3.
  destruct (forceUpdate || negb (truthyZ (DMessage.tokenCount m))) eqn:E.
  - unfold refresh. cbn [orb DMessage.tokenCount DMessage.set_tokenCount].
    destruct (negb (truthyZ (recount llmId debugFrom m))); reflexivity.
  - apply orb_false_iff in E. destruct E as [-> E].
    unfold refresh. now rewrite E.
Qed.

Lemma recount_nonnegative (llmId : option DLLMId) (debugFrom : string)
    (m : DMessage) :
  (forall fragments dllm full debug n,
     estimateTokensForFragments fragments dllm full debug = Some n ->
     0 <= n) ->
  0 <= recount llmId debugFrom m.
Proof.
  intros Hest. unfold recount.
  destruct llmId as [id|]; [|lia].
  destruct (truthyS id); [|lia].
  destruct (findLLMOrThrow id) as [dllm|]; [|lia].
  destruct (estimateTokensForFragments _ dllm false debugFrom) eqn:E; [|lia].
  eapply Hest; eauto.
Qed.

Lemma sumTokens_forced (llmId : option DLLMId) (debugFrom : string)
    (messages : list DMessage) :
  (forall fragments dllm full debug n,
     estimateTokensForFragments fragments dllm full debug = Some n ->
     0 <= n) ->
  4 * Z.of_nat (List.length messages)
  <= sumTokens (map (refresh llmId true debugFrom) messages).
Proof.
  intros Hest. induction messages as [|m l IH].
  - cbn. lia.
  - cbn [map sumTokens fold_right List.length].
    fold (sumTokens (map (refresh llmId true debugFrom) l)).
    assert (H := recount_nonnegative llmId debugFrom m Hest).
    unfold refresh at 1. cbn [orb DMessage.tokenCount DMessage.set_tokenCount].
    lia.
Qed.

(** X19.  The count that updateMessagesTokenCounts returns is the fold
    that appendMessage, deleteMessage and editMessage compute over the
    messages it leaves, so the two ways of counting a conversation agree.
    It changes nothing of a message but its count, and a second pass that
    does not force leaves the messages and the count of the first pass as
    they are.  With an estimator that returns no negative count, a forced
    pass counts at least 3 plus 4 for each message. *)
Theorem updateMessagesTokenCounts_agrees_with_the_fold
    (messages : list DMessage) (forceUpdate : bool) (debugFrom : string)
    (s : Sys) :
  let r := updateMessagesTokenCounts messages forceUpdate debugFrom s in
  snd (fst r) = reduceTokenCount (fst (fst r))
  /\ Forall2
       (fun m m' => m' = DMessage.set_tokenCount (DMessage.tokenCount m') m)
       messages (fst (fst r))
  /\ fst (updateMessagesTokenCounts (fst (fst r)) false debugFrom (snd r))
     = fst r
  /\ ((forall fragments dllm full debug n,
         estimateTokensForFragments fragments dllm full debug = Some n ->
         0 <= n) ->
      forceUpdate = true ->
      3 + 4 * Z.of_nat (List.length messages) <= snd (fst r)).
Proof.
  intros r. unfold r.
  pose proof (updateMessagesTokenCounts_logs messages forceUpdate debugFrom s)
    as (_ & _ & _ & Llm & _).
  rewrite !updateMessagesTokenCounts_value. cbn [fst snd].
  split; [now rewrite reduceTokenCount_sum|]. split; [|split].
  - apply Forall2_map_right. intros m. unfold refresh.
    destruct (_ || _); now destruct m.
  - rewrite Llm, map_map.
    rewrite (map_ext _ (refresh (chatLLMId (world s)) forceUpdate debugFrom))
      by (intros m; apply refresh_again).
    reflexivity.
  - intros Hest ->.
    assert (H := sumTokens_forced (chatLLMId (world s)) debugFrom messages
                   Hest).
    lia.
Qed.

(** ** Migrating *)

(** X20.  migrate converts exactly when the version is below 4 and the
    state holds at least one conversation: then every conversation is
    converted, in order, whether the backup succeeded or not, and a
    warning is written only when it did.  At version 4 or above, or when
    the state or its conversations are missing or empty, the state is
    returned as it is and nothing is backed up or written.  The store is
    never touched. *)
Theorem migrate_converts
    (state : option (option (list StoredConversation))) (fromVersion : Z)
    (s : Sys) :
  let r := migrate state fromVersion s in
  chat (snd r) = chat s
  /\ (4 <= fromVersion \/ state = None \/ state = Some None
      \/ state = Some (Some []) ->
      r = (state, s))
  /\ (forall stored,
        state = Some (Some stored) -> fromVersion < 4 -> stored <> [] ->
        let backup := backupIdbV3 "app-chats" "app-chats-v3" (world s) in
        fst r = Some (Some (map convertDConversation_V3_V4 stored))
        /\ world (snd r)
           = mkWorld (ticks (snd backup)) (draws (snd backup))
               (chatLLMId (snd backup))
               (trace (snd backup)
                ++ (if fst backup
                    then [EvWarn "Migrated app-chats from v3 to v4"]
                    else []))).
Proof.
  intros r. unfold r, migrate.
  destruct state as [[stored|]|].
  2, 3: (split; [reflexivity|]; split; [reflexivity|];
         intros stored H; discriminate).
  destruct ((fromVersion <? 4)%Z && negb (List.length stored =? 0)%nat) eqn:G.
  - apply andb_true_iff in G. destruct G as [Gv Gl].
    apply Z.ltb_lt in Gv. apply negb_true_iff, Nat.eqb_neq in Gl.
    run_bind. rewrite liftW_run. cbn [fst snd].
    split; [|split].
    + destruct (fst (backupIdbV3 _ _ (world s))).
      * unfold console_warn. rewrite emit_traced. reflexivity.
      * reflexivity.
    + intros [H | [H | [H | H]]]; try discriminate; try lia.
      injection H as ->. cbn in Gl. contradiction.
    + intros stored0 [= <-] _ _. cbn zeta. split; [reflexivity|].
      destruct (fst (backupIdbV3 _ _ (world s))).
      * unfold console_warn. rewrite emit_traced. reflexivity.
      * cbn [ret snd world]. rewrite app_nil_r.
        now destruct (snd (backupIdbV3 _ _ (world s))).
  - cbn [ret fst snd]. split; [reflexivity|]. split; [reflexivity|].
    intros stored0 [= <-] Hv Hne. exfalso.
    apply andb_false_iff in G. destruct G as [G | G].
    + apply Z.ltb_ge in G. lia.
    + apply negb_false_iff, Nat.eqb_eq in G.
      destruct stored; [contradiction | discriminate].
Qed.

(** ** What the edits of the messages write and read *)

(** The events of a pass of [mapM] are those of its calls, in order. *)
Lemma mapM_events {A B : Type} (f : A -> M B)
    (Q : A -> list Event -> Prop) (l : list A) (s : Sys) :
  (forall x s1, In x l ->
     exists more,
       trace (world (snd (f x s1))) = (trace (world s1) ++ more)%list
       /\ Q x more) ->
  exists mores,
    trace (world (snd (mapM f l s)))
    = (trace (world s) ++ List.concat mores)%list
    /\ Forall2 Q l mores.
Proof.
  revert s. induction l as [|x l IH]; intros s Hf.
  - exists []. cbn. split; [now rewrite app_nil_r | constructor].
  - destruct (Hf x s (or_introl eq_refl)) as (more & E & HQ).
    destruct (IH (snd (f x s))) as (mores & E' & F).
    { intros y s1 Hy. apply Hf. now right. }
    exists (more :: mores). cbn [mapM]. run_bind. cbn [ret snd List.concat].
    split; [now rewrite E', E, app_assoc | now constructor].
Qed.

(** A relation between worlds that holds of every call holds of the
    pass. *)
Lemma mapM_world {A B : Type} (f : A -> M B) (P : World -> World -> Prop)
    (l : list A) (s : Sys) :
  (forall w, P w w) ->
  (forall w1 w2 w3, P w1 w2 -> P w2 w3 -> P w1 w3) ->
  (forall x s1, In x l -> P (world s1) (world (snd (f x s1)))) ->
  P (world s) (world (snd (mapM f l s))).
Proof.
  intros Hrefl Htrans. revert s.
  induction l as [|x l IH]; intros s Hf.
  - cbn. apply Hrefl.
  - cbn [mapM]. run_bind. cbn [ret snd].
    apply (Htrans _ (world (snd (f x s)))).
    + apply Hf. now left.
    + apply IH. intros y s1 Hy. apply Hf. now right.
Qed.

Lemma _editConversation_events (conversationId : DConversationId)
    (update : Update DConversation DConversation.patch)
    (Q : DConversation -> list Event -> Prop) (s : Sys) :
  (forall c s1, In c (conversations (chat s)) ->
     DConversation.id c = conversationId ->
     exists more,
       trace (world (snd (applyUpdate update c s1)))
       = (trace (world s1) ++ more)%list
       /\ Q c more) ->
  exists mores,
    trace (world (snd (_editConversation conversationId update s)))
    = (trace (world s) ++ List.concat mores)%list
    /\ Forall2
         (fun c more =>
            if String.eqb (DConversation.id c) conversationId
            then Q c more else more = [])
         (conversations (chat s)) mores.
Proof.
  intros Hupdate. rewrite _editConversation_run. cbn [world].
  apply mapM_events. intros c s1 Hin.
  destruct (String.eqb (DConversation.id c) conversationId) eqn:Hid.
  - apply String.eqb_eq in Hid. rewrite bind_run. cbn [ret snd].
    now apply Hupdate.
  - exists []. cbn [ret snd]. now rewrite app_nil_r.
Qed.

Lemma _editConversation_world (conversationId : DConversationId)
    (update : Update DConversation DConversation.patch)
    (P : World -> World -> Prop) (s : Sys) :
  (forall w, P w w) ->
  (forall w1 w2 w3, P w1 w2 -> P w2 w3 -> P w1 w3) ->
  (forall c s1, In c (conversations (chat s)) ->
     DConversation.id c = conversationId ->
     P (world s1) (world (snd (applyUpdate update c s1)))) ->
  P (world s) (world (snd (_editConversation conversationId update s))).
Proof.
  intros Hrefl Htrans Hupdate. rewrite _editConversation_run. cbn [world].
  apply mapM_world; [exact Hrefl | exact Htrans |]. intros c s1 Hin.
  destruct (String.eqb (DConversation.id c) conversationId) eqn:Hid.
  - apply String.eqb_eq in Hid. rewrite bind_run. cbn [ret snd].
    now apply Hupdate.
  - cbn [ret snd]. apply Hrefl.
Qed.

Lemma Forall2_In_l {A B : Type} {R : A -> B -> Prop}
    {l1 : list A} {l2 : list B} {a : A} :
  Forall2 R l1 l2 -> In a l1 -> exists b, In b l2 /\ R a b.
Proof.
  intros H. induction H as [|x y l1 l2 Hxy H IH]; intros Hin.
  - destruct Hin.
  - destruct Hin as [<- | Hin].
    + exists y. split; [now left | exact Hxy].
    + destruct (IH Hin) as (b & Hb & Hab).
      exists b. split; [now right | exact Hab].
Qed.

(** The world after the update of [setMessages]: the clock has been read
    once, and the handle of the conversation has been aborted before any
    error was reported. *)
Lemma setMessages_update_world (newMessages : list DMessage)
    (c : DConversation) (s1 : Sys) :
  exists reports,
    Forall (fun e => exists message, e = EvError message) reports
    /\ world (snd (setMessages_update newMessages c s1))
       = mkWorld (S (ticks (world s1))) (draws (world s1))
           (chatLLMId (world s1))
           (trace (world s1)
            ++ match DConversation.abortController c with
               | Some controller => [EvAbort controller]
               | None => []
               end
            ++ reports).
Proof.
  unfold setMessages_update. run_bind. rewrite abort_traced. cbn [snd].
  set (s2 := traced _ s1).
  rewrite updateMessagesTokenCounts_value. cbv iota beta. run_bind.
  destruct (updateMessagesTokenCounts_reports newMessages false
              "setMessages" s2) as (_ & T & D & L & reports & E & F).
  set (s3 := snd (updateMessagesTokenCounts newMessages false
                    "setMessages" s2)) in *.
  exists reports. split; [exact F|].
  unfold Date_now. rewrite liftW_run. cbn [ret fst snd world].
  rewrite T, D, L, E. unfold s2, traced.
  cbn [world ticks draws chatLLMId trace]. now rewrite app_assoc.
Qed.

(** X21.  What setMessages writes.  The events of a call are aborts and
    reports of errors, no warning.  A handle is aborted exactly when it is
    the handle of a conversation bearing the identifier, and no identifier
    is drawn. *)
Theorem setMessages_aborts_the_bearers
    (conversationId : DConversationId) (newMessages : list DMessage)
    (s : Sys) :
  let s' := snd (setMessages conversationId newMessages s) in
  exists more,
    trace (world s') = (trace (world s) ++ more)%list
    /\ (forall controller,
          In (EvAbort controller) more
          <-> exists c,
                In c (conversations (chat s))
                /\ DConversation.id c = conversationId
                /\ DConversation.abortController c = Some controller)
    /\ (forall e, In e more ->
          (exists controller, e = EvAbort controller)
          \/ (exists message, e = EvError message))
    /\ draws (world s') = draws (world s)
    /\ chatLLMId (world s') = chatLLMId (world s).
Proof.
  intros s'. unfold s', setMessages.
  set (Q := fun (c : DConversation) (more : list Event) =>
              exists reports,
                Forall (fun e => exists message, e = EvError message) reports
                /\ more
                   = (match DConversation.abortController c with
                      | Some controller => [EvAbort controller]
                      | None => []
                      end ++ reports)%list).
  destruct (_editConversation_events conversationId
              (PatchFn (setMessages_update newMessages)) Q s)
    as (mores & E & F).
  { intros c s1 _ _. cbn [applyUpdate].
    destruct (setMessages_update_world newMessages c s1)
      as (reports & Hr & Hw).
    exists (match DConversation.abortController c with
            | Some controller => [EvAbort controller]
            | None => []
            end ++ reports)%list.
    rewrite Hw. cbn [trace]. split; [reflexivity|].
    exists reports. auto. }
  exists (List.concat mores). split; [exact E|]. split; [|split; [|split]].
  - intros controller. rewrite List.in_concat. split.
    + intros (more & Hmore & Hin).
      destruct (Forall2_In_r F Hmore) as (c & Hc & HQ). cbv beta in HQ.
      destruct (String.eqb (DConversation.id c) conversationId) eqn:Hid.
      * apply String.eqb_eq in Hid.
        destruct HQ as (reports & Hr & ->).
        apply in_app_or in Hin. destruct Hin as [Hin | Hin].
        -- exists c. split; [exact Hc|]. split; [exact Hid|].
           destruct (DConversation.abortController c) as [h|].
           ++ destruct Hin as [Hin | []]. congruence.
           ++ destruct Hin.
        -- rewrite Forall_forall in Hr.
           destruct (Hr _ Hin) as (message & Hm). discriminate Hm.
      * subst more. destruct Hin.
    + intros (c & Hc & Hid & Hh).
      destruct (Forall2_In_l F Hc) as (more & Hmore & HQ). cbv beta in HQ.
      apply String.eqb_eq in Hid. rewrite Hid in HQ.
      destruct HQ as (reports & _ & ->). rewrite Hh in Hmore.
      exists ([EvAbort controller] ++ reports)%list.
      split; [exact Hmore | now left].
  - intros e He. apply List.in_concat in He. destruct He as (more & Hmore & Hin).
    destruct (Forall2_In_r F Hmore) as (c & Hc & HQ). cbv beta in HQ.
    destruct (String.eqb (DConversation.id c) conversationId).
    + destruct HQ as (reports & Hr & ->).
      apply in_app_or in Hin. destruct Hin as [Hin | Hin].
      * left. destruct (DConversation.abortController c) as [h|].
        -- destruct Hin as [<- | []]. now exists h.
        -- destruct Hin.
      * right. rewrite Forall_forall in Hr. now apply Hr.
    + subst more. destruct Hin.
  - apply (_editConversation_world conversationId _
             (fun w w' => draws w' = draws w)); [auto | congruence |].
    intros c s1 _ _. cbn [applyUpdate].
    destruct (setMessages_update_world newMessages c s1) as (? & _ & ->).
    reflexivity.
  - apply (_editConversation_world conversationId _
             (fun w w' => chatLLMId w' = chatLLMId w)); [auto | congruence |].
    intros c s1 _ _. cbn [applyUpdate].
    destruct (setMessages_update_world newMessages c s1) as (? & _ & ->).
    reflexivity.
Qed.

(** The world after the update of [appendMessage]: the clock has been read
    once, and the only events are reports of errors. *)
Lemma appendMessage_update_world (message : DMessage) (c : DConversation)
    (s1 : Sys) :
  exists reports,
    Forall (fun e => exists text, e = EvError text) reports
    /\ world (snd (appendMessage_update message c s1))
       = mkWorld (S (ticks (world s1))) (draws (world s1))
           (chatLLMId (world s1)) (trace (world s1) ++ reports).
Proof.
  unfold appendMessage_update.
  destruct (negb (truthyOB (DMessage.pendingIncomplete message))).
  - run_bind. rewrite updateMessagesTokenCounts_value. cbv iota beta.
    run_bind. cbn [ret fst snd].
    destruct (updateMessagesTokenCounts_reports [message] true
                "appendMessage" s1) as (_ & T & D & L & reports & E & F).
    exists reports. split; [exact F|].
    unfold Date_now. rewrite liftW_run. cbn [ret fst snd world].
    now rewrite T, D, L, E.
  - run_bind. cbn [ret fst snd]. exists []. split; [constructor|].
    unfold Date_now. rewrite liftW_run. cbn [ret fst snd world].
    now rewrite app_nil_r.
Qed.

(** X22.  What appendMessage does to a conversation.  Every conversation
    bearing the identifier gets the message at its end and is otherwise
    as it was but for its count and its [updated] stamp, a reading of the
    clock taken during the call: its handle is kept, and nothing is
    aborted.  A message that is marked as pending is stored as handed in,
    with the count it came with; any other message is stored with its
    count derived anew.  The only events are reports of errors, and no
    identifier is drawn. *)
Theorem appendMessage_appends
    (conversationId : DConversationId) (message : DMessage) (s : Sys) :
  let s' := snd (appendMessage conversationId message s) in
  let stored :=
    if truthyOB (DMessage.pendingIncomplete message) then message
    else DMessage.set_tokenCount
           (recount (chatLLMId (world s)) "appendMessage" message) message in
  Forall2
    (fun c c' =>
       if String.eqb (DConversation.id c) conversationId
       then
         exists t,
           (ticks (world s) <= t < ticks (world s'))%nat
           /\ c' = DConversation.mk (DConversation.id c)
                     (DConversation.messages c ++ [stored])
                     (DConversation.systemPurposeId c)
                     (DConversation.userTitle c)
                     (DConversation.autoTitle c)
                     (DConversation.userSymbol c)
                     (3 + sumTokens (DConversation.messages c ++ [stored]))
                     (DConversation.created c)
                     (Some (clock t))
                     (DConversation.abortController c)
       else c' = c)
    (conversations (chat s)) (conversations (chat s'))
  /\ (exists reports,
        trace (world s') = (trace (world s) ++ reports)%list
        /\ Forall (fun e => exists text, e = EvError text) reports)
  /\ draws (world s') = draws (world s).
Proof.
  intros s' stored. unfold s', appendMessage. split; [|split].
  - apply (_editConversation_Forall2 conversationId _
             (fun s1 s2 c c' =>
                exists t,
                  (ticks (world s1) <= t < ticks (world s2))%nat
                  /\ c' = DConversation.mk (DConversation.id c)
                            (DConversation.messages c ++ [stored])
                            (DConversation.systemPurposeId c)
                            (DConversation.userTitle c)
                            (DConversation.autoTitle c)
                            (DConversation.userSymbol c)
                            (3 + sumTokens
                                   (DConversation.messages c ++ [stored]))
                            (DConversation.created c)
                            (Some (clock t))
                            (DConversation.abortController c))).
    + intros c s1 Hin Hid (Hllm & _). cbn [applyUpdate].
      destruct (appendMessage_patch message c s1) as (Hc & He & Ht).
      split; [exact He|]. exists (ticks (world s1)).
      split; [lia|]. rewrite Hc, Hllm, reduceTokenCount_sum.
      unfold stored, refresh. cbn [orb].
      now destruct (truthyOB (DMessage.pendingIncomplete message)).
    + intros s1 s2 s1' s2' c c' (_ & T1 & _) (_ & T2 & _) (t & Ht & Hr).
      exists t. split; [lia | exact Hr].
  - apply (_editConversation_world conversationId _
             (fun w w' =>
                exists reports,
                  trace w' = (trace w ++ reports)%list
                  /\ Forall (fun e => exists text, e = EvError text)
                       reports)).
    + intros w. exists []. split; [now rewrite app_nil_r | constructor].
    + intros w1 w2 w3 (r1 & E1 & F1) (r2 & E2 & F2).
      exists (r1 ++ r2)%list.
      split; [now rewrite E2, E1, app_assoc | now apply Forall_app].
    + intros c s1 _ _. cbn [applyUpdate].
      destruct (appendMessage_update_world message c s1)
        as (reports & F & ->).
      exists reports. split; [reflexivity | exact F].
  - apply (_editConversation_world conversationId _
             (fun w w' => draws w' = draws w)); [auto | congruence |].
    intros c s1 _ _. cbn [applyUpdate].
    destruct (appendMessage_update_world message c s1) as (? & _ & ->).
    reflexivity.
Qed.

(** The [updated] stamp of an edited message: the stamp handed in, if
    any, and that of the patched message otherwise. *)
Lemma edited_updated (llmId : option DLLMId) (p : DMessage.patch)
    (removePendingState : bool) (stamp : option Z) (m : DMessage) :
  DMessage.updated (edited llmId p removePendingState stamp m)
  = match stamp with
    | Some now => Some now
    | None => DMessage.updated (DMessage.merge m p)
    end.
Proof.
  unfold edited, refresh.
  remember (DMessage.merge m p) as m1 eqn:Hm1. clear Hm1.
  destruct stamp, removePendingState; cbn [orb];
    repeat match goal with
           | |- context [if ?b then _ else _] => destruct b
           end; reflexivity.
Qed.

(** The stamp and the clock after the update of [editMessage]: the clock
    is read once more, after the messages have been gone through, when
    touchUpdated is set. *)
Lemma editMessage_update_stamp (messageId : DMessageId)
    (update : Update DMessage DMessage.patch)
    (removePendingState touchUpdated : bool) (c : DConversation) (s1 : Sys) :
  let mapped :=
    mapM (editMessage_map messageId update removePendingState touchUpdated)
         (DConversation.messages c) s1 in
  let r :=
    editMessage_update messageId update removePendingState touchUpdated c
      s1 in
  DConversation.updated (DConversation.merge c (fst r))
  = (if touchUpdated then Some (clock (ticks (world (snd mapped))))
     else DConversation.updated c)
  /\ ticks (world (snd r))
     = (if touchUpdated then S (ticks (world (snd mapped)))
        else ticks (world (snd mapped))).
Proof.
  intros mapped r. unfold r, editMessage_update. run_bind. fold mapped.
  destruct touchUpdated.
  - run_bind. unfold Date_now. rewrite liftW_run. cbn. auto.
  - cbn. auto.
Qed.

(** Without touchUpdated the callback of [editMessage] does not read the
    clock. *)
Lemma editMessage_map_clock (messageId : DMessageId)
    (update : Update DMessage DMessage.patch)
    (removePendingState : bool) (m : DMessage) (s1 : Sys) :
  (forall m0 s0, logs_only s0 (snd (applyUpdate update m0 s0))) ->
  ticks (world (snd (editMessage_map messageId update removePendingState
                       false m s1)))
  = ticks (world s1).
Proof.
  intros Hu. unfold editMessage_map.
  destruct (negb (String.eqb (DMessage.id m) messageId)); [reflexivity|].
  run_bind. cbn [ret fst snd].
  pose proof (Hu m s1) as (_ & T0 & _).
  set (s2 := snd (applyUpdate update m s1)) in *.
  match goal with
  | |- context [if ?b then _ else _] => destruct b
  end.
  - run_bind. rewrite getChatLLMId_run. cbn [fst snd].
    rewrite updateMessageTokenCount_value. cbv iota beta. cbn [ret fst snd].
    match goal with
    | |- context [updateMessageTokenCount ?a ?b ?c ?d ?e] =>
        pose proof (updateMessageTokenCount_logs a b c d e) as (_ & T1 & _)
    end.
    now rewrite T1.
  - cbn [ret snd]. exact T0.
Qed.

(** X23.  The stamps of editMessage, for an update whose patch is a
    function of the message and which only writes to the console.  With
    touchUpdated, every conversation bearing the identifier is stamped
    with a reading of the clock taken during the call, and each of its
    messages bearing the message identifier with an earlier reading of the
    same call, whatever [updated] the patch carried.  Without
    touchUpdated the clock is not read at all: the conversation keeps its
    stamp and the message has the stamp of the patched message.  The other
    messages and the other conversations are as they were. *)
Theorem editMessage_stamps
    (conversationId : DConversationId) (messageId : DMessageId)
    (update : Update DMessage DMessage.patch)
    (f : DMessage -> DMessage.patch)
    (removePendingState touchUpdated : bool) (s : Sys)
    (Hupdate : forall m0 s0,
        fst (applyUpdate update m0 s0) = f m0
        /\ logs_only s0 (snd (applyUpdate update m0 s0))) :
  let s' :=
    snd (editMessage conversationId messageId update removePendingState
           touchUpdated s) in
  Forall2
    (fun c c' =>
       if String.eqb (DConversation.id c) conversationId
       then
         if touchUpdated
         then
           exists t,
             (ticks (world s) <= t < ticks (world s'))%nat
             /\ DConversation.updated c' = Some (clock t)
             /\ Forall2
                  (fun m m' =>
                     if String.eqb (DMessage.id m) messageId
                     then exists t',
                            (ticks (world s) <= t' < t)%nat
                            /\ DMessage.updated m' = Some (clock t')
                     else m' = m)
                  (DConversation.messages c) (DConversation.messages c')
         else
           DConversation.updated c' = DConversation.updated c
           /\ Forall2
                (fun m m' =>
                   if String.eqb (DMessage.id m) messageId
                   then DMessage.updated m'
                        = DMessage.updated (DMessage.merge m (f m))
                   else m' = m)
                (DConversation.messages c) (DConversation.messages c')
       else c' = c)
    (conversations (chat s)) (conversations (chat s'))
  /\ (touchUpdated = false -> ticks (world s') = ticks (world s)).
Proof.
  intros s'. unfold s', editMessage. split.
  - set (Rm := fun (s1 s2 : Sys) (m m' : DMessage) =>
                 if String.eqb (DMessage.id m) messageId
                 then
                   if touchUpdated
                   then exists t',
                          (ticks (world s1) <= t' < ticks (world s2))%nat
                          /\ DMessage.updated m' = Some (clock t')
                   else DMessage.updated m'
                        = DMessage.updated (DMessage.merge m (f m))
                 else m' = m).
    assert (Hwiden : forall s1 s2 s1' s2' m m',
               evolves s1' s1 -> evolves s2 s2' ->
               Rm s1 s2 m m' -> Rm s1' s2' m m').
    { intros s1 s2 s1' s2' m m' (_ & T1 & _) (_ & T2 & _). unfold Rm.
      destruct (String.eqb (DMessage.id m) messageId); [|auto].
      destruct touchUpdated; [|auto].
      intros (t' & Ht & Hm). exists t'. split; [lia | exact Hm]. }
    apply (_editConversation_Forall2 conversationId _
             (fun s1 s2 c c' =>
                if touchUpdated
                then
                  exists t,
                    (ticks (world s1) <= t < ticks (world s2))%nat
                    /\ DConversation.updated c' = Some (clock t)
                    /\ Forall2
                         (fun m m' =>
                            if String.eqb (DMessage.id m) messageId
                            then exists t',
                                   (ticks (world s1) <= t' < t)%nat
                                   /\ DMessage.updated m' = Some (clock t')
                            else m' = m)
                         (DConversation.messages c)
                         (DConversation.messages c')
                else
                  DConversation.updated c' = DConversation.updated c
                  /\ Forall2
                       (fun m m' =>
                          if String.eqb (DMessage.id m) messageId
                          then DMessage.updated m'
                               = DMessage.updated (DMessage.merge m (f m))
                          else m' = m)
                       (DConversation.messages c)
                       (DConversation.messages c'))).
    + intros c s1 Hin Hid Hs1. cbn [applyUpdate].
      destruct (editMessage_patch messageId update removePendingState
                  touchUpdated c s1) as [Hmsgs Hafter].
      destruct (editMessage_update_stamp messageId update removePendingState
                  touchUpdated c s1) as [Hstamp Hticks].
      destruct (mapM_Forall2
                  (editMessage_map messageId update removePendingState
                     touchUpdated)
                  Rm (DConversation.messages c) s1) as [Hmapped HR].
      { intros m s2 Hm Hs2.
        destruct (editMessage_map_edited messageId update f
                    removePendingState touchUpdated m s2 Hupdate)
          as [He Hr].
        split; [exact He|]. unfold Rm.
        destruct (String.eqb (DMessage.id m) messageId); [|exact Hr].
        destruct Hr as (stamp & Hr & Hst). rewrite Hr, edited_updated.
        destruct touchUpdated.
        - destruct Hst as (t' & Ht' & ->). now exists t'.
        - now rewrite Hst. }
      { exact Hwiden. }
      set (mapped := mapM (editMessage_map messageId update
                             removePendingState touchUpdated)
                          (DConversation.messages c) s1) in *.
      split; [eapply evolves_trans; eauto|].
      rewrite Hstamp, Hmsgs, Hticks. unfold Rm in HR.
      destruct Hmapped as (_ & Tm & _).
      destruct touchUpdated.
      * exists (ticks (world (snd mapped))).
        split; [lia|]. split; [reflexivity|]. exact HR.
      * split; [reflexivity | exact HR].
    + intros s1 s2 s1' s2' c c' (_ & T1 & _) (_ & T2 & _).
      destruct touchUpdated; [|auto].
      intros (t & Ht & Hc & Hm). exists t. split; [lia|].
      split; [exact Hc|].
      eapply Forall2_impl; [|exact Hm]. intros m m'. cbv beta.
      destruct (String.eqb (DMessage.id m) messageId); [|auto].
      intros (t' & Ht' & Hu). exists t'. split; [lia | exact Hu].
  - intros ->.
    apply (_editConversation_world conversationId _
             (fun w w' => ticks w' = ticks w)); [auto | congruence |].
    intros c s1 _ _. cbn [applyUpdate].
    destruct (editMessage_update_stamp messageId update removePendingState
                false c s1) as [_ ->].
    apply (mapM_world _ (fun w w' => ticks w' = ticks w));
      [auto | congruence |].
    intros m s2 _. apply editMessage_map_clock.
    intros m0 s0. apply Hupdate.
Qed.

End Store.

(** * The store at work

    Runs of the actions on the small store. *)

(** Branching at the second of five messages: the branch has two messages,
    a new identifier, and is first in the list. *)
Example branchConversation_second_of_five :
  let r :=
    branchConversation Sample.uuid_of "c5" (Some "t2")
      (mkSys (mkChatState [Sample.chatting; Sample.thread]) Sample.world0) in
  fst r = Some "a-chat-dconversation"
  /\ map (fun c => (DConversation.id c,
                    map DMessage.id (DConversation.messages c)))
         (conversations (chat (snd r)))
     = [("a-chat-dconversation", ["b-chat-dmessage"; "c-chat-dmessage"]);
        ("c2", ["m1"; "m2"]);
        ("c5", ["t1"; "t2"; "t3"; "t4"; "t5"])].
Proof. vm_compute. split; reflexivity. Qed.

(** Deleting every conversation: the handle in flight is aborted and one
    conversation is made, with the persona handed in. *)
Example deleteConversations_all :
  let r :=
    deleteConversations Sample.createDConversation ["c2"; "c1"]
      (Some "Developer") Sample.sys0 in
  fst r = Some "a-chat-dconversation"
  /\ map (fun c => (DConversation.id c, DConversation.systemPurposeId c,
                    DConversation.messages c))
         (conversations (chat (snd r)))
     = [("a-chat-dconversation", "Developer", [])]
  /\ trace (world (snd r)) = [EvAbort 1%nat].
Proof. vm_compute. repeat split. Qed.

(** Importing over a conversation of the same identifier without
    preventing the clash: the handle of the former one is aborted, and the
    imported one takes its place, in front. *)
Example importConversation_replaces :
  let r :=
    importConversation Sample.uuid_of Sample.DLLM Sample.findLLMOrThrow
      Sample.estimateTokensForFragments
      (DConversation.set_messages [Sample.hello] Sample.chatting) false
      (mkSys (mkChatState [Sample.blank; Sample.chatting]) Sample.world0) in
  fst r = "c2"
  /\ map (fun c => (DConversation.id c,
                    map DMessage.tokenCount (DConversation.messages c),
                    DConversation.tokenCount c))
         (conversations (chat (snd r)))
     = [("c2", [10], 17); ("c1", [], 0)]
  /\ trace (world (snd r)) = [EvAbort 1%nat].
Proof. vm_compute. repeat split. Qed.

(** Loading a message that was left pending: the fragment without an
    identifier gets one, the placeholder becomes an error fragment, the
    asset of the image moves to its current key, and the marks of the
    stream are gone. *)
Example onRehydrateStorage_repairs :
  option_map
    (fun st => map DConversation.messages (conversations st))
    (fst (onRehydrateStorage Sample.nanoid_of
            Sample.createErrorContentFragment
            (Some (partialize
                     (mkChatState
                        [DConversation.set_messages [Sample.stale]
                           Sample.chatting])))
            Sample.sys0))
  = Some
      [[DMessage.mk "m3" "assistant"
          [DMessageFragment.mk FtContent (Some "A_chat-dfragment")
             (TextPart "partial");
           DMessageFragment.mk FtContent (Some "C_chat-dfragment")
             (ErrorPart "Loading (did not complete)");
           DMessageFragment.mk FtContent (Some "B_chat-dfragment")
             (ImageRefPart (DataRefDblob (Some "asset-1") None))]
          None None 0 30 None]].
Proof. vm_compute. reflexivity. Qed.

(** Deleting a message that the conversation does not hold: the messages
    stay, the count becomes the fold and the stamp a reading of the
    clock. *)
Example deleteMessage_unknown_message_run :
  map (fun c => (DConversation.id c, DConversation.messages c,
                 DConversation.tokenCount c, DConversation.updated c))
      (conversations
         (chat (snd (deleteMessage Sample.clock "c1" "m9" Sample.sys0))))
  = [("c2", [Sample.hello; Sample.reply], 38, Some 25);
     ("c1", [], 3, Some 1700000000000)].
Proof. vm_compute. reflexivity. Qed.

(** * The properties on the small store *)

(** The hypotheses of a statement, followed by its conclusion. *)
Ltac conj_of T :=
  lazymatch T with
  | ?H -> ?C => let r := conj_of C in constr:(H /\ r)
  | _ => T
  end.

Ltac instance_of t :=
  let T := type of t in
  let T := eval cbv beta in T in
  let r := conj_of T in
  exact r.

(** Going through the members of a concrete list. *)
Ltac in_cases :=
  repeat match goal with
         | H : In _ _ |- _ => progress cbn in H
         | H : _ \/ _ |- _ => destruct H as [H | H]
         | H : False |- _ => destruct H
         | H : _ = ?y |- _ => is_var y; subst y
         end.

(** C8 on the small store: a forced update under a model that the models
    store does not know. *)
Lemma updateMessageTokenCount_accounting_witness :
  ltac:(instance_of
          (updateMessageTokenCount_accounting Sample.DLLM
             Sample.findLLMOrThrow Sample.estimateTokensForFragments
             Sample.hello (Some "model-b") true "witness" Sample.sys0)).
Proof.
  assert (H1 : forall fragments dllm full debug n,
             Sample.estimateTokensForFragments fragments dllm full debug
             = Some n -> 0 <= n).
  { unfold Sample.estimateTokensForFragments. intros fs ? ? ? n H.
    assert (n = 10 * Z.of_nat (List.length fs)) by congruence. lia. }
  assert (H2 : true = true \/ 0 <= DMessage.tokenCount Sample.hello)
    by (left; reflexivity).
  exact (conj H1 (conj H2
           (updateMessageTokenCount_accounting Sample.DLLM
              Sample.findLLMOrThrow Sample.estimateTokensForFragments
              Sample.hello (Some "model-b") true "witness" Sample.sys0
              H1 H2))).
Defined.

(** C1 refuted on the small store.  setMessages is handed a message whose
    cached count is 7 while the estimator gives 10 for it: the message keeps
    7 and the conversation counts 14, where a forced pass over the same list
    leaves 10 in the message and counts 17.  So the conversation holds
    neither the messages nor the count of the forced pass. *)
Lemma setMessages_reuses_cached_count :
  let s' :=
    snd (setMessages Sample.clock Sample.DLLM Sample.findLLMOrThrow
           Sample.estimateTokensForFragments "c2" [Sample.hello]
           Sample.sys0) in
  let forced :=
    fst (updateMessagesTokenCounts Sample.DLLM Sample.findLLMOrThrow
           Sample.estimateTokensForFragments [Sample.hello] true
           "setMessages" Sample.sys0) in
  map (fun c => (DConversation.id c,
                 map DMessage.tokenCount (DConversation.messages c),
                 DConversation.tokenCount c))
      (conversations (chat s'))
  = [("c2", [7], 14); ("c1", [], 0)]
  /\ map DMessage.tokenCount (fst forced) = [10]
  /\ snd forced = 17
  /\ (forall c,
        In c (conversations (chat s')) -> DConversation.id c = "c2" ->
        DConversation.messages c <> fst forced
        /\ DConversation.tokenCount c <> snd forced).
Proof.
  vm_compute. split; [reflexivity|]. split; [reflexivity|].
  split; [reflexivity|].
  intros c [<- | [<- | []]] Hid.
  - split; discriminate.
  - discriminate Hid.
Qed.

(** C3 refuted on the small store.  The conversation without messages has
    a count of 0, and does not hold the message; after the message has been
    appended and deleted again the conversation has no messages and a count
    of 3. *)
Lemma appendMessage_then_deleteMessage_changes_count :
  let s' :=
    snd (deleteMessage Sample.clock "c1" (DMessage.id Sample.hello)
           (snd (appendMessage Sample.clock Sample.DLLM Sample.findLLMOrThrow
                   Sample.estimateTokensForFragments "c1" Sample.hello
                   Sample.sys0))) in
  map (fun c => (DConversation.id c, DConversation.messages c,
                 DConversation.tokenCount c))
      (conversations (chat Sample.sys0))
  = [("c2", [Sample.hello; Sample.reply], 38); ("c1", [], 0)]
  /\ map (fun c => (DConversation.id c, DConversation.messages c,
                    DConversation.tokenCount c))
         (conversations (chat s'))
     = [("c2", [Sample.hello; Sample.reply], 38); ("c1", [], 3)]
  /\ (forall c c',
        In c (conversations (chat Sample.sys0)) ->
        In c' (conversations (chat s')) ->
        DConversation.id c = "c1" -> DConversation.id c' = "c1" ->
        DConversation.messages c' = DConversation.messages c
        /\ DConversation.tokenCount c' <> DConversation.tokenCount c).
Proof.
  vm_compute. split; [reflexivity|]. split; [reflexivity|].
  intros c c' [<- | [<- | []]] [<- | [<- | []]] H H'; try discriminate.
  split; [reflexivity | discriminate].
Qed.

(** C3 on the small store: a third message is appended to the conversation
    that holds two, and deleted again. *)
Lemma appendMessage_then_deleteMessage_witness :
  ltac:(instance_of
          (appendMessage_then_deleteMessage Sample.clock Sample.DLLM
             Sample.findLLMOrThrow Sample.estimateTokensForFragments
             "c2" Sample.stale Sample.sys0)).
Proof.
  assert (H : forall c m,
             In c (conversations (chat Sample.sys0)) ->
             DConversation.id c = "c2" ->
             In m (DConversation.messages c) ->
             DMessage.id m <> DMessage.id Sample.stale).
  { intros c m Hc Hid Hm. in_cases; cbn in *; congruence. }
  exact (conj H
           (appendMessage_then_deleteMessage Sample.clock Sample.DLLM
              Sample.findLLMOrThrow Sample.estimateTokensForFragments
              "c2" Sample.stale Sample.sys0 H)).
Defined.

(** C5 on the small store: no fragment of the first message bears the
    identifier. *)
Lemma replaceMessageFragment_unknown_fragment_witness :
  ltac:(instance_of
          (replaceMessageFragment_unknown_fragment Sample.clock Sample.DLLM
             Sample.findLLMOrThrow Sample.estimateTokensForFragments
             "c2" "m1" "f9" (Sample.text (Some "f9") "bye") false true
             Sample.sys0)).
Proof.
  assert (H : forall c m f,
             In c (conversations (chat Sample.sys0)) ->
             DConversation.id c = "c2" ->
             In m (DConversation.messages c) ->
             DMessage.id m = "m1" ->
             In f (DMessage.fragments m) ->
             DMessageFragment.fId f <> Some "f9").
  { intros c m f Hc Hid Hm Hmid Hf. in_cases; cbn in *; congruence. }
  exact (conj H
           (replaceMessageFragment_unknown_fragment Sample.clock Sample.DLLM
              Sample.findLLMOrThrow Sample.estimateTokensForFragments
              "c2" "m1" "f9" (Sample.text (Some "f9") "bye") false true
              Sample.sys0 H)).
Defined.

(** C7 on the small store: the conversation imported bears the identifier
    of the first conversation, and a clash is to be prevented. *)
Lemma importConversation_clash_witness :
  ltac:(instance_of
          (importConversation_clash Sample.uuid_of Sample.DLLM
             Sample.findLLMOrThrow Sample.estimateTokensForFragments
             (DConversation.set_messages [Sample.hello] Sample.chatting)
             true Sample.sys0 Sample.chatting)).
Proof.
  assert (H : find (fun _c => String.eqb (DConversation.id _c) "c2")
                   (conversations (chat Sample.sys0))
              = Some Sample.chatting) by reflexivity.
  exact (conj H
           (importConversation_clash Sample.uuid_of Sample.DLLM
              Sample.findLLMOrThrow Sample.estimateTokensForFragments
              (DConversation.set_messages [Sample.hello] Sample.chatting)
              true Sample.sys0 Sample.chatting H)).
Defined.

(** C9 on the small store: a conversation holding the message read back
    from storage is saved and loaded. *)
Lemma partialize_onRehydrateStorage_witness :
  ltac:(instance_of
          (partialize_onRehydrateStorage Sample.nanoid_of
             Sample.createErrorContentFragment
             (mkChatState
                [DConversation.set_messages [Sample.stale] Sample.chatting])
             Sample.sys0)).
Proof.
  assert (H : forall scope n, Sample.nanoid_of scope n <> "")
    by (intros scope n; discriminate).
  assert (H' : forall error w,
             exists fId,
               DMessageFragment.fId
                 (fst (Sample.createErrorContentFragment error w))
               = Some fId /\ fId <> "").
  { intros error w. eexists. split; [reflexivity | discriminate]. }
  exact (conj H (conj H'
           (partialize_onRehydrateStorage Sample.nanoid_of
              Sample.createErrorContentFragment
              (mkChatState
                 [DConversation.set_messages [Sample.stale] Sample.chatting])
              Sample.sys0 H H'))).
Defined.

(** C10 on the small store: no message of the first conversation bears the
    identifier. *)
Lemma deleteMessage_unknown_message_witness :
  ltac:(instance_of
          (deleteMessage_unknown_message Sample.clock "c2" "m9" Sample.sys0)).
Proof.
  assert (H : forall c m,
             In c (conversations (chat Sample.sys0)) ->
             DConversation.id c = "c2" ->
             In m (DConversation.messages c) ->
             DMessage.id m <> "m9").
  { intros c m Hc Hid Hm. in_cases; cbn in *; congruence. }
  exact (conj H
           (deleteMessage_unknown_message Sample.clock "c2" "m9"
              Sample.sys0 H)).
Defined.

(** X1 on the small store: no conversation bears the identifier, and the
    update is the one of deleteMessage. *)
Lemma editConversation_unknown_conversation_witness :
  ltac:(instance_of
          (editConversation_unknown_conversation "c9"
             (PatchFn (deleteMessage_update Sample.clock "m1"))
             Sample.sys0)).
Proof.
  assert (H : forall c,
             In c (conversations (chat Sample.sys0)) ->
             DConversation.id c <> "c9").
  { intros c Hc. in_cases; cbn in *; congruence. }
  exact (conj H
           (editConversation_unknown_conversation "c9"
              (PatchFn (deleteMessage_update Sample.clock "m1"))
              Sample.sys0 H)).
Defined.

(** X3 on the small store: the conversation imported bears an identifier
    of its own. *)
Lemma importConversation_without_clash_witness :
  ltac:(instance_of
          (importConversation_without_clash Sample.uuid_of Sample.DLLM
             Sample.findLLMOrThrow Sample.estimateTokensForFragments
             Sample.thread true Sample.sys0)).
Proof.
  assert (H : forall c,
             In c (conversations (chat Sample.sys0)) ->
             DConversation.id c <> DConversation.id Sample.thread).
  { intros c Hc. in_cases; cbn in *; congruence. }
  exact (conj H
           (importConversation_without_clash Sample.uuid_of Sample.DLLM
              Sample.findLLMOrThrow Sample.estimateTokensForFragments
              Sample.thread true Sample.sys0 H)).
Defined.

(** X4 on the small store: the first conversation is imported over
    itself. *)
Lemma importConversation_keeps_identifiers_distinct_witness :
  ltac:(instance_of
          (importConversation_keeps_identifiers_distinct Sample.uuid_of
             Sample.DLLM Sample.findLLMOrThrow
             Sample.estimateTokensForFragments Sample.chatting false
             Sample.sys0)).
Proof.
  assert (H : NoDup (map DConversation.id (conversations (chat Sample.sys0)))).
  { cbn. repeat constructor; cbn; intuition discriminate. }
  exact (conj H
           (importConversation_keeps_identifiers_distinct Sample.uuid_of
              Sample.DLLM Sample.findLLMOrThrow
              Sample.estimateTokensForFragments Sample.chatting false
              Sample.sys0 H)).
Defined.

(** X5 on the small store: the last conversation is deleted, and no other
    stands behind it. *)
Lemma deleteConversations_next_in_line_witness :
  ltac:(instance_of
          (deleteConversations_next_in_line Sample.createDConversation
             [Sample.chatting] [] Sample.blank None Sample.sys0)).
Proof.
  assert (H1 : conversations (chat Sample.sys0)
               = ([Sample.chatting] ++ Sample.blank :: [])%list)
    by reflexivity.
  assert (H2 : forall x,
             In x ([Sample.chatting] ++ []) ->
             DConversation.id x <> DConversation.id Sample.blank).
  { intros x Hx. in_cases; cbn in *; congruence. }
  exact (conj H1 (conj H2
           (deleteConversations_next_in_line Sample.createDConversation
              [Sample.chatting] [] Sample.blank None Sample.sys0 H1 H2))).
Defined.

(** X6 on the small store: the first conversation is deleted, the second
    is not named. *)
Lemma deleteConversations_removes_the_named_witness :
  ltac:(instance_of
          (deleteConversations_removes_the_named Sample.createDConversation
             ["c2"; "c9"] None Sample.sys0 Sample.blank)).
Proof.
  assert (H1 : In Sample.blank (conversations (chat Sample.sys0)))
    by (right; left; reflexivity).
  assert (H2 : ~ In (DConversation.id Sample.blank) ["c2"; "c9"]).
  { intros H. in_cases; discriminate. }
  exact (conj H1 (conj H2
           (deleteConversations_removes_the_named Sample.createDConversation
              ["c2"; "c9"] None Sample.sys0 Sample.blank H1 H2))).
Defined.

(** X7 on the small store: the only identifier named is borne by no
    conversation. *)
Lemma deleteConversations_none_borne_witness :
  ltac:(instance_of
          (deleteConversations_none_borne Sample.createDConversation
             ["c9"] (Some "Developer") Sample.sys0 Sample.chatting
             [Sample.blank])).
Proof.
  assert (H1 : conversations (chat Sample.sys0)
               = Sample.chatting :: [Sample.blank]) by reflexivity.
  assert (H2 : forall c,
             In c (conversations (chat Sample.sys0)) ->
             ~ In (DConversation.id c) ["c9"]).
  { intros c Hc H. in_cases; cbn in *; in_cases; discriminate. }
  exact (conj H1 (conj H2
           (deleteConversations_none_borne Sample.createDConversation
              ["c9"] (Some "Developer") Sample.sys0 Sample.chatting
              [Sample.blank] H1 H2))).
Defined.

(** X9 on the small store: the second conversation is given another
    persona. *)
Lemma setSystemPurposeId_then_getConversationSystemPurposeId_witness :
  ltac:(instance_of
          (setSystemPurposeId_then_getConversationSystemPurposeId "c1"
             "Scientist" Sample.sys0 Sample.blank)).
Proof.
  assert (H1 : "c1" <> "") by discriminate.
  assert (H2 : "Scientist" <> "") by discriminate.
  assert (H3 : In Sample.blank (conversations (chat Sample.sys0)))
    by (right; left; reflexivity).
  assert (H4 : DConversation.id Sample.blank = "c1") by reflexivity.
  exact (conj H1 (conj H2 (conj H3 (conj H4
           (setSystemPurposeId_then_getConversationSystemPurposeId "c1"
              "Scientist" Sample.sys0 Sample.blank H1 H2 H3 H4))))).
Defined.

(** X12 on the small store: the first message is given the fragments of
    the message read back from storage, and is marked as pending. *)
Lemma editMessage_pending_and_count_witness :
  let p :=
    DMessage.mkPatch (Some (DMessage.fragments Sample.stale))
      (Some (Some true)) None None in
  ltac:(instance_of
          (editMessage_pending_and_count Sample.clock Sample.DLLM
             Sample.findLLMOrThrow Sample.estimateTokensForFragments
             "c2" "m1" (Patch p) (fun _ => p) false true Sample.sys0)).
Proof.
  intros p.
  assert (H : forall (m0 : DMessage) s0,
             fst (applyUpdate (Patch p) m0 s0) = p
             /\ logs_only s0 (snd (applyUpdate (Patch p) m0 s0))).
  { intros m0 s0. split; [reflexivity | apply logs_only_refl]. }
  exact (conj H
           (editMessage_pending_and_count Sample.clock Sample.DLLM
              Sample.findLLMOrThrow Sample.estimateTokensForFragments
              "c2" "m1" (Patch p) (fun _ => p) false true Sample.sys0 H)).
Defined.

(** X13 on the small store: a fragment is appended to the second message,
    and deleted again. *)
Lemma appendMessageFragment_then_deleteMessageFragment_witness :
  ltac:(instance_of
          (appendMessageFragment_then_deleteMessageFragment Sample.clock
             Sample.DLLM Sample.findLLMOrThrow
             Sample.estimateTokensForFragments "c2" "m2"
             (Sample.text (Some "f9") "bye") "f9" false true true false
             Sample.sys0)).
Proof.
  assert (H1 : DMessageFragment.fId (Sample.text (Some "f9") "bye")
               = Some "f9") by reflexivity.
  assert (H2 : forall c m f,
             In c (conversations (chat Sample.sys0)) ->
             DConversation.id c = "c2" ->
             In m (DConversation.messages c) ->
             DMessage.id m = "m2" ->
             In f (DMessage.fragments m) ->
             DMessageFragment.fId f <> Some "f9").
  { intros c m f Hc Hid Hm Hmid Hf. in_cases; cbn in *; congruence. }
  exact (conj H1 (conj H2
           (appendMessageFragment_then_deleteMessageFragment Sample.clock
              Sample.DLLM Sample.findLLMOrThrow
              Sample.estimateTokensForFragments "c2" "m2"
              (Sample.text (Some "f9") "bye") "f9" false true true false
              Sample.sys0 H1 H2))).
Defined.

(** X17 on the small store: the two conversations, none of whose messages
    is pending or holds a fragment to repair, are saved and loaded. *)
Lemma partialize_onRehydrateStorage_nothing_to_repair_witness :
  ltac:(instance_of
          (partialize_onRehydrateStorage_nothing_to_repair Sample.nanoid_of
             Sample.createErrorContentFragment (chat Sample.sys0)
             Sample.sys0)).
Proof.
  assert (H : forall c m,
             In c (conversations (chat Sample.sys0)) ->
             In m (DConversation.messages c) ->
             DMessage.pendingIncomplete m = None
             /\ DMessage.typing m = None
             /\ (forall f,
                   In f (DMessage.fragments m) -> needs_repair f = false)).
  { intros c m Hc Hm. in_cases.
    - split; [reflexivity | split; [reflexivity |]].
      intros f Hf. in_cases. reflexivity.
    - split; [reflexivity | split; [reflexivity |]].
      intros f Hf. in_cases; reflexivity. }
  exact (conj H
           (partialize_onRehydrateStorage_nothing_to_repair Sample.nanoid_of
              Sample.createErrorContentFragment (chat Sample.sys0)
              Sample.sys0 H)).
Defined.

(** X23 on the small store: the first message is given the fragments of
    the message read back from storage, and the stamps are touched. *)
Lemma editMessage_stamps_witness :
  let p :=
    DMessage.mkPatch (Some (DMessage.fragments Sample.stale)) None None
      (Some (Some 5)) in
  ltac:(instance_of
          (editMessage_stamps Sample.clock Sample.DLLM
             Sample.findLLMOrThrow Sample.estimateTokensForFragments
             "c2" "m1" (Patch p) (fun _ => p) false true Sample.sys0)).
Proof.
  intros p.
  assert (H : forall (m0 : DMessage) s0,
             fst (applyUpdate (Patch p) m0 s0) = p
             /\ logs_only s0 (snd (applyUpdate (Patch p) m0 s0))).
  { intros m0 s0. split; [reflexivity | apply logs_only_refl]. }
  exact (conj H
           (editMessage_stamps Sample.clock Sample.DLLM
              Sample.findLLMOrThrow Sample.estimateTokensForFragments
              "c2" "m1" (Patch p) (fun _ => p) false true Sample.sys0 H)).
Defined.
